(** * Vogue / Google Trends pipeline: a shallow embedding

    The three scripts of the repository (collector, sentiment enricher,
    dashboard) are embedded as pure functions.  Python exceptions are an
    explicit [result]; external collaborators (the browser, the HTTP
    services, [ast.literal_eval]) are parameters of the functions that call
    them.

    Python [str] values are modelled by [string], and the model of the
    [str] methods is that of ASCII text, the text for which [str.isascii]
    holds: there [str.upper], [str.lower], [str.title], [str.capitalize],
    [str.isspace] and the digits of [re] are the functions of module [Py].
    Beyond ASCII the case mappings of Python follow the Unicode tables (a
    character may become two, a mapping may depend on the neighbours) and
    more characters are white space or digits; the model does not hold
    there.  A property that rests on a case mapping is therefore stated
    for ASCII text, with [Py.isascii] as its hypothesis; module [Wide]
    has [clean_tags] once more on code points, for a letter outside
    ASCII.  The pandas calls follow pandas 2.x (nanosecond timestamps);
    whether an in-place [fillna] on [df[name]] reaches the frame depends on
    copy-on-write, which is a parameter of [load_data]. *)

From stdpp Require Import gmap strings list sorting.
From Stdlib Require Import ZArith QArith.QArith_base Ascii String.

Local Open Scope string_scope.
Local Open Scope Z_scope.

(** ** Exceptions and results *)

Inductive exn : Set :=
  | ValueError        (* also json.JSONDecodeError, pandas DateParseError,
                         OutOfBoundsDatetime, numpy's ambiguous truth value *)
  | KeyError
  | TypeError
  | AttributeError
  | ConnectionError   (* requests.exceptions.ConnectionError and the like *)
  | TimeoutException  (* selenium *)
  | ResponseError.    (* pytrends *)

Inductive result (A : Type) : Type :=
  | Ok (a : A)
  | Raise (e : exn).
Arguments Ok {A} a.
Arguments Raise {A} e.

Definition bind {A B} (r : result A) (k : A → result B) : result B :=
  match r with
  | Ok a => k a
  | Raise e => Raise e
  end.

Notation "x ←! r ; k" := (bind r (fun x => k))
  (at level 100, r at next level, right associativity).

Definition is_Ok {A} (r : result A) : Prop := ∃ a, r = Ok a.

(** ** Python string methods *)

Module Py.

Definition code (c : ascii) : nat := nat_of_ascii c.

(** [str.isascii]: every character is below 128.  The functions of this
    module are those of [str] on such text. *)
Fixpoint isascii (s : string) : bool :=
  match s with
  | EmptyString => true
  | String c s' => (code c <? 128)%nat && isascii s'
  end.

(** [str.isspace] on one ASCII character; beyond ASCII, U+0085, U+00A0
    and the Unicode spaces are white space as well. *)
Definition isspace (c : ascii) : bool :=
  let n := code c in
  ((9 <=? n)%nat && (n <=? 13)%nat) || ((28 <=? n)%nat && (n <=? 32)%nat).

Definition is_lower (c : ascii) : bool :=
  let n := code c in (97 <=? n)%nat && (n <=? 122)%nat.

Definition is_upper (c : ascii) : bool :=
  let n := code c in (65 <=? n)%nat && (n <=? 90)%nat.

Definition is_cased (c : ascii) : bool := is_lower c || is_upper c.

(** A digit of ASCII; [\d] of [re] also matches the decimal digits of
    the other scripts. *)
Definition is_digit (c : ascii) : bool :=
  let n := code c in (48 <=? n)%nat && (n <=? 57)%nat.

(** [str.upper] and [str.lower] on one ASCII character. *)
Definition upper_char (c : ascii) : ascii :=
  if is_lower c then ascii_of_nat (code c - 32) else c.

Definition lower_char (c : ascii) : ascii :=
  if is_upper c then ascii_of_nat (code c + 32) else c.

Fixpoint map (f : ascii → ascii) (s : string) : string :=
  match s with
  | EmptyString => EmptyString
  | String c s' => String (f c) (map f s')
  end.

Definition upper : string → string := map upper_char.
Definition lower : string → string := map lower_char.

(** [str.title] on ASCII text: a cased character is upper-cased when the
    character before it is not cased, lower-cased otherwise. *)
Fixpoint title_from (previous_is_cased : bool) (s : string) : string :=
  match s with
  | EmptyString => EmptyString
  | String c s' =>
      String (if previous_is_cased then lower_char c else upper_char c)
             (title_from (is_cased c) s')
  end.

Definition title : string → string := title_from false.

(** [str.capitalize] on ASCII text. *)
Definition capitalize (s : string) : string :=
  match s with
  | EmptyString => EmptyString
  | String c s' => String (upper_char c) (lower s')
  end.

(** [str.lstrip], [str.rstrip], [str.strip] for a set of characters. *)
Fixpoint lstrip (p : ascii → bool) (s : string) : string :=
  match s with
  | EmptyString => EmptyString
  | String c s' => if p c then lstrip p s' else s
  end.

Fixpoint rstrip (p : ascii → bool) (s : string) : string :=
  match s with
  | EmptyString => EmptyString
  | String c s' =>
      match rstrip p s' with
      | EmptyString => if p c then EmptyString else String c EmptyString
      | r => String c r
      end
  end.

Definition strip_chars (p : ascii → bool) (s : string) : string :=
  rstrip p (lstrip p s).

Definition strip : string → string := strip_chars isspace.

Definition is_char (d c : ascii) : bool := bool_decide (c = d).

Definition squote : ascii := "'"%char.
Definition dquote : ascii := "034"%char.

(** [sub in s]. *)
Fixpoint startswith (sub s : string) : bool :=
  match sub, s with
  | EmptyString, _ => true
  | String a sub', String b s' => bool_decide (a = b) && startswith sub' s'
  | String _ _, EmptyString => false
  end.

Fixpoint contains (sub s : string) : bool :=
  startswith sub s ||
  match s with
  | EmptyString => false
  | String _ s' => contains sub s'
  end.

(** [s.replace(c, '')] and [s.replace(c, d)] for single characters. *)
Fixpoint remove_char (c : ascii) (s : string) : string :=
  match s with
  | EmptyString => EmptyString
  | String a s' =>
      if bool_decide (a = c) then remove_char c s' else String a (remove_char c s')
  end.

Definition replace_char (c d : ascii) : string → string :=
  map (fun a => if bool_decide (a = c) then d else a).

(** [s.split(c)] for a one-character separator: never empty. *)
Fixpoint split_char (c : ascii) (s : string) : list string :=
  match s with
  | EmptyString => [EmptyString]
  | String a s' =>
      match split_char c s' with
      | w :: ws => if bool_decide (a = c) then EmptyString :: w :: ws
                   else String a w :: ws
      | [] => [] (* not reached *)
      end
  end.

(** [s.split()]: the maximal runs of non-space characters. *)
Fixpoint split_ws_from (word : string) (s : string) : list string :=
  match s with
  | EmptyString => if bool_decide (word = EmptyString) then [] else [word]
  | String a s' =>
      if isspace a
      then (if bool_decide (word = EmptyString) then [] else [word])
             ++ split_ws_from EmptyString s'
      else split_ws_from (word +:+ String a EmptyString) s'
  end.

Definition split_ws : string → list string := split_ws_from EmptyString.

(** [sep.join(words)]. *)
Fixpoint join (sep : string) (words : list string) : string :=
  match words with
  | [] => EmptyString
  | [w] => w
  | w :: ws => w +:+ sep +:+ join sep ws
  end.

(** [s[:n]]. *)
Fixpoint take (n : nat) (s : string) : string :=
  match n, s with
  | S n', String c s' => String c (take n' s')
  | _, _ => EmptyString
  end.

Definition head (s : string) : option ascii :=
  match s with
  | EmptyString => None
  | String c _ => Some c
  end.

Fixpoint last (s : string) : option ascii :=
  match s with
  | EmptyString => None
  | String c EmptyString => Some c
  | String _ s' => last s'
  end.

Definition is_quote (c : ascii) : bool := is_char squote c || is_char dquote c.

(** [ends p s]: [s] begins or ends with a character of [p]. *)
Definition ends (p : ascii → bool) (s : string) : bool :=
  from_option p false (head s) || from_option p false (last s).

(** A set of characters that case mapping neither enters nor leaves and
    that holds no letter: white space, the quote characters. *)
Record caseless (p : ascii → bool) : Prop := {
  caseless_upper : ∀ c, p (upper_char c) = p c;
  caseless_lower : ∀ c, p (lower_char c) = p c;
  caseless_uncased : ∀ c, p c = true → is_cased c = false
}.

End Py.

(** ** trends_vogue_app.py: canonicalization helpers *)

Definition BANNED_ARTISTS : list string := ["estilo de vida"].

Definition TAG_RULES : list (string * string) :=
  [ ("MET GALA", "Met Gala");
    ("METGALA", "Met Gala");
    ("PAREJA", "Parejas");
    ("PAREJAS", "Parejas") ].

(** The chain of four [strip] calls: white space, the single quote, the
    double quote, white space again. *)
Definition stripped_name (name : string) : string :=
  Py.strip (Py.strip_chars (Py.is_char Py.dquote)
             (Py.strip_chars (Py.is_char Py.squote) (Py.strip name))).

Definition clean_artist_name (name : string) : string :=
  let cleaned := stripped_name name in
  if bool_decide (cleaned = EmptyString) then EmptyString else Py.title cleaned.

(** The [for key, value in TAG_RULES.items()] loop: the first key, in
    insertion order, that occurs in [tag] decides. *)
Fixpoint first_rule (rules : list (string * string)) (tag : string) : option string :=
  match rules with
  | [] => None
  | (key, value) :: rules' =>
      if Py.contains key tag then Some value else first_rule rules' tag
  end.

(** [clean_tags] after [str(tag)]. *)
Definition clean_tags (tag : string) : string :=
  let tag := Py.strip (Py.upper tag) in
  match first_rule TAG_RULES tag with
  | Some value => value
  | None => Py.capitalize tag
  end.

(** [Series.apply(f)] for an [f] that may raise. *)
Fixpoint mapM {A B} (f : A → result B) (l : list A) : result (list B) :=
  match l with
  | [] => Ok []
  | a :: l' =>
      b ←! f a;
      bs ←! mapM f l';
      Ok (b :: bs)
  end.

(** ** Python values

    A [scalar] is what a cell of a table or an element of a list holds: a
    missing value ([None], or the float NaN that pandas uses for an empty
    cell), a string, or any other object, kept with its [str()]. *)

Inductive scalar : Type :=
  | SNone
  | SNaN
  | SStr (s : string)
  | SOther (repr : string).

Inductive pyval : Type :=
  | VScalar (x : scalar)
  | VList (l : list scalar).

#[global] Instance scalar_eq_dec : EqDecision scalar.
Proof. solve_decision. Defined.

#[global] Instance pyval_eq_dec : EqDecision pyval.
Proof. solve_decision. Defined.

(** [pd.isna] on a scalar, [Series.notna] on a cell. *)
Definition isna (x : scalar) : bool :=
  match x with
  | SNone | SNaN => true
  | SStr _ | SOther _ => false
  end.

(** [str(x)] *)
Definition py_str (x : scalar) : string :=
  match x with
  | SNone => "None"
  | SNaN => "nan"
  | SStr s => s
  | SOther repr => repr
  end.

(** ** trends_vogue_app.py: the tolerant list parser *)

Section ParseArtists.

(** [bool(numpy.array([]))]: [False] (with a DeprecationWarning) before
    NumPy 2.2, a ValueError from NumPy 2.2 on. *)
Variable np_empty_truth : result bool.

(** [ast.literal_eval]. *)
Variable literal_eval : string → result pyval.

(** [if pd.isna(value):] -- on a list [pd.isna] answers element by element
    with an array, whose truth value exists for one element only. *)
Definition isna_truth (value : pyval) : result bool :=
  match value with
  | VScalar x => Ok (isna x)
  | VList [] => np_empty_truth
  | VList [x] => Ok (isna x)
  | VList (_ :: _ :: _) => Raise ValueError
  end.

(** [clean_artist_name(a)] on a list element: a method call on the
    element, which only a string supports. *)
Definition clean_element (a : scalar) : result string :=
  match a with
  | SStr s => Ok (clean_artist_name s)
  | _ => Raise AttributeError
  end.

(** The condition of both list comprehensions. *)
Definition keep_artist (name : string) : bool :=
  negb (bool_decide (Py.lower name ∈ BANNED_ARTISTS))
  && negb (bool_decide (name = EmptyString)).

Fixpoint clean_elements (value : list scalar) : result (list string) :=
  match value with
  | [] => Ok []
  | a :: rest =>
      name ←! clean_element a;
      names ←! clean_elements rest;
      Ok (if keep_artist name then name :: names else names)
  end.

Definition clean_pieces (pieces : list string) : list string :=
  filter (λ name, keep_artist name = true) (clean_artist_name <$> pieces).

(** [parse_artists] on a list: the call made on already-list values and,
    recursively, on a parsed literal. *)
Definition parse_artists_list (value : list scalar) : result (list string) :=
  na ←! isna_truth (VList value);
  if na : bool then Ok [] else clean_elements value.

Definition parse_artists (value : pyval) : result (list string) :=
  na ←! isna_truth value;
  if na : bool then Ok [] else
  match value with
  | VList l => clean_elements l
  | VScalar (SStr s) =>
      let clean_str :=
        Py.strip (Py.remove_char "]" (Py.remove_char "[" s)) in
      let by_commas := clean_pieces (Py.split_char "," clean_str) in
      match literal_eval clean_str with
      | Ok (VList parsed) =>
          match parse_artists_list parsed with
          | Ok names => Ok names
          | Raise _ => Ok by_commas      (* bare [except: pass] *)
          end
      | _ => Ok by_commas
      end
  | VScalar _ => Ok []
  end.

End ParseArtists.

(** ** celebrities_vogue_articles.py: the date normalizer *)

Definition meses : list (string * string) :=
  [ ("enero", "01"); ("febrero", "02"); ("marzo", "03"); ("abril", "04");
    ("mayo", "05"); ("junio", "06"); ("julio", "07"); ("agosto", "08");
    ("septiembre", "09"); ("octubre", "10"); ("noviembre", "11");
    ("diciembre", "12") ].

Fixpoint dict_get {V} (d : list (string * V)) (key : string) : option V :=
  match d with
  | [] => None
  | (k, v) :: d' => if bool_decide (k = key) then Some v else dict_get d' key
  end.

(** A calendar date: a pandas Timestamp at midnight. *)
Record date : Set := Date { year : Z; month : Z; day : Z }.

Module Re.

(** The matcher for the pattern of [parse_fecha_es],
    [(\d{1,2}) de ([a-z...]+) de (\d{4})], applied with [re.match]: anchored
    at the start, free at the end.  Each repetition is greedy and gives
    back one character at a time.  Of the character class only [a-z] lies
    in the ASCII repertoire, and the digits are those of ASCII: the matcher
    is that of [re] on ASCII text. *)

Fixpoint drop (n : nat) (s : string) : string :=
  match n, s with
  | S n', String _ s' => drop n' s'
  | _, _ => s
  end.

Fixpoint all (p : ascii → bool) (s : string) : bool :=
  match s with
  | EmptyString => true
  | String c s' => p c && all p s'
  end.

(** Length of the longest prefix made of characters of [p]. *)
Fixpoint run (p : ascii → bool) (s : string) : nat :=
  match s with
  | EmptyString => 0%nat
  | String c s' => if p c then S (run p s') else 0%nat
  end.

(** Exactly [n] characters of [p], then the rest. *)
Definition chars (p : ascii → bool) (n : nat) (s : string) : option (string * string) :=
  let group := Py.take n s in
  if bool_decide (String.length group = n) && all p group
  then Some (group, drop n s) else None.

Definition literal (lit s : string) : option string :=
  if Py.startswith lit s then Some (drop (String.length lit) s) else None.

(** The first alternative, in the order tried, that lets the rest match. *)
Fixpoint first_match {A} (attempt : nat → option A) (sizes : list nat) : option A :=
  match sizes with
  | [] => None
  | n :: sizes' =>
      match attempt n with
      | Some r => Some r
      | None => first_match attempt sizes'
      end
  end.

(** Sizes [hi], [hi - 1], ..., [lo]. *)
Definition greedy (lo hi : nat) : list nat := rev (seq lo (S hi - lo)).

Definition month_letter : ascii → bool := Py.is_lower.

(** From the month on, for a month of [k] letters. *)
Definition mes_año (s : string) (k : nat) : option (string * string) :=
  '(mes, s1) ← chars month_letter k s;
  s2 ← literal " de " s1;
  '(año, _) ← chars Py.is_digit 4 s2;
  Some (mes, año).

(** The whole pattern, for a day of [n] digits. *)
Definition dia_mes_año (s : string) (n : nat) : option (string * string * string) :=
  '(dia, s1) ← chars Py.is_digit n s;
  s2 ← literal " de " s1;
  '(mes, año) ← first_match (mes_año s2) (greedy 1 (run month_letter s2));
  Some (dia, mes, año).

Definition match_fecha (s : string) : option (string * string * string) :=
  first_match (dia_mes_año s) (greedy 1 2).

End Re.

Definition digit_value (c : ascii) : Z := Z.of_nat (Py.code c) - 48.

(** [int(s)] for a string of decimal digits. *)
Definition int_of_digits (s : string) : Z :=
  (fix go (acc : Z) (s : string) : Z :=
     match s with
     | EmptyString => acc
     | String c s' => go (10 * acc + digit_value c) s'
     end) 0 s.

Definition is_leap (y : Z) : bool :=
  ((y mod 4 =? 0) && negb (y mod 100 =? 0)) || (y mod 400 =? 0).

Definition days_in_month (y m : Z) : Z :=
  if m =? 2 then (if is_leap y then 29 else 28)
  else if (m =? 4) || (m =? 6) || (m =? 9) || (m =? 11) then 30
  else 31.

Definition date_le (a b : date) : bool :=
  (year a <? year b)
  || ((year a =? year b)
      && ((month a <? month b) || ((month a =? month b) && (day a <=? day b)))).

(** The midnights that a nanosecond Timestamp can hold. *)
Definition Timestamp_first : date := Date 1677 9 22.
Definition Timestamp_last : date := Date 2262 4 11.

(** [pd.to_datetime(f"{año}-{mm}-{dia}")] with the default
    [errors="raise"]: the date, or an error for a day that the month does
    not have and for a date outside the Timestamp range. *)
Definition to_datetime (año mm dia : string) : result date :=
  let d := Date (int_of_digits año) (int_of_digits mm) (int_of_digits dia) in
  if (1 <=? month d) && (month d <=? 12)
     && (1 <=? day d) && (day d <=? days_in_month (year d) (month d))
     && date_le Timestamp_first d && date_le d Timestamp_last
  then Ok d else Raise ValueError.

(** [parse_fecha_es]; [None] is [pd.NaT]. *)
Definition parse_fecha_es (fecha : pyval) : result (option date) :=
  match fecha with
  | VScalar (SStr s) =>
      let fecha := Py.strip (Py.lower s) in
      match Re.match_fecha fecha with
      | Some (dia, mes, año) =>
          match dict_get meses mes with
          | Some mm => d ←! to_datetime año mm dia; Ok (Some d)
          | None => Ok None
          end
      | None => Ok None
      end
  | _ => Ok None
  end.

(** ** sentiment_analysis.py: the sentiment enricher *)

(** What [json.load] and [Response.json] return. *)
#[local] Unset Elimination Schemes.
Inductive json : Type :=
  | JNull
  | JBool (b : bool)
  | JNum (q : Q)
  | JStr (s : string)
  | JArr (items : list json)
  | JObj (fields : list (string * json)).
#[local] Set Elimination Schemes.

(** [obj[key]] for a string key. *)
Definition getitem (obj : json) (key : string) : result json :=
  match obj with
  | JObj fields =>
      match dict_get fields key with
      | Some v => Ok v
      | None => Raise KeyError
      end
  | _ => Raise TypeError
  end.

(** Keys of the tally dictionary: lists and dictionaries cannot be hashed,
    and [True], [False] are the keys 1 and 0. *)
Inductive dict_key : Type :=
  | KNone
  | KNum (q : Q)
  | KStr (s : string).

Definition hash_key (score : json) : result dict_key :=
  match score with
  | JNull => Ok KNone
  | JBool b => Ok (KNum (if b then 1%Q else 0%Q))
  | JNum q => Ok (KNum q)
  | JStr s => Ok (KStr s)
  | JArr _ | JObj _ => Raise TypeError
  end.

Definition key_eqb (a b : dict_key) : bool :=
  match a, b with
  | KNone, KNone => true
  | KNum p, KNum q => Qeq_bool p q
  | KStr s, KStr t => bool_decide (s = t)
  | _, _ => false
  end.

(** [sentiments[score] = sentiments[score] + 1], or [= 1] for a new key. *)
Fixpoint tally (sentiments : list (dict_key * nat)) (score : dict_key)
  : list (dict_key * nat) :=
  match sentiments with
  | [] => [(score, 1%nat)]
  | (k, n) :: rest =>
      if key_eqb k score then (k, S n) :: rest else (k, n) :: tally rest score
  end.

(** The reply of [requests.get]: the status code and the decoded body,
    [None] when [r.json()] cannot decode it (a ValueError). *)
Record response : Type := Response {
  status_code : Z;
  body : option json
}.

Inductive http : Type :=
  | HttpError (e : exn)         (* [requests.get] itself raises *)
  | HttpResponse (r : response).

(** The sentiment service: the reply to the [n]-th call, made with [text]. *)
Definition service : Type := nat → string → http.

Definition max_chars : nat := 1000.
Definition codes_ok : Z := 200.
Definition newline : ascii := "010"%char.

(** The text sent for one item. *)
Definition request_text (item : json) : result string :=
  text ←! getitem item "cuerpo_articulo";
  match text with
  | JStr text =>
      let text := Py.replace_char newline " " text in
      Ok (if (max_chars <? String.length text)%nat then Py.take max_chars text else text)
  | _ => Raise AttributeError      (* no [replace] on anything but a string *)
  end.

(** One turn of the [for item in data] loop, then the rest of it. *)
Fixpoint download_loop (api : service) (n : nat) (data : list json)
    (responses : list json) (sentiments : list (dict_key * nat))
  : result (list json * list (dict_key * nat)) :=
  match data with
  | [] => Ok (responses, sentiments)
  | item :: data' =>
      text ←! request_text item;
      r ←! match api n text with
           | HttpError e => Raise e
           | HttpResponse r => Ok r
           end;
      response ←! match body r with
                  | Some j => Ok j
                  | None => Raise ValueError
                  end;
      sentiments' ←!
        (if status_code r =? codes_ok then
           score ←! getitem response "sentiment";
           key ←! hash_key score;
           Ok (tally sentiments key)
         else
           (* [print("Error:", response.status_code, response.text)]:
              [response] is the decoded body, which has no such attribute *)
           Raise AttributeError);
      download_loop api (S n) data' (responses ++ [response]) sentiments'
  end.

(** [download_sentiment]: [Ok None] is the implicit [return None] after
    the [except ValueError] clause. *)
Definition download_sentiment (data : list json) (api : service)
  : result (option (list json * list (dict_key * nat))) :=
  match download_loop api 0 data [] [] with
  | Ok out => Ok (Some out)
  | Raise ValueError => Ok None
  | Raise e => Raise e
  end.

(** The script: what is written to the sentiment file. *)
Definition sentiment_script (data : list json) (api : service) : result (list json) :=
  out ←! download_sentiment data api;
  match out with
  | Some (responses, _) => Ok responses
  | None => Raise TypeError        (* unpacking [None] into two names *)
  end.

(** [answered api n data bodies]: the calls for [data], the first of which
    is the [n]-th call, are all answered with status 200 and an object that
    has a string label; [bodies] are the decoded bodies, in order. *)
Inductive answered (api : service) : nat → list json → list json → Prop :=
  | answered_nil n : answered api n [] []
  | answered_cons n item data text j label bodies :
      request_text item = Ok text →
      api n text = HttpResponse (Response codes_ok (Some j)) →
      getitem j "sentiment" = Ok (JStr label) →
      answered api (S n) data bodies →
      answered api n (item :: data) (j :: bodies).

(** ** celebrities_vogue_articles.py: the collector and the assembler *)

(** One row of the dataset, with the columns of the source; [F] is what the
    date column holds and [A] what the artists column holds at the stage at
    hand. *)
Record row (F A : Type) : Type := Row {
  titulo : scalar;
  fecha : F;
  link : scalar;
  cuerpo_articulo : scalar;
  artistas_en_articulo : A;
  tag : scalar;
  autor : scalar
}.
Arguments Row {F A}.
Arguments titulo {F A}.
Arguments fecha {F A}.
Arguments link {F A}.
Arguments cuerpo_articulo {F A}.
Arguments artistas_en_articulo {F A}.
Arguments tag {F A}.
Arguments autor {F A}.

(** The records that the collector emits and the frame made of them. *)
Abbreviation record := (row pyval pyval).

Definition process_string (text : string) : string :=
  if bool_decide (text = EmptyString) then "N/A"
  else Py.join " " (Py.split_ws (Py.replace_char newline " " (Py.strip text))).

Definition BODY_CONTAINER_SELECTORS : list string :=
  [ ".body__container p";
    ".GalleryPageTextBlock-vtnP p";
    "[class*=" +:+ String Py.dquote "GalleryPageTextBlock" +:+ String Py.dquote "] p" ].

(** The page behind a link: whether its window opens in time, and the
    texts of the elements that a CSS selector finds in it. *)
Record detail_page : Type := DetailPage {
  opens : bool;
  find_elements : string → list string
}.

(** The NER model, if loaded: the entities (text, label) of a document. *)
Definition nlp_model : Type := option (string → list (string * string)).

(** The [for selector in BODY_CONTAINER_SELECTORS] loop. *)
Fixpoint body_text (selectors : list string) (page : detail_page)
    (cuerpo_completo : string) : string :=
  match selectors with
  | [] => cuerpo_completo
  | selector :: selectors' =>
      match find_elements page selector with
      | [] => body_text selectors' page cuerpo_completo
      | paragraphs =>
          let cuerpo_completo :=
            Py.join " " (filter (λ t, Py.strip t ≠ EmptyString) paragraphs) in
          if bool_decide (Py.strip cuerpo_completo ≠ EmptyString)
          then cuerpo_completo
          else body_text selectors' page cuerpo_completo
      end
  end.

Definition is_person (ent : string * string) : bool :=
  bool_decide (ent.2 = "PER") && (1 <? List.length (Py.split_ws ent.1))%nat.

(** [extract_article_details]: the body and the people named in it. *)
Definition extract_article_details (page : detail_page) (nlp : nlp_model)
  : result (string * list string) :=
  if opens page then
    let cuerpo_completo := body_text BODY_CONTAINER_SELECTORS page EmptyString in
    let cuerpo_completo :=
      if bool_decide (cuerpo_completo = EmptyString) then "N/A"
      else process_string cuerpo_completo in
    let artists :=
      match nlp with
      | Some model =>
          if bool_decide (cuerpo_completo ≠ "N/A")
          then elements (list_to_set (fst <$> List.filter is_person (model cuerpo_completo))
                         : gset string)
          else []
      | None => []
      end in
    Ok (cuerpo_completo, artists)
  else Raise TimeoutException.

(** One summary element of a listing page: the texts of its parts, [None]
    where [find_element] finds nothing; the [href] of its anchor, which may
    be missing; the page behind the link. *)
Record summary : Type := Summary {
  hed : option string;
  publish_date : option string;
  anchor : option scalar;
  detail : detail_page;
  rubric : option string;
  byline : option string
}.

(** One listing page: whether the article selector shows up in time. *)
Record listing : Type := Listing {
  loads : bool;
  summaries : list summary
}.

(** [all_articles] and [processed_keys]. *)
Record collected : Type := Collected {
  all_articles : list record;
  processed_keys : gset (string * string)
}.

(** The body of [for article in articles]. *)
Definition scrape_article (nlp : nlp_model) (st : collected) (article : summary)
  : result collected :=
  match hed article, publish_date article, anchor article with
  | Some h, Some d, Some href =>
      let titulo_ := process_string h in
      let fecha_ := process_string d in
      let article_key := (titulo_, fecha_) in
      if bool_decide (article_key ∈ processed_keys st) then Ok st
      else
        details ←! extract_article_details (detail article) nlp;
        let data :=
          {| titulo := SStr titulo_;
             fecha := VScalar (SStr fecha_);
             link := href;
             cuerpo_articulo := SStr details.1;
             artistas_en_articulo := VList (SStr <$> details.2);
             tag := SStr (from_option process_string "N/A" (rubric article));
             autor := SStr (from_option process_string "N/A" (byline article)) |} in
        Ok (Collected (all_articles st ++ [data])
                      ({[ article_key ]} ∪ processed_keys st))
  | _, _, _ => Ok st
  end.

Fixpoint scrape_articles (nlp : nlp_model) (st : collected) (articles : list summary)
  : result collected :=
  match articles with
  | [] => Ok st
  | article :: articles' =>
      st' ←! scrape_article nlp st article;
      scrape_articles nlp st' articles'
  end.

(** The [for page in range(1, num_pages + 1)] loop, left at the first page
    that shows no article. *)
Fixpoint scrape_pages (nlp : nlp_model) (site : nat → listing) (pages : list nat)
    (st : collected) : result collected :=
  match pages with
  | [] => Ok st
  | page :: pages' =>
      if loads (site page) then
        st' ←! scrape_articles nlp st (summaries (site page));
        scrape_pages nlp site pages' st'
      else Ok st
  end.

Definition scrape_vogue_celebrities (nlp : nlp_model) (site : nat → listing)
    (num_pages : nat) : result (list record) :=
  st ←! scrape_pages nlp site (seq 1 num_pages) (Collected [] ∅);
  Ok (all_articles st).

(** The deduplication key of a record: its title and its date text. *)
Definition article_key (r : record) : scalar * pyval := (titulo r, fecha r).

(** What the loops keep true: the keys of the records are pairwise
    different, and each of them is in [processed_keys]. *)
Definition keys_tracked (st : collected) : Prop :=
  NoDup (article_key <$> all_articles st)
  ∧ ∀ r, r ∈ all_articles st →
      ∃ t f, article_key r = (SStr t, VScalar (SStr f)) ∧ (t, f) ∈ processed_keys st.

(** [(df['cuerpo_articulo'] != 'N/A') & (df['cuerpo_articulo'].notna())] *)
Definition has_body {F A} (r : row F A) : bool :=
  negb (bool_decide (cuerpo_articulo r = SStr "N/A")) && negb (isna (cuerpo_articulo r)).

(** [x if isinstance(x, list) else []] *)
Definition list_or_empty (x : pyval) : list scalar :=
  match x with
  | VList l => l
  | VScalar _ => []
  end.

(** [fillna('')] on one cell. *)
Definition fill_link (x : scalar) : scalar := if isna x then SStr "" else x.

Definition with_fecha {F A} (r : row F A) (d : option date) : row (option date) A :=
  Row (titulo r) d (link r) (cuerpo_articulo r) (artistas_en_articulo r) (tag r) (autor r).

Definition coerce (r : row (option date) pyval) : row (option date) (list scalar) :=
  Row (titulo r) (fecha r) (fill_link (link r)) (cuerpo_articulo r)
      (list_or_empty (artistas_en_articulo r)) (tag r) (autor r).

(** [prepare_dataframe] on the frame of the collected records.  A frame
    made of no record has no column, so that [df['fecha']] fails. *)
Definition prepare_dataframe (df : list record)
  : result (list (row (option date) (list scalar))) :=
  match df with
  | [] => Raise KeyError
  | _ =>
      fechas ←! mapM parse_fecha_es (fecha <$> df);
      let df := zip_with with_fecha df fechas in
      let df := List.filter has_body df in
      Ok (coerce <$> df)
  end.

(** The date that [parse_fecha_es] gives for the date text of a record,
    where it returns. *)
Definition parsed_fecha {A} (r : row pyval A) : option date :=
  match parse_fecha_es (fecha r) with
  | Ok d => d
  | Raise _ => None
  end.

(** ** trends_vogue_app.py: loading the data *)

(** One object of the sentiment file: its fields. *)
Abbreviation entry := (list (string * json)).

(** A cell of a frame built from the entries: [None] is a missing value,
    for an entry without the key and for a JSON null alike. *)
Definition cell (e : entry) (name : string) : option json :=
  match dict_get e name with
  | Some JNull | None => None
  | Some v => Some v
  end.

(** The columns of [pd.DataFrame(entries)]: the keys of the entries, in
    the order in which the entries first show them. *)
Definition seen (columns : list string) (key : string) : list string :=
  if bool_decide (key ∈ columns) then columns else (columns ++ [key])%list.

Definition entry_columns (entries : list entry) : list string :=
  foldl seen [] (entries ≫= (λ e, fst <$> e)).

(** [rename(columns={"score": "confidence"})] on one column name. *)
Definition rename (key : string) : string :=
  if bool_decide (key = "score") then "confidence" else key.

(** Selecting [name] from the renamed frame: every column of that name,
    in the order of the frame, and a [KeyError] when there is none.  After
    the renaming a file with a [score] key and a [confidence] key has two
    columns called [confidence]. *)
Definition column (entries : list entry) (name : string)
  : result (list (list (option json))) :=
  match List.filter (λ key, bool_decide (rename key = name)) (entry_columns entries) with
  | [] => Raise KeyError
  | keys => Ok ((λ key, (λ e, cell e key) <$> entries) <$> keys)
  end.

(** The joined frame: the rows of the CSV file, and the columns called
    [sentiment] and [confidence]; a row beyond the end of the CSV has no
    article. *)
Record frame : Type := Frame {
  articles : list (option (row (option date) (list string)));
  sentiment : list (list (option json));
  confidence : list (list (option json))
}.

(** [Series.fillna(value)] *)
Definition fillna (value : json) (col : list (option json)) : list (option json) :=
  (λ c, Some (default value c)) <$> col.

(** [df[name].fillna(value, inplace=True)].  With one column of that name,
    [df[name]] is in pandas 2 a Series that is a view of the column, and
    the in-place fill writes through to it; with two, [df[name]] is a new
    frame and the fill is lost.  Under copy-on-write, an option of pandas
    2 and the rule from pandas 3 on, [df[name]] never shares its values
    with [df], and the fill is lost as well. *)
Definition fillna_inplace (copy_on_write : bool) (value : json)
    (cols : list (list (option json))) : list (list (option json)) :=
  match cols with
  | [col] => if copy_on_write then cols else [fillna value col]
  | _ => cols
  end.

Section LoadData.

Variable np_empty_truth : result bool.
Variable literal_eval : string → result pyval.

(** [pd.to_datetime(column, errors="coerce")], on the whole column. *)
Variable to_datetime_coerce : list scalar → list (option date).

(** [pd.options.mode.copy_on_write]: off by default in pandas 2, always
    on from pandas 3. *)
Variable copy_on_write : bool.

(** [load_data] on the rows of the CSV file and the entries of the
    sentiment file. *)
Definition load_data (csv : list (row scalar scalar)) (entries : list entry)
  : result frame :=
  let fechas := to_datetime_coerce (fecha <$> csv) in
  artistas ←! mapM (λ x, parse_artists np_empty_truth literal_eval (VScalar x))
                   (artistas_en_articulo <$> csv);
  let df :=
    imap (λ i r,
            Row (titulo r) (default None (fechas !! i)) (link r) (cuerpo_articulo r)
                (default [] (artistas !! i))
                (SStr (clean_tags (py_str (tag r)))) (autor r)) csv in
  (* [sentiment[["sentiment", "confidence"]]] *)
  sentiment_ ←! column entries "sentiment";
  confidence_ ←! column entries "confidence";
  (* [pd.concat(..., axis=1)] on two frames indexed from 0 *)
  let n := (List.length df `max` List.length entries)%nat in
  Ok (Frame (resize n None (Some <$> df))
            (fillna_inplace copy_on_write (JStr "unknown") (resize n None <$> sentiment_))
            (fillna_inplace copy_on_write (JNum 0) (resize n None <$> confidence_))).

End LoadData.

(** ** trends_vogue_app.py: search interest *)

Definition MOCK_TRENDS : bool := false.
Definition MIN_TRENDS_DAYS : Z := 7.

(** A time-indexed frame: the index and one column of scores per name. *)
Record trends : Type := Trends {
  index : list Z;
  columns : list (string * list Z)
}.

(** [pd.DataFrame()] *)
Definition empty_trends : trends := Trends [] [].

(** [drop(columns=name, errors="ignore")] *)
Definition drop_column (name : string) (t : trends) : trends :=
  Trends (index t) (List.filter (λ c, negb (bool_decide (c.1 = name))) (columns t)).

(** What [build_payload] sends. *)
Record payload : Type := Payload {
  hl : string;
  tz : Z;
  kw_list : list string;
  timeframe : Z * Z;
  geo : string
}.

(** What an execution of the body of [get_trends] returns and does: the
    requests that it makes of the service and the errors shown with
    [st.error].  The function is decorated with [@st.cache_data(ttl=3600)]:
    a call with arguments seen within the hour is answered from the cache
    and executes nothing.  The service stands for the three steps of the
    [try] block (client, payload, query); when the client cannot be set
    up the request in [queried] is the one that was to be sent. *)
Record trends_run : Type := TrendsRun {
  returned : result trends;
  queried : list payload;
  shown : list exn
}.

Definition ns_per_day : Z := 86400 * 1000000000.

(** [delta.days] for a time difference in nanoseconds. *)
Definition days (delta : Z) : Z := delta / ns_per_day.

Section GetTrends.

(** The search-interest service behind [TrendReq], [build_payload] and
    [interest_over_time]. *)
Variable pytrends : payload → result trends.

(** The random frame of the mock mode. *)
Variable mock_trends : list string → Z → Z → trends.

(** [get_trends], for times in nanoseconds. *)
Definition get_trends (keywords : list string) (start end_ : Z) : trends_run :=
  if bool_decide (keywords = []) || (days (end_ - start) <? MIN_TRENDS_DAYS)
  then TrendsRun (Ok empty_trends) [] []
  else if MOCK_TRENDS
  then TrendsRun (Ok (mock_trends keywords start end_)) [] []
  else
    let request := Payload "es-ES" 360 (take 5 keywords) (start, end_) "ES" in
    match pytrends request with
    | Ok t => TrendsRun (Ok (drop_column "isPartial" t)) [request] []
    | Raise e => TrendsRun (Ok empty_trends) [request] [e]
    end.

End GetTrends.

(** ** trends_vogue_app.py: colours, counts and views *)

Definition SENTIMENT_COLORS : list (string * string) :=
  [ ("positive", "#97C3E3");
    ("neutral", "#F2E1C4");
    ("negative", "#C78885");
    ("unknown", "##4A4A4A") ].

(** [SENTIMENT_COLORS.get(sentiment, SENTIMENT_COLORS["unknown"])]: the
    key is hashed first; a key that is not a string equals none of the
    keys of the table. *)
Definition sentiment_to_color (sentiment : json) : result string :=
  unknown ←! match dict_get SENTIMENT_COLORS "unknown" with
             | Some color => Ok color
             | None => Raise KeyError
             end;
  key ←! hash_key sentiment;
  Ok (match key with
      | KStr s => default unknown (dict_get SENTIMENT_COLORS s)
      | KNone | KNum _ => unknown
      end).

(** [len({a for sub in series for a in sub})] *)
Definition unique_artists (series : list (list string)) : nat :=
  size (list_to_set (List.concat series) : gset string).

(** [sum(len(sub) for sub in series)] *)
Definition total_mentions (series : list (list string)) : nat :=
  sum_list (List.length <$> series).

(** [Counter(items)]: the counts, in the order in which the items first
    occur. *)
Fixpoint count_item (counts : list (string * nat)) (a : string) : list (string * nat) :=
  match counts with
  | [] => [(a, 1%nat)]
  | (k, n) :: counts' =>
      if bool_decide (k = a) then (k, S n) :: counts'
      else (k, n) :: count_item counts' a
  end.

Definition Counter (items : list string) : list (string * nat) :=
  foldl count_item [] items.

(** [sorted(items, key=itemgetter(1), reverse=True)]: by decreasing count,
    items of equal count in their original order. *)
Fixpoint insert_by_count (x : string * nat) (l : list (string * nat)) : list (string * nat) :=
  match l with
  | [] => [x]
  | y :: l' => if (y.2 <=? x.2)%nat then x :: y :: l' else y :: insert_by_count x l'
  end.

Definition sorted_by_count (items : list (string * nat)) : list (string * nat) :=
  foldr insert_by_count [] items.

(** [Counter.most_common(n)] *)
Definition most_common (n : nat) (counts : list (string * nat)) : list (string * nat) :=
  take n (sorted_by_count counts).

(** [[a for a, _ in Counter(all_artists).most_common(n)]], with
    [all_artists = [a for sub in column for a in sub]]. *)
Definition top_artists (n : nat) (column : list (list string)) : list string :=
  fst <$> most_common n (Counter (List.concat column)).

(** [DataFrame.explode] on the artists column: one row per name, and one
    row with a missing name for an empty list. *)
Definition explode {R} (artists : R → list string) (df : list R) : list (R * option string) :=
  df ≫= (λ r, match artists r with
              | [] => [(r, None)]
              | names => (λ a, (r, Some a)) <$> names
              end).

(** [Series.isin(values)] on one cell. *)
Definition isin (values : list string) (x : option string) : bool :=
  match x with
  | Some a => bool_decide (a ∈ values)
  | None => false
  end.

(** The rows of the box plot: the articles that name one of the top
    artists, exploded, then the rows whose name is one of them. *)
Definition box_plot_rows {R} (artists : R → list string) (top : list string)
    (df : list R) : list (R * option string) :=
  let box_plot_df :=
    List.filter (λ r, existsb (λ a, bool_decide (a ∈ top)) (artists r)) df in
  let box_plot_df_exploded := explode artists box_plot_df in
  List.filter (λ row, isin top row.2) box_plot_df_exploded.

(** [[a for a in all_artists if search.lower() in a.lower()] if search
    else []] *)
Definition matched_artists (search : string) (all_artists : list string) : list string :=
  if bool_decide (search = EmptyString) then []
  else List.filter (λ a, Py.contains (Py.lower search) (Py.lower a)) all_artists.

(** ** The artists column on its way through the CSV file

    [str(names)], which [df.to_csv] writes for a list cell, for names
    made of printable ASCII characters other than the two quotes and the
    backslash: [repr] puts such a name between single quotes as it is (it
    escapes a backslash, a control character and what is not printable,
    and chooses double quotes for a name with a single quote); a comma and
    a blank stand between two names. *)
Definition quoted (name : string) : string := "'" +:+ name +:+ "'".

Definition list_repr (names : list string) : string :=
  "[" +:+ Py.join ", " (quoted <$> names) +:+ "]".

(** [str.isprintable] on one ASCII character. *)
Definition printable (c : ascii) : bool :=
  (32 <=? Py.code c)%nat && (Py.code c <=? 126)%nat.

(** The characters of such a name, the comma and the brackets left out. *)
Definition plain_char (c : ascii) : bool :=
  printable c
  && negb (bool_decide (c = "092"%char))
  && negb (Py.is_quote c)
  && negb (bool_decide (c = ","%char))
  && negb (bool_decide (c = "["%char))
  && negb (bool_decide (c = "]"%char)).

(** A name that the parser lets through. *)
Definition listed (name : string) : Prop :=
  name ≠ EmptyString
  ∧ (Py.lower name ∉ BANNED_ARTISTS)
  ∧ ∃ raw, name = clean_artist_name raw.

(** [without c s]: the character [c] does not occur in [s]. *)
Definition without (c : ascii) (s : string) : bool :=
  Re.all (λ a, negb (bool_decide (a = c))) s.

(** What [str.split()] gives when the word at hand ends. *)
Definition flush (word : string) : list string :=
  if bool_decide (word = EmptyString) then [] else [word].

(** A word: not empty, no white space in it. *)
Definition is_word (w : string) : Prop :=
  w ≠ EmptyString ∧ Re.all (λ c, negb (Py.isspace c)) w = true.

(** ** Sample inputs *)

(** Sample site: two listing pages that show the same article, then a page
    that does not load. *)
Definition gala_page : detail_page :=
  DetailPage true (λ selector,
    if bool_decide (selector = ".body__container p")
    then ["Zendaya y Tom Holland llegaron juntos."; " "] else []).

Definition gala_summary : summary :=
  Summary (Some "La  gala") (Some "15 de marzo de 2024")
          (Some (SStr "https://www.vogue.es/celebrities/gala"))
          gala_page (Some "Met Gala") None.

Definition sample_site (page : nat) : listing :=
  if (page <=? 2)%nat then Listing true [gala_summary; gala_summary]
  else Listing false [].

(** Sample files for the dashboard: two rows, two entries, the second one
    without a label. *)
Definition sample_csv : list (row scalar scalar) :=
  [ Row (SStr "La gala") (SStr "2025-03-15") (SStr "https://www.vogue.es/a")
        (SStr "Hello world") (SStr "['zendaya', 'tom holland']") (SStr "metgala 2025")
        (SStr "N/A");
    Row (SStr "La boda") (SStr "2025-04-01") SNaN
        (SStr "Hola") SNaN SNaN (SStr "N/A") ].

Definition sample_entries : list entry :=
  [ [("score", JNum 1); ("text", JStr "Hello world"); ("sentiment", JStr "POSITIVE")];
    [("score", JNull); ("text", JStr "Hola")] ].

Definition no_dates (column : list scalar) : list (option date) := [].

Definition no_literal (s : string) : result pyval := Raise ValueError.

Definition six_names : list string :=
  ["Zendaya"; "Tom Holland"; "Rosalia"; "Bad Bunny"; "Dua Lipa"; "Aitana"].

(** Sample inputs: one article, a service that rejects every call, a
    service that finds every text positive. *)
Definition one_article : list json := [JObj [("cuerpo_articulo", JStr "Hola")]].

Definition bad_request : service :=
  λ _ _, HttpResponse (Response 400 (Some (JObj [("error", JStr "Invalid API Key.")]))).

Definition all_positive : service :=
  λ _ text, HttpResponse (Response 200
    (Some (JObj [("score", JNum 1); ("text", JStr text); ("sentiment", JStr "POSITIVE")]))).

(** Sample records: one without a body, one with a body, one whose body is
    missing. *)
Definition sample_records : list record :=
  [ Row (SStr "Sin cuerpo") (VScalar (SStr "1 de enero de 2025")) SNone
        (SStr "N/A") (VList []) (SStr "N/A") (SStr "N/A");
    Row (SStr "La gala") (VScalar (SStr "15 de marzo de 2024")) SNone
        (SStr "Hello world") (VScalar SNaN) (SStr "Met Gala") (SStr "N/A");
    Row (SStr "Vacio") (VScalar (SStr "hoy")) (SStr "https://www.vogue.es/x")
        SNone (VList [SStr "Zendaya"]) (SStr "N/A") (SStr "N/A") ].

(** A record as the collector builds it: strings everywhere, a body that
    is not empty, a list of pairwise different people. *)
Definition collector_record (r : record) : Prop :=
  ∃ t f b people tg au,
    titulo r = SStr t ∧ fecha r = VScalar (SStr f)
    ∧ cuerpo_articulo r = SStr b ∧ b ≠ EmptyString
    ∧ artistas_en_articulo r = VList (SStr <$> people) ∧ NoDup people
    ∧ tag r = SStr tg ∧ autor r = SStr au.

(** Sample site: an article whose window does not open, after one that is
    collected. *)
Definition late_summary : summary :=
  Summary (Some "La boda") (Some "1 de abril de 2024")
          (Some (SStr "https://www.vogue.es/celebrities/boda"))
          (DetailPage false (λ _, [])) None None.

Definition late_site (page : nat) : listing :=
  Listing true [gala_summary; late_summary].

(** Sample records: the date of a record without a body names a day that
    its month does not have. *)
Definition february_records : list record :=
  [ Row (SStr "La gala") (VScalar (SStr "15 de marzo de 2024")) SNone
        (SStr "Hello world") (VList []) (SStr "Met Gala") (SStr "N/A");
    Row (SStr "Sin cuerpo") (VScalar (SStr "31 de febrero de 2024")) SNone
        (SStr "N/A") (VList []) (SStr "N/A") (SStr "N/A") ].

(** The number of articles that a tally has counted. *)
Definition tally_total (sentiments : list (dict_key * nat)) : nat :=
  sum_list (snd <$> sentiments).

(** A response with a label that can be counted. *)
Definition labelled (response : json) : Prop :=
  ∃ label key,
    getitem response "sentiment" = Ok label ∧ hash_key label = Ok key.

(** The number of times that [a] occurs in [items]. *)
Definition occurrences (a : string) (items : list string) : nat :=
  List.length (filter (λ b, b = a) items).

(** The sum of the counts. *)
Definition counted (counts : list (string * nat)) : nat := sum_list (snd <$> counts).

(** The order of [most_common]: a count that is not smaller comes first. *)
Definition by_count (x y : string * nat) : Prop := (y.2 ≤ x.2)%nat.

(** The names of three articles. *)
Definition sample_column : list (list string) :=
  [ ["Zendaya"; "Tom Holland"]; ["Rosalia"]; ["Zendaya"] ].

(** Some entry of the sentiment file has the key. *)
Definition some_has (name : string) (entries : list entry) : Prop :=
  ∃ e, e ∈ entries ∧ is_Some (dict_get e name).

(** [df[df["fecha"] >= first]]: a missing date compares false. *)
Definition since {R} (fecha_of : R → option date) (first : date) (df : list R) : list R :=
  List.filter (λ r, match fecha_of r with
                    | Some d => date_le first d
                    | None => false
                    end) df.

(** [df.dropna(subset=["fecha"])] *)
Definition dropna {R} (fecha_of : R → option date) (df : list R) : list R :=
  List.filter (λ r, bool_decide (is_Some (fecha_of r))) df.

(** The first frame of the app. *)
Definition initial_rows {R} (fecha_of : R → option date) (loaded : list R) : list R :=
  dropna fecha_of (since fecha_of (Date 2025 1 1) loaded).

Definition earlier (d e : date) : date := if date_le d e then d else e.

Definition later (d e : date) : date := if date_le d e then e else d.

(** [Series.min()] and [Series.max()] of a column of dates: over the dates
    that are not missing; [None] is [NaT]. *)
Definition extreme (pick : date → date → date) (column : list (option date)) : option date :=
  foldr (λ x acc, match x, acc with
                  | Some d, Some m => Some (pick d m)
                  | Some d, None => Some d
                  | None, _ => acc
                  end) None column.

Definition fecha_min : list (option date) → option date := extreme earlier.

Definition fecha_max : list (option date) → option date := extreme later.

(** [df[(df["fecha"].dt.date >= start_date) & (df["fecha"].dt.date <= end_date)]] *)
Definition between {R} (fecha_of : R → option date) (start_date end_date : date)
    (df : list R) : list R :=
  List.filter (λ r, match fecha_of r with
                    | Some d => date_le start_date d && date_le d end_date
                    | None => false
                    end) df.

(** Sample column of dates. *)
Definition sample_fechas : list (option date) :=
  [ Some (Date 2025 3 15); None; Some (Date 2024 12 31); Some (Date 2025 1 1) ].

(** [sorted(names)] for strings: by code point. *)
Fixpoint insert_name (a : string) (l : list string) : list string :=
  match l with
  | [] => [a]
  | b :: l' => if String.leb a b then a :: b :: l' else b :: insert_name a l'
  end.

Definition sorted_names (names : list string) : list string :=
  foldr insert_name [] names.

(** [sorted({a for sub in column for a in sub})]: the sorted list of a set
    does not depend on the order in which the set gives its elements. *)
Definition all_artists (column : list (list string)) : list string :=
  sorted_names (remove_dups (List.concat column)).

(** [df_filtered[df_filtered["artistas_en_articulo"].apply(lambda x:
    selected_artist in x)]]; [None] is what a select box without options
    answers, and it is in no list of names. *)
Definition artist_df {R} (artists : R → list string) (selected_artist : option string)
    (df : list R) : list R :=
  List.filter (λ r, match selected_artist with
                    | Some a => bool_decide (a ∈ artists r)
                    | None => false
                    end) df.

(** The choice of the celebrity: the outer [None] is [st.stop()], on a
    search that matches no name. *)
Definition selected_artist (selectbox : list string → option string)
    (search : string) (column : list (list string)) : option (option string) :=
  let all_artists := all_artists column in
  match matched_artists search all_artists with
  | [] => if bool_decide (search = EmptyString) then Some (selectbox all_artists)
          else None
  | matched => Some (selectbox matched)
  end.

(** The order of [sorted] on names. *)
Definition name_le (a b : string) : Prop := String.leb a b = true.

(** Sample articles: their names. *)
Definition sample_articles : list (list string) :=
  [ ["Zendaya"; "Tom Holland"]; []; ["Rosalia"; "Zendaya"] ].

(** ** trends_vogue_app.py: the tag rules beyond ASCII

    [clean_tags] once more, on text as a list of code points, for a letter
    whose case mapping is not one to one.  The repertoire is ASCII with
    the two sharp s, U+00DF and U+1E9E.  It is closed under the lower,
    upper and title case mappings of the Unicode Character Database, which
    [str.lower], [str.upper] and [str.capitalize] apply (Python 3.8 and
    later) and which are written out below; none of its letters has a
    mapping that depends on the neighbours.  Text with another code point
    is outside the model: [clean_tags] answers [None]. *)
Module Wide.

Definition sharp_s : N := 223.

Definition capital_sharp_s : N := 7838.

Definition repertoire (c : N) : bool :=
  ((c <? 128) || (c =? sharp_s) || (c =? capital_sharp_s))%N.

Definition isspace (c : N) : bool :=
  (((9 <=? c) && (c <=? 13)) || ((28 <=? c) && (c <=? 32)))%N.

(** The upper case of U+00DF is the two letters SS; U+1E9E is an upper-case
    letter. *)
Definition upper_cp (c : N) : list N :=
  if ((97 <=? c) && (c <=? 122))%N then [(c - 32)%N]
  else if (c =? sharp_s)%N then [83%N; 83%N]
  else [c].

(** The lower case of U+1E9E is U+00DF. *)
Definition lower_cp (c : N) : list N :=
  if ((65 <=? c) && (c <=? 90))%N then [(c + 32)%N]
  else if (c =? capital_sharp_s)%N then [sharp_s]
  else [c].

(** The title case of U+00DF is Ss. *)
Definition title_cp (c : N) : list N :=
  if ((97 <=? c) && (c <=? 122))%N then [(c - 32)%N]
  else if (c =? sharp_s)%N then [83%N; 115%N]
  else [c].

Definition upper (s : list N) : list N := s ≫= upper_cp.

Definition lower (s : list N) : list N := s ≫= lower_cp.

(** [str.capitalize]: the first character in title case, the others in
    lower case. *)
Definition capitalize (s : list N) : list N :=
  match s with
  | [] => []
  | c :: s' => (title_cp c ++ lower s')%list
  end.

Fixpoint lstrip (s : list N) : list N :=
  match s with
  | [] => []
  | c :: s' => if isspace c then lstrip s' else s
  end.

Fixpoint rstrip (s : list N) : list N :=
  match s with
  | [] => []
  | c :: s' =>
      match rstrip s' with
      | [] => if isspace c then [] else [c]
      | r => c :: r
      end
  end.

Definition strip (s : list N) : list N := rstrip (lstrip s).

(** [sub in s]. *)
Fixpoint startswith (sub s : list N) : bool :=
  match sub, s with
  | [], _ => true
  | a :: sub', b :: s' => (a =? b)%N && startswith sub' s'
  | _ :: _, [] => false
  end.

Fixpoint contains (sub s : list N) : bool :=
  startswith sub s ||
  match s with
  | [] => false
  | _ :: s' => contains sub s'
  end.

(** The code points of a string literal. *)
Fixpoint of_string (s : string) : list N :=
  match s with
  | EmptyString => []
  | String c s' => N_of_ascii c :: of_string s'
  end.

Definition TAG_RULES : list (list N * list N) :=
  (λ rule, (of_string rule.1, of_string rule.2)) <$> TAG_RULES.

Fixpoint first_rule (rules : list (list N * list N)) (tag : list N) : option (list N) :=
  match rules with
  | [] => None
  | (key, value) :: rules' =>
      if contains key tag then Some value else first_rule rules' tag
  end.

(** [clean_tags] after [str(tag)], on text of the repertoire. *)
Definition clean_tags (tag : list N) : option (list N) :=
  if forallb repertoire tag then
    let tag := strip (upper tag) in
    Some (match first_rule TAG_RULES tag with
          | Some value => value
          | None => capitalize tag
          end)
  else None.

End Wide.



(** Sample sentiment files: two error payloads; an entry with a score and
    an entry with a confidence. *)
Definition error_entries : list entry :=
  [ [("error", JStr "Invalid API Key.")]; [("error", JStr "Invalid API Key.")] ].

Definition mixed_entries : list entry :=
  [ [("sentiment", JStr "POSITIVE"); ("score", JNum 1)];
    [("sentiment", JStr "NEUTRAL"); ("confidence", JNum 0)] ].

(** * Part II: properties *)

Example clean_artist_name_zendaya : clean_artist_name " 'zendaya' " = "Zendaya".
Proof. vm_compute. reflexivity. Qed.

Example clean_tags_metgala : clean_tags "metgala 2025" = "Met Gala".
Proof. vm_compute. reflexivity. Qed.

Example clean_tags_other : clean_tags " hello world" = "Hello world".
Proof. vm_compute. reflexivity. Qed.

Example title_mixed : Py.title "o'neil mc-x 3a" = "O'Neil Mc-X 3A".
Proof. vm_compute. reflexivity. Qed.

Example split_ws_ex : Py.split_ws (String "010" " a  b c ") = ["a"; "b"; "c"].
Proof. vm_compute. reflexivity. Qed.

Example split_char_ex : Py.split_char ","%char "a,b,,c" = ["a"; "b"; ""; "c"].
Proof. vm_compute. reflexivity. Qed.

(** ** Facts about the string methods *)

Module PyFacts.
Import Py.

Ltac each_char c :=
  destruct c as [[] [] [] [] [] [] [] []]; vm_compute; try reflexivity;
  try discriminate; auto.

Lemma upper_char_idem c : upper_char (upper_char c) = upper_char c.
Proof. each_char c. Qed.

Lemma lower_char_idem c : lower_char (lower_char c) = lower_char c.
Proof. each_char c. Qed.

Lemma upper_lower_char c : upper_char (lower_char c) = upper_char c.
Proof. each_char c. Qed.

Lemma is_cased_upper_char c : is_cased (upper_char c) = is_cased c.
Proof. each_char c. Qed.

Lemma is_cased_lower_char c : is_cased (lower_char c) = is_cased c.
Proof. each_char c. Qed.

Lemma caseless_isspace : caseless isspace.
Proof. split; intros c; each_char c. Qed.

Lemma caseless_squote : caseless (is_char squote).
Proof. split; intros c; each_char c. Qed.

Lemma caseless_dquote : caseless (is_char dquote).
Proof. split; intros c; each_char c. Qed.

Lemma map_length f s : String.length (map f s) = String.length s.
Proof. induction s; simpl; congruence. Qed.

Lemma app_cons c s t : String c s +:+ t = String c (s +:+ t).
Proof. reflexivity. Qed.

Lemma app_nil_l t : EmptyString +:+ t = t.
Proof. reflexivity. Qed.

Lemma map_app f s t : map f (s +:+ t) = map f s +:+ map f t.
Proof.
  induction s as [|c s IH]; [done|].
  rewrite app_cons. simpl. by rewrite IH, app_cons.
Qed.




(** *** Stripping *)

Lemma lstrip_length p s : (String.length (lstrip p s) ≤ String.length s)%nat.
Proof. induction s as [|c s IH]; simpl; [lia|]. destruct (p c); simpl; lia. Qed.

Lemma rstrip_length p s : (String.length (rstrip p s) ≤ String.length s)%nat.
Proof.
  induction s as [|c s IH]; simpl; [lia|].
  destruct (rstrip p s); [destruct (p c)|]; simpl in *; lia.
Qed.

Lemma strip_chars_length p s :
  (String.length (strip_chars p s) ≤ String.length s)%nat.
Proof.
  unfold strip_chars. pose proof (rstrip_length p (lstrip p s)).
  pose proof (lstrip_length p s). lia.
Qed.

Lemma lstrip_id p s : from_option p false (head s) = false → lstrip p s = s.
Proof. destruct s as [|c s]; simpl; [done|]. by intros ->. Qed.

Lemma rstrip_id p s : from_option p false (last s) = false → rstrip p s = s.
Proof.
  induction s as [|c s IH]; [done|]. simpl.
  destruct s as [|d s]; [simpl; by intros ->|].
  intros H. rewrite IH by exact H. done.
Qed.

Lemma strip_chars_id p s : ends p s = false → strip_chars p s = s.
Proof.
  unfold ends, strip_chars. intros [H1 H2]%orb_false_elim.
  rewrite (lstrip_id _ _ H1). by apply rstrip_id.
Qed.

Lemma head_lstrip p s : from_option p false (head (lstrip p s)) = false.
Proof.
  induction s as [|c s IH]; [done|]. simpl.
  destruct (p c) eqn:E; [done|]. simpl. done.
Qed.

Lemma last_rstrip p s : from_option p false (last (rstrip p s)) = false.
Proof.
  induction s as [|c s IH]; [done|]. simpl.
  destruct (rstrip p s) as [|d r] eqn:E.
  - destruct (p c) eqn:Ec; simpl; done.
  - exact IH.
Qed.

Lemma head_rstrip p s :
  from_option p false (head s) = false →
  from_option p false (head (rstrip p s)) = false.
Proof.
  destruct s as [|c s]; [done|]. simpl. intros Hc.
  destruct (rstrip p s); [rewrite Hc|]; simpl; done.
Qed.

Lemma ends_strip_chars p s : ends p (strip_chars p s) = false.
Proof.
  unfold ends, strip_chars.
  rewrite head_rstrip by apply head_lstrip. by rewrite last_rstrip.
Qed.

Lemma strip_chars_idem p s : strip_chars p (strip_chars p s) = strip_chars p s.
Proof. apply strip_chars_id, ends_strip_chars. Qed.





(** Stripping commutes with a character map that respects the set. *)
Lemma lstrip_map p f s :
  (∀ c, p (f c) = p c) → lstrip p (map f s) = map f (lstrip p s).
Proof.
  intros Hf. induction s as [|c s IH]; [done|]. simpl.
  rewrite Hf. by destruct (p c).
Qed.

Lemma rstrip_map p f s :
  (∀ c, p (f c) = p c) → rstrip p (map f s) = map f (rstrip p s).
Proof.
  intros Hf. induction s as [|c s IH]; [done|]. simpl.
  rewrite IH, Hf. destruct (rstrip p s); simpl; [by destruct (p c)|done].
Qed.

Lemma strip_upper s : strip (upper s) = upper (strip s).
Proof.
  unfold strip, strip_chars, upper.
  rewrite lstrip_map, rstrip_map; auto using caseless_upper, caseless_isspace.
Qed.

(** *** Title case *)


Lemma title_from_empty b s : title_from b s = EmptyString ↔ s = EmptyString.
Proof. destruct s; simpl; split; congruence. Qed.

Lemma title_from_idem b s : title_from b (title_from b s) = title_from b s.
Proof.
  revert b. induction s as [|c s IH]; intros b; [done|]. simpl.
  destruct b.
  - by rewrite lower_char_idem, is_cased_lower_char, IH.
  - by rewrite upper_char_idem, is_cased_upper_char, IH.
Qed.

Lemma caseless_title_char p b c :
  caseless p → p (if b : bool then lower_char c else upper_char c) = p c.
Proof. intros [Hu Hl _]. by destruct b. Qed.




Lemma head_title_from p b s :
  caseless p →
  from_option p false (head (title_from b s)) = from_option p false (head s).
Proof. intros Hp. destruct s; simpl; [done|]. by apply caseless_title_char. Qed.

Lemma last_title_from p b s :
  caseless p →
  from_option p false (last (title_from b s)) = from_option p false (last s).
Proof.
  intros Hp. revert b. induction s as [|c s IH]; intros b; [done|].
  destruct s as [|d s]; [simpl; by apply caseless_title_char|].
  exact (IH (is_cased c)).
Qed.

Lemma ends_title p s : caseless p → ends p (title s) = ends p s.
Proof.
  intros Hp. unfold ends, title.
  by rewrite head_title_from, last_title_from.
Qed.



(** *** Substrings *)

Lemma startswith_app sub s : startswith sub (sub +:+ s) = true.
Proof.
  induction sub as [|c sub IH]; [done|]. rewrite app_cons. simpl.
  by rewrite bool_decide_eq_true_2.
Qed.

Lemma contains_app sub pre post : contains sub (pre +:+ sub +:+ post) = true.
Proof.
  induction pre as [|c pre IH].
  - rewrite app_nil_l. destruct (sub +:+ post) eqn:E; simpl;
      rewrite <- E, startswith_app; done.
  - rewrite app_cons. simpl. rewrite IH. apply orb_true_r.
Qed.

Lemma contains_lstrip p sub s a :
  head sub = Some a → p a = false →
  contains sub (lstrip p s) = contains sub s.
Proof.
  intros Hh Ha. induction s as [|c s IH]; [done|]. simpl lstrip.
  destruct (p c) eqn:Ec; [|done]. rewrite IH.
  destruct sub as [|b sub]; [done|]. simpl in Hh. injection Hh as ->.
  change (contains (String a sub) (String c s))
    with (bool_decide (a = c) && startswith sub s || contains (String a sub) s).
  rewrite bool_decide_eq_false_2; [done|]. congruence.
Qed.

Lemma startswith_rstrip p sub s a :
  last sub = Some a → p a = false →
  startswith sub (rstrip p s) = startswith sub s.
Proof.
  intros Hl Ha. revert sub Hl.
  induction s as [|c s IH]; intros sub Hl; [done|].
  destruct sub as [|b sub]; [done|]. simpl rstrip.
  destruct sub as [|b' sub].
  - simpl in Hl. injection Hl as ->.
    destruct (rstrip p s); [destruct (p c) eqn:Ec|]; simpl;
      rewrite ?andb_true_r; try done.
    rewrite bool_decide_eq_false_2; [done|]. congruence.
  - specialize (IH (String b' sub) Hl).
    change (startswith (String b (String b' sub)) (String c s))
      with (bool_decide (b = c) && startswith (String b' sub) s).
    rewrite <- IH.
    destruct (rstrip p s); [destruct (p c)|]; simpl;
      rewrite ?andb_false_r; done.
Qed.

Lemma contains_rstrip p sub s a :
  last sub = Some a → p a = false →
  contains sub (rstrip p s) = contains sub s.
Proof.
  intros Hl Ha. induction s as [|c s IH]; [done|].
  pose proof (startswith_rstrip p sub (String c s) a Hl Ha) as Hs.
  assert (sub ≠ EmptyString) as Hne by (intros ->; done).
  change (contains sub (String c s))
    with (startswith sub (String c s) || contains sub s).
  rewrite <- IH, <- Hs. simpl rstrip.
  destruct (rstrip p s) as [|d r]; [destruct (p c)|]; simpl;
    destruct sub; simpl; rewrite ?orb_false_r; done.
Qed.

Lemma contains_strip_chars p sub s a b :
  head sub = Some a → p a = false →
  last sub = Some b → p b = false →
  contains sub (strip_chars p s) = contains sub s.
Proof.
  intros. unfold strip_chars.
  erewrite contains_rstrip, contains_lstrip; eauto.
Qed.

End PyFacts.

(** ** Artist names and tags *)

Section Canonicalization.
Import Py PyFacts.

Lemma clean_artist_name_title name :
  clean_artist_name name = title (stripped_name name).
Proof.
  unfold clean_artist_name. simpl. case_bool_decide as E; [by rewrite E|done].
Qed.



Lemma stripped_name_length s :
  (String.length (stripped_name s) ≤ String.length s)%nat.
Proof.
  unfold stripped_name, strip.
  pose proof (strip_chars_length isspace
    (strip_chars (is_char dquote) (strip_chars (is_char squote) (strip_chars isspace s)))).
  pose proof (strip_chars_length (is_char dquote)
    (strip_chars (is_char squote) (strip_chars isspace s))).
  pose proof (strip_chars_length (is_char squote) (strip_chars isspace s)).
  pose proof (strip_chars_length isspace s). lia.
Qed.



Lemma ends_stripped_name s : ends isspace (stripped_name s) = false.
Proof. apply ends_strip_chars. Qed.




(** *** Tags *)



Lemma contains_key_strip key a b s :
  head key = Some a → isspace a = false →
  last key = Some b → isspace b = false →
  contains key (strip s) = contains key s.
Proof. intros. unfold strip. eapply contains_strip_chars; eauto. Qed.

Lemma contains_rules_strip s :
  contains "MET GALA" (strip s) = contains "MET GALA" s ∧
  contains "METGALA" (strip s) = contains "METGALA" s ∧
  contains "PAREJA" (strip s) = contains "PAREJA" s ∧
  contains "PAREJAS" (strip s) = contains "PAREJAS" s.
Proof. repeat split; eapply contains_key_strip; reflexivity. Qed.

(** C5, counterexample: a tag naming both a couple and the Met Gala is not
    mapped to "Parejas", and a two-word tag outside the table is not
    title-cased. *)
Lemma clean_tags_claim_fails :
  (contains "PAREJA" (upper "pareja en la met gala") = true
   ∧ clean_tags "pareja en la met gala" ≠ "Parejas")
  ∧ (first_rule TAG_RULES (upper "hello world") = None
     ∧ clean_tags "hello world" ≠ title "hello world").
Proof. vm_compute. repeat split; discriminate. Qed.

(** C5, amended: [clean_tags] depends on the upper-cased input only; a tag
    whose upper case contains "MET GALA" or "METGALA" maps to "Met Gala"
    whatever surrounds it; otherwise a tag whose upper case contains
    "PAREJA" (or "PAREJAS") maps to "Parejas"; every other tag is returned
    capitalized (first character upper-cased, the rest lower-cased) after
    trimming.  "metgala 2025" maps to "Met Gala". *)
Theorem clean_tags_rules (s : string) :
  let u := upper s in
  let met := contains "MET GALA" u || contains "METGALA" u in
  let par := contains "PAREJA" u || contains "PAREJAS" u in
  (∀ t, upper t = u → clean_tags t = clean_tags s)
  ∧ (met = true → clean_tags s = "Met Gala")
  ∧ (met = false → par = true → clean_tags s = "Parejas")
  ∧ (met = false → par = false →
       clean_tags s = capitalize (upper (strip s)))
  ∧ (∀ pre mid post,
       upper mid = "MET GALA" ∨ upper mid = "METGALA" →
       clean_tags (pre +:+ mid +:+ post) = "Met Gala")
  ∧ clean_tags "metgala 2025" = "Met Gala".
Proof.
  assert (∀ r, contains "MET GALA" (upper r) || contains "METGALA" (upper r) = true →
               clean_tags r = "Met Gala") as Hmet.
  { intros r H. unfold clean_tags, TAG_RULES. simpl.
    destruct (contains_rules_strip (upper r)) as (-> & -> & _).
    destruct (contains "MET GALA" (upper r)); [done|]. simpl in H. by rewrite H. }
  simpl. split_and!.
  - intros t Ht. unfold clean_tags. by rewrite Ht.
  - apply Hmet.
  - intros [H1 H2]%orb_false_elim Hp. unfold clean_tags, TAG_RULES. simpl.
    destruct (contains_rules_strip (upper s)) as (-> & -> & -> & ->).
    rewrite H1, H2. destruct (contains "PAREJA" (upper s)); [done|].
    simpl in Hp. by rewrite Hp.
  - intros [H1 H2]%orb_false_elim [H3 H4]%orb_false_elim.
    unfold clean_tags, TAG_RULES. simpl.
    destruct (contains_rules_strip (upper s)) as (-> & -> & -> & ->).
    by rewrite H1, H2, H3, H4, strip_upper.
  - intros pre mid post Hmid. apply Hmet. unfold upper.
    rewrite !map_app. fold (upper mid).
    destruct Hmid as [-> | ->]; rewrite contains_app; by rewrite ?orb_true_r.
  - vm_compute. reflexivity.
Qed.

Lemma clean_tags_rules_witness :
  clean_tags "la GALA: MetGala 2025!" = "Met Gala"
  ∧ clean_tags "Parejas" = "Parejas"
  ∧ clean_tags " alfombra roja " = "Alfombra roja".
Proof.
  split_and!.
  - destruct (clean_tags_rules "la GALA: MetGala 2025!") as (_ & H & _).
    apply H. vm_compute. reflexivity.
  - destruct (clean_tags_rules "Parejas") as (_ & _ & H & _).
    apply H; vm_compute; reflexivity.
  - destruct (clean_tags_rules " alfombra roja ") as (_ & _ & _ & H & _).
    rewrite H; vm_compute; reflexivity.
Defined.


End Canonicalization.

(** ** The tolerant list parser *)

Section ParseArtistsFacts.

Variable np_empty_truth : result bool.
Variable literal_eval : string → result pyval.

Example parse_artists_csv_cell :
  parse_artists np_empty_truth (λ _, Raise ValueError)
    (VScalar (SStr "['zendaya', 'Estilo de Vida', 'tom holland']"))
  = Ok ["Zendaya"; "Tom Holland"].
Proof. vm_compute. reflexivity. Qed.

(** On a list [parse_artists] is [parse_artists_list], which stands for
    the recursive call. *)
Lemma parse_artists_list_eq (l : list scalar) :
  parse_artists np_empty_truth literal_eval (VList l)
  = parse_artists_list np_empty_truth l.
Proof. reflexivity. Qed.

(** On what a CSV cell can hold (a string, an empty cell, a number) the
    parser returns a list. *)
Lemma parse_artists_scalar_total (x : scalar) :
  is_Ok (parse_artists np_empty_truth literal_eval (VScalar x)).
Proof.
  unfold is_Ok, parse_artists.
  destruct x as [| |s|r]; simpl; eauto.
  destruct (literal_eval _) as [[?|parsed]|]; eauto.
  destruct (parse_artists_list _ parsed); eauto.
Qed.

(** C4: on an already-list value of two names [parse_artists] raises: the
    truth value of the array that [pd.isna] returns for the list is
    ambiguous. *)
Theorem parse_artists_list_raises :
  parse_artists np_empty_truth literal_eval
    (VList [SStr "Zendaya"; SStr "Tom Holland"]) = Raise ValueError.
Proof. reflexivity. Qed.

(** The same on every list of two or more elements. *)
Lemma parse_artists_long_list_raises (a b : scalar) (l : list scalar) :
  parse_artists np_empty_truth literal_eval (VList (a :: b :: l)) = Raise ValueError.
Proof. reflexivity. Qed.

End ParseArtistsFacts.

(** ** The date normalizer *)

Example parse_fecha_es_marzo :
  parse_fecha_es (VScalar (SStr "15 de marzo de 2024")) = Ok (Some (Date 2024 3 15)).
Proof. vm_compute. reflexivity. Qed.

Example parse_fecha_es_one_digit :
  parse_fecha_es (VScalar (SStr " 5 DE Enero de 2025 ")) = Ok (Some (Date 2025 1 5)).
Proof. vm_compute. reflexivity. Qed.

Example parse_fecha_es_hello : parse_fecha_es (VScalar (SStr "hello")) = Ok None.
Proof. vm_compute. reflexivity. Qed.

Example parse_fecha_es_unknown_month :
  parse_fecha_es (VScalar (SStr "15 de brumario de 2024")) = Ok None.
Proof. vm_compute. reflexivity. Qed.

Example parse_fecha_es_three_digits :
  parse_fecha_es (VScalar (SStr "115 de marzo de 2024")) = Ok None.
Proof. vm_compute. reflexivity. Qed.

(** A value that is not a string, a null in particular, gives the null date. *)
Lemma parse_fecha_es_not_str (v : pyval) :
  (∀ s, v ≠ VScalar (SStr s)) → parse_fecha_es v = Ok None.
Proof. intros H. destruct v as [[| |s|]|]; try done. by destruct (H s). Qed.

(** A string that does not match, or names a month outside the table,
    gives the null date. *)
Lemma parse_fecha_es_no_match (s : string) :
  match Re.match_fecha (Py.strip (Py.lower s)) with
  | None => True
  | Some (_, mes, _) => dict_get meses mes = None
  end →
  parse_fecha_es (VScalar (SStr s)) = Ok None.
Proof.
  unfold parse_fecha_es.
  destruct (Re.match_fecha _) as [[[dia mes] año]|]; [|done]. by intros ->.
Qed.

(** *** The pattern on date texts of the expected shape *)

Section DatePattern.
Import Py PyFacts.

Lemma append_nil_r s : s +:+ EmptyString = s.
Proof. induction s as [|c s IH]; [done|]. by rewrite app_cons, IH. Qed.

Lemma all_append p s t : Re.all p (s +:+ t) = Re.all p s && Re.all p t.
Proof.
  induction s as [|c s IH]; [done|]. rewrite app_cons. cbn [Re.all].
  by rewrite IH, andb_assoc.
Qed.

Lemma take_append g rest : Py.take (String.length g) (g +:+ rest) = g.
Proof.
  induction g as [|c g IH]; [by destruct rest|].
  rewrite app_cons. cbn [String.length Py.take]. by rewrite IH.
Qed.

Lemma drop_append g rest : Re.drop (String.length g) (g +:+ rest) = rest.
Proof.
  induction g as [|c g IH]; [by destruct rest|].
  rewrite app_cons. cbn [String.length Re.drop]. by rewrite IH.
Qed.

Lemma chars_append p (n : nat) g rest :
  String.length g = n → Re.all p g = true →
  Re.chars p n (g +:+ rest) = Some (g, rest).
Proof.
  intros <- Hg. unfold Re.chars.
  rewrite take_append, drop_append, Hg.
  by rewrite bool_decide_eq_true_2.
Qed.

Lemma literal_append lit rest : Re.literal lit (lit +:+ rest) = Some rest.
Proof. unfold Re.literal. by rewrite startswith_app, drop_append. Qed.

Lemma run_append p g c rest :
  Re.all p g = true → p c = false →
  Re.run p (g +:+ String c rest) = String.length g.
Proof.
  intros Hg Hc. induction g as [|d g IH].
  - rewrite app_nil_l. cbn. by rewrite Hc.
  - rewrite app_cons. cbn [Re.all] in Hg. apply andb_true_iff in Hg as [Hd Hg].
    cbn [Re.run String.length]. by rewrite Hd, IH.
Qed.

Lemma greedy_1_S (n : nat) : Re.greedy 1 (S n) = S n :: Re.greedy 1 n.
Proof.
  unfold Re.greedy. replace (S (S n) - 1)%nat with (S n) by lia.
  replace (S n - 1)%nat with n by lia.
  rewrite seq_S, rev_app_distr. done.
Qed.

Lemma mes_año_app mes año rest :
  Re.all Re.month_letter mes = true →
  String.length año = 4%nat → Re.all is_digit año = true →
  Re.mes_año (mes +:+ " de " +:+ año +:+ rest) (String.length mes) = Some (mes, año).
Proof.
  intros Hm Hl Ha. unfold Re.mes_año.
  rewrite chars_append by done. cbn [mbind option_bind].
  rewrite literal_append. cbn [mbind option_bind].
  by rewrite chars_append.
Qed.

Lemma run_month_de mes rest :
  Re.all Re.month_letter mes = true →
  Re.run Re.month_letter (mes +:+ " de " +:+ rest) = String.length mes.
Proof. intros Hm. by apply (run_append _ mes " "%char ("de " +:+ rest)). Qed.

Lemma months_then_year mes año rest :
  mes ≠ EmptyString → Re.all Re.month_letter mes = true →
  String.length año = 4%nat → Re.all is_digit año = true →
  let s := mes +:+ " de " +:+ año +:+ rest in
  Re.first_match (Re.mes_año s) (Re.greedy 1 (Re.run Re.month_letter s))
  = Some (mes, año).
Proof.
  intros Hne Hm Hl Ha s. unfold s. rewrite run_month_de by done.
  destruct mes as [|c mes]; [done|].
  change (String.length (String c mes)) with (S (String.length mes)).
  rewrite greedy_1_S. cbn [Re.first_match].
  change (S (String.length mes)) with (String.length (String c mes)).
  by rewrite mes_año_app.
Qed.

Lemma dia_mes_año_app dia mes año rest :
  Re.all is_digit dia = true →
  mes ≠ EmptyString → Re.all Re.month_letter mes = true →
  String.length año = 4%nat → Re.all is_digit año = true →
  Re.dia_mes_año (dia +:+ " de " +:+ mes +:+ " de " +:+ año +:+ rest)
                 (String.length dia)
  = Some (dia, mes, año).
Proof.
  intros Hd Hne Hm Hl Ha. unfold Re.dia_mes_año.
  rewrite chars_append by done. cbn [mbind option_bind].
  rewrite literal_append. cbn [mbind option_bind].
  by rewrite months_then_year.
Qed.

(** The pattern finds its three groups at the start of a string, whatever
    follows the year. *)
Lemma match_fecha_app dia mes año rest :
  (String.length dia = 1 ∨ String.length dia = 2)%nat →
  Re.all is_digit dia = true →
  mes ≠ EmptyString → Re.all Re.month_letter mes = true →
  String.length año = 4%nat → Re.all is_digit año = true →
  Re.match_fecha (dia +:+ " de " +:+ mes +:+ " de " +:+ año +:+ rest)
  = Some (dia, mes, año).
Proof.
  intros Hlen Hd Hne Hm Hl Ha. unfold Re.match_fecha.
  change (Re.greedy 1 2) with [2%nat; 1%nat]. cbn [Re.first_match].
  destruct Hlen as [Hlen | Hlen].
  - destruct dia as [|d1 [|d2 dia]]; try discriminate.
    replace (Re.dia_mes_año _ 2) with (@None (string * string * string)).
    + pose proof (dia_mes_año_app (String d1 EmptyString) mes año rest
                    Hd Hne Hm Hl Ha) as H.
      cbn [String.length] in H. by rewrite H.
    + rewrite app_cons, app_nil_l. unfold Re.dia_mes_año, Re.chars.
      change (" de " +:+ ?x) with (String " " ("de " +:+ x)).
      cbn [Py.take String.length Re.all].
      change (is_digit " ") with false. by rewrite andb_false_r, andb_false_r.
  - pose proof (dia_mes_año_app dia mes año rest Hd Hne Hm Hl Ha) as H.
    rewrite Hlen in H. by rewrite H.
Qed.

Lemma lower_fixed s : Re.all (λ c, negb (is_upper c)) s = true → lower s = s.
Proof.
  unfold lower. induction s as [|c s IH]; [done|]. cbn [Re.all Py.map].
  intros [Hc Hs]%andb_true_iff. rewrite IH by done.
  apply negb_true_iff in Hc. unfold lower_char. by rewrite Hc.
Qed.

Lemma all_impl (p q : ascii → bool) s :
  (∀ c, p c = true → q c = true) → Re.all p s = true → Re.all q s = true.
Proof.
  intros Hpq. induction s as [|c s IH]; [done|]. cbn [Re.all].
  intros [Hc Hs]%andb_true_iff. by rewrite (Hpq c Hc), IH.
Qed.

Lemma is_digit_not_upper c : is_digit c = true → negb (is_upper c) = true.
Proof. each_char c. Qed.

Lemma is_lower_not_upper c : is_lower c = true → negb (is_upper c) = true.
Proof. each_char c. Qed.

Lemma is_digit_not_space c : is_digit c = true → isspace c = false.
Proof. each_char c. Qed.

Lemma head_append s t : s ≠ EmptyString → head (s +:+ t) = head s.
Proof. by destruct s. Qed.

Lemma last_append s t : t ≠ EmptyString → last (s +:+ t) = last t.
Proof.
  intros Ht. induction s as [|c s IH]; [done|]. rewrite app_cons.
  cbn [last]. rewrite IH. destruct (s +:+ t) eqn:E; [|done].
  destruct s; [|done]. rewrite app_nil_l in E. done.
Qed.

Lemma last_all (p : ascii → bool) s c :
  Re.all p s = true → last s = Some c → p c = true.
Proof.
  induction s as [|d s IH]; [done|]. cbn [Re.all].
  intros [Hd Hs]%andb_true_iff. destruct s as [|e s].
  - by intros [= <-].
  - intros H. by apply IH.
Qed.

Lemma meses_keys mes mm :
  dict_get meses mes = Some mm →
  mes ≠ EmptyString ∧ Re.all Re.month_letter mes = true.
Proof.
  unfold meses. cbn [dict_get].
  repeat (case_bool_decide as E;
          [subst mes; intros _; split; [done|reflexivity]|clear E]).
  done.
Qed.

(** On a date text of the expected shape [parse_fecha_es] does what
    [pd.to_datetime] does on the rebuilt ISO text. *)
Lemma parse_fecha_es_pattern dia mes mm año :
  (String.length dia = 1 ∨ String.length dia = 2)%nat →
  Re.all is_digit dia = true →
  dict_get meses mes = Some mm →
  String.length año = 4%nat → Re.all is_digit año = true →
  parse_fecha_es (VScalar (SStr (dia +:+ " de " +:+ mes +:+ " de " +:+ año)))
  = (d ←! to_datetime año mm dia; Ok (Some d)).
Proof.
  intros Hlen Hd Hmes Hl Ha.
  destruct (meses_keys _ _ Hmes) as [Hne Hm].
  assert (dia ≠ EmptyString) as Hdne by (destruct Hlen; by destruct dia).
  assert (año ≠ EmptyString) as Hane by (by destruct año).
  set (s := dia +:+ " de " +:+ mes +:+ " de " +:+ año).
  assert (lower s = s) as Hlow.
  { apply lower_fixed. unfold s. rewrite !all_append.
    rewrite (all_impl _ _ dia is_digit_not_upper Hd).
    rewrite (all_impl _ _ mes is_lower_not_upper Hm).
    by rewrite (all_impl _ _ año is_digit_not_upper Ha). }
  assert (strip s = s) as Hstrip.
  { apply strip_chars_id. unfold ends, s. rewrite head_append by done.
    rewrite !last_append by (done || by destruct mes || by destruct año).
    destruct dia as [|d1 dia]; [done|]. cbn [head from_option].
    cbn [Re.all] in Hd. apply andb_true_iff in Hd as [Hd1 _].
    rewrite (is_digit_not_space _ Hd1). cbn.
    destruct (last año) as [c|] eqn:Hc; [|done]. cbn.
    apply is_digit_not_space. by eapply last_all. }
  unfold parse_fecha_es. rewrite Hlow, Hstrip. unfold s.
  rewrite <- (append_nil_r año) at 1.
  rewrite match_fecha_app by done. by rewrite Hmes.
Qed.

End DatePattern.

Example parse_fecha_es_last_of_february :
  parse_fecha_es (VScalar (SStr "29 de febrero de 2024")) = Ok (Some (Date 2024 2 29))
  ∧ parse_fecha_es (VScalar (SStr "29 de febrero de 2025")) = Raise ValueError.
Proof. vm_compute. split; reflexivity. Qed.

(** C3: a string that matches the pattern with a month of the table and a
    day that the month does not have makes [parse_fecha_es] raise. *)
Theorem parse_fecha_es_invalid_day_raises :
  parse_fecha_es (VScalar (SStr "31 de febrero de 2024")) = Raise ValueError.
Proof. vm_compute. reflexivity. Qed.

(** ** The sentiment enricher *)

Section Enricher.

Variable api : service.

Example sentiment_script_ok :
  sentiment_script (one_article ++ one_article) all_positive
  = Ok [ JObj [("score", JNum 1); ("text", JStr "Hola"); ("sentiment", JStr "POSITIVE")];
         JObj [("score", JNum 1); ("text", JStr "Hola"); ("sentiment", JStr "POSITIVE")] ].
Proof. vm_compute. reflexivity. Qed.

Example sentiment_script_bad_request :
  sentiment_script one_article bad_request = Raise AttributeError.
Proof. vm_compute. reflexivity. Qed.

(** When the loop returns, it has appended one response per article. *)
Lemma download_loop_length n data responses sentiments responses' sentiments' :
  download_loop api n data responses sentiments = Ok (responses', sentiments') →
  List.length responses' = (List.length responses + List.length data)%nat.
Proof.
  revert n responses sentiments.
  induction data as [|item data IH]; intros n responses sentiments; simpl.
  - intros [= <- _]. lia.
  - destruct (request_text item) as [text|]; [simpl|done].
    destruct (api n text) as [|r]; [done|simpl].
    destruct (body r) as [j|]; [simpl|done].
    destruct (_ : result (list (dict_key * nat))) as [s'|]; [simpl|done].
    intros H%IH. rewrite length_app in H. simpl in H. lia.
Qed.

(** When every call succeeds the script writes the bodies of the replies,
    one per article, in request order. *)
Lemma download_loop_answered n data bodies :
  answered api n data bodies →
  ∀ responses sentiments,
    ∃ sentiments',
      download_loop api n data responses sentiments
      = Ok ((responses ++ bodies)%list, sentiments').
Proof.
  induction 1 as [n|n item data text j label bodies Ht Hr Hl _ IH];
    intros responses sentiments.
  - exists sentiments. cbn. by rewrite app_nil_r.
  - cbn [download_loop]. rewrite Ht. cbn [bind]. rewrite Hr. cbn [bind body status_code].
    rewrite Z.eqb_refl, Hl. cbn [bind hash_key].
    destruct (IH (responses ++ [j])%list (tally sentiments (KStr label))) as [s' ->].
    exists s'. by rewrite <- app_assoc.
Qed.

Lemma sentiment_script_answered data bodies :
  answered api 0 data bodies → sentiment_script data api = Ok bodies.
Proof.
  intros H. destruct (download_loop_answered _ _ _ H [] []) as [s' Hs'].
  unfold sentiment_script, download_sentiment. by rewrite Hs'.
Qed.

(** The loop does not get past a reply whose status is not 200. *)
Lemma download_loop_non_success (n : nat) (data : list json) responses sentiments
    (k : nat) item text r :
  data !! k = Some item →
  request_text item = Ok text →
  api (n + k)%nat text = HttpResponse r →
  status_code r ≠ codes_ok →
  ∃ e, download_loop api n data responses sentiments = Raise e.
Proof.
  revert n k responses sentiments.
  induction data as [|item' data IH]; intros n k responses sentiments Hk Ht Hr Hs;
    [done|].
  destruct k as [|k]; simpl in Hk.
  - injection Hk as ->. simpl. rewrite Ht. simpl.
    rewrite Nat.add_0_r in Hr. rewrite Hr. simpl.
    destruct (body r) as [j|]; simpl; [|eauto].
    apply Z.eqb_neq in Hs. rewrite Hs. simpl. eauto.
  - simpl.
    destruct (request_text item') as [text'|]; simpl; [|eauto].
    destruct (api n text') as [|r']; simpl; [eauto|].
    destruct (body r') as [j|]; simpl; [|eauto].
    destruct (_ : result (list (dict_key * nat))) as [s'|]; simpl; [|eauto].
    apply (IH (S n) k); try done.
    by replace (S n + k)%nat with (n + S k)%nat by lia.
Qed.

(** C1: a reply of the sentiment service whose status is not 200 aborts the
    stage: the script raises and writes no output. *)
Theorem non_success_response_aborts (data : list json) (k : nat) item text r :
  data !! k = Some item →
  request_text item = Ok text →
  api k text = HttpResponse r →
  status_code r ≠ codes_ok →
  ∃ e, sentiment_script data api = Raise e.
Proof.
  intros Hk Ht Hr Hs.
  destruct (download_loop_non_success 0 data [] [] k item text r Hk Ht Hr Hs)
    as [e He].
  unfold sentiment_script, download_sentiment. rewrite He.
  destruct e; simpl; eauto.
Qed.

End Enricher.

Lemma non_success_response_aborts_witness :
  ∃ e, sentiment_script one_article bad_request = Raise e.
Proof.
  apply (non_success_response_aborts bad_request one_article 0
           (JObj [("cuerpo_articulo", JStr "Hola")]) "Hola"
           (Response 400 (Some (JObj [("error", JStr "Invalid API Key.")])))).
  - reflexivity.
  - vm_compute. reflexivity.
  - reflexivity.
  - vm_compute. discriminate.
Defined.

(** ** The collector: deduplication *)

Section Collector.

Variable nlp : nlp_model.

Lemma keys_tracked_init : keys_tracked (Collected [] ∅).
Proof. split; [constructor|]. intros r Hr. by apply elem_of_nil in Hr. Qed.

Lemma scrape_article_tracked st article st' :
  keys_tracked st → scrape_article nlp st article = Ok st' → keys_tracked st'.
Proof.
  intros [Hnd Hin]. unfold scrape_article.
  destruct (hed article) as [h|]; [|by intros [= <-]].
  destruct (publish_date article) as [d|]; [|by intros [= <-]].
  destruct (anchor article) as [href|]; [|by intros [= <-]].
  case_bool_decide as Hkey; [by intros [= <-]|].
  destruct (extract_article_details _ _) as [details|]; [simpl|done].
  intros [= <-]. split; simpl.
  - rewrite fmap_app. apply NoDup_app. split_and!; [done| |apply NoDup_singleton].
    intros k Hk [= ->]%list_elem_of_singleton.
    apply list_elem_of_fmap in Hk as (r & Hr & Hrin).
    destruct (Hin r Hrin) as (t & f & Hkr & Hset).
    rewrite Hkr in Hr. unfold article_key in Hr. simpl in Hr.
    injection Hr as <- <-. done.
  - intros r [Hr | ->%list_elem_of_singleton]%elem_of_app.
    + destruct (Hin r Hr) as (t & f & Hkr & Hset).
      exists t, f. split; [done|]. set_solver.
    + eexists _, _. split; [reflexivity|]. set_solver.
Qed.

Lemma scrape_articles_tracked articles st st' :
  keys_tracked st → scrape_articles nlp st articles = Ok st' → keys_tracked st'.
Proof.
  revert st. induction articles as [|article articles IH]; intros st Hst; simpl.
  - by intros [= <-].
  - destruct (scrape_article nlp st article) as [st1|] eqn:E; [simpl|done].
    apply IH. by eapply scrape_article_tracked.
Qed.

Lemma scrape_pages_tracked site pages st st' :
  keys_tracked st → scrape_pages nlp site pages st = Ok st' → keys_tracked st'.
Proof.
  revert st. induction pages as [|page pages IH]; intros st Hst; simpl.
  - by intros [= <-].
  - destruct (loads (site page)); [|by intros [= <-]].
    destruct (scrape_articles nlp st _) as [st1|] eqn:E; [simpl|done].
    apply IH. by eapply scrape_articles_tracked.
Qed.

(** The run returns when every window opens in time. *)
Lemma scrape_articles_returns articles st :
  Forall (λ a, opens (detail a) = true) articles →
  is_Ok (scrape_articles nlp st articles).
Proof.
  intros Hall. revert st.
  induction Hall as [|article articles Hopen _ IH]; intros st; simpl.
  - by eexists.
  - unfold scrape_article, extract_article_details. rewrite Hopen.
    destruct (hed article), (publish_date article), (anchor article);
      simpl; try apply IH.
    case_bool_decide; simpl; apply IH.
Qed.

Lemma scrape_pages_returns site pages st :
  (∀ page, Forall (λ a, opens (detail a) = true) (summaries (site page))) →
  is_Ok (scrape_pages nlp site pages st).
Proof.
  intros Hall. revert st. induction pages as [|page pages IH]; intros st; simpl.
  - by eexists.
  - destruct (loads (site page)); [|by eexists].
    destruct (scrape_articles_returns _ st (Hall page)) as [st1 ->]. simpl.
    apply IH.
Qed.

Lemma NoDup_filter_fmap {A B} (f : A → B) (p : A → bool) (l : list A) :
  NoDup (f <$> l) → NoDup (f <$> List.filter p l).
Proof.
  induction l as [|a l IH]; simpl; [done|].
  intros [Ha Hl]%NoDup_cons. destruct (p a); simpl; [|by apply IH].
  apply NoDup_cons. split; [|by apply IH].
  intros (b & Hb & Hin)%list_elem_of_fmap. apply Ha.
  apply list_elem_of_fmap. exists b. split; [done|].
  apply list_elem_of_In. apply list_elem_of_In, filter_In in Hin. tauto.
Qed.

(** C6: in the records of a collection run no two have the same title and
    date text; the same holds of the records that the assembler retains. *)
Theorem collected_keys_unique site (num_pages : nat) (records : list record) :
  scrape_vogue_celebrities nlp site num_pages = Ok records →
  NoDup (article_key <$> records)
  ∧ NoDup (article_key <$> List.filter has_body records).
Proof.
  unfold scrape_vogue_celebrities.
  destruct (scrape_pages _ _ _ _) as [st|] eqn:E; [simpl|done].
  intros [= <-].
  destruct (scrape_pages_tracked _ _ _ _ keys_tracked_init E) as [Hnd _].
  split; [done|]. by apply NoDup_filter_fmap.
Qed.

End Collector.

Example extract_article_details_people :
  extract_article_details gala_page
    (Some (λ _, [("Zendaya", "PER"); ("Tom Holland", "PER");
                 ("Tom Holland", "PER"); ("Met Gala", "MISC")]))
  = Ok ("Zendaya y Tom Holland llegaron juntos.", ["Tom Holland"]).
Proof. vm_compute. reflexivity. Qed.

Example sample_site_collected :
  scrape_vogue_celebrities None sample_site 5
  = Ok [ Row (SStr "La gala") (VScalar (SStr "15 de marzo de 2024"))
             (SStr "https://www.vogue.es/celebrities/gala")
             (SStr "Zendaya y Tom Holland llegaron juntos.")
             (VList []) (SStr "Met Gala") (SStr "N/A") ].
Proof. vm_compute. reflexivity. Qed.

Lemma collected_keys_unique_witness :
  ∃ records,
    scrape_vogue_celebrities None sample_site 5 = Ok records
    ∧ List.length records = 1%nat
    ∧ NoDup (article_key <$> records)
    ∧ NoDup (article_key <$> List.filter has_body records).
Proof.
  eexists. split; [vm_compute; reflexivity|]. split; [reflexivity|].
  apply (collected_keys_unique None sample_site 5). vm_compute. reflexivity.
Defined.

(** ** The assembler *)

Lemma apply_parse_fecha_es_returns {A} (df : list (row pyval A)) :
  (∀ r, In r df → is_Ok (parse_fecha_es (fecha r))) →
  mapM parse_fecha_es (fecha <$> df) = Ok (parsed_fecha <$> df).
Proof.
  induction df as [|r df IH]; intros Hall; [done|].
  destruct (Hall r (or_introl eq_refl)) as [d Hd].
  rewrite !fmap_cons. cbn [mapM].
  unfold parsed_fecha at 1. rewrite Hd. cbn [bind].
  rewrite IH; [done|]. intros r' Hr'. apply Hall. by right.
Qed.

Lemma zip_with_fecha {A} (df : list (row pyval A)) :
  zip_with with_fecha df (parsed_fecha <$> df)
  = (λ r, with_fecha r (parsed_fecha r)) <$> df.
Proof.
  induction df as [|r df IH]; [done|].
  rewrite !fmap_cons. cbn [zip_with]. by rewrite IH.
Qed.

Lemma prepare_dataframe_returns (df : list record) :
  df ≠ [] →
  (∀ r, In r df → is_Ok (parse_fecha_es (fecha r))) →
  prepare_dataframe df
  = Ok (coerce <$> List.filter has_body ((λ r, with_fecha r (parsed_fecha r)) <$> df)).
Proof.
  intros Hne Hall. unfold prepare_dataframe.
  destruct df as [|r df]; [done|].
  rewrite (apply_parse_fecha_es_returns _ Hall). simpl bind.
  by rewrite zip_with_fecha.
Qed.




Example prepare_dataframe_sample :
  prepare_dataframe sample_records
  = Ok [ Row (SStr "La gala") (Some (Date 2024 3 15)) (SStr "")
             (SStr "Hello world") [] (SStr "Met Gala") (SStr "N/A") ].
Proof. vm_compute. reflexivity. Qed.

Example prepare_dataframe_empty : prepare_dataframe [] = Raise KeyError.
Proof. reflexivity. Qed.

(** ** Loading the data: the positional join *)

Lemma mapM_returns {A B} (f : A → result B) (l : list A) :
  (∀ a, is_Ok (f a)) → is_Ok (mapM f l).
Proof.
  intros Hf. induction l as [|a l [bs IH]]; [by eexists|].
  destruct (Hf a) as [b Hb]. cbn [mapM]. rewrite Hb, IH. by eexists.
Qed.

Lemma elem_of_List_filter {A} (p : A → bool) l x :
  x ∈ List.filter p l ↔ x ∈ l ∧ p x = true.
Proof.
  induction l as [|y l IH]; cbn [List.filter].
  - split; [by intros ?%elem_of_nil|by intros [?%elem_of_nil _]].
  - destruct (p y) eqn:E; rewrite ?elem_of_cons, IH, ?elem_of_cons.
    + split; [intros [->|[? ?]]; auto|intros [[->|?] ?]; auto].
    + split; [intros [? ?]; auto|intros [[->|?] ?]; [congruence|auto]].
Qed.

Lemma dict_get_is_Some {V} (e : list (string * V)) (key : string) :
  is_Some (dict_get e key) ↔ key ∈ fst <$> e.
Proof.
  induction e as [|[k v] e IH]; cbn [dict_get].
  - split; [by intros [? ?]|by intros ?%elem_of_nil].
  - rewrite fmap_cons, elem_of_cons. cbn [fst]. case_bool_decide as E.
    + split; [by left|]. intros _. by eexists.
    + rewrite IH. split; [by right|]. intros [?|?]; [by subst|done].
Qed.

Lemma foldl_seen (keys columns : list string) :
  NoDup columns →
  NoDup (foldl seen columns keys)
  ∧ ∀ k, k ∈ foldl seen columns keys ↔ k ∈ columns ∨ k ∈ keys.
Proof.
  revert columns. induction keys as [|key keys IH]; intros columns Hnd; cbn [foldl].
  - split; [done|]. intros k. split; [by left|]. by intros [?|?%elem_of_nil].
  - assert (NoDup (seen columns key)) as Hnd'.
    { unfold seen. case_bool_decide as E; [done|].
      apply NoDup_app. split_and!; [done| |apply NoDup_singleton].
      intros x Hx ->%list_elem_of_singleton. done. }
    destruct (IH _ Hnd') as [H1 H2]. split; [done|].
    intros k. rewrite H2, elem_of_cons. unfold seen. case_bool_decide as E.
    + split; [tauto|]. intros [?|[->|?]]; auto.
    + rewrite elem_of_app, list_elem_of_singleton. tauto.
Qed.

Lemma entry_columns_NoDup entries : NoDup (entry_columns entries).
Proof. apply foldl_seen. constructor. Qed.

Lemma elem_of_entry_columns entries key :
  key ∈ entry_columns entries ↔ some_has key entries.
Proof.
  unfold entry_columns, some_has.
  rewrite (proj2 (foldl_seen _ [] (NoDup_nil_2))), list_elem_of_bind.
  split.
  - intros [?%elem_of_nil|(e & Hk & He)]; [done|].
    exists e. split; [done|]. by apply dict_get_is_Some.
  - intros (e & He & Hk). right. exists e. split; [|done]. by apply dict_get_is_Some.
Qed.

Lemma some_has_dec name entries : some_has name entries ∨ ¬ some_has name entries.
Proof.
  rewrite <- elem_of_entry_columns.
  destruct (decide (name ∈ entry_columns entries)); auto.
Qed.

Lemma filter_one (a : string) (l : list string) :
  NoDup l →
  List.filter (λ k, bool_decide (k = a)) l = if decide (a ∈ l) then [a] else [].
Proof.
  induction 1 as [|x l Hx Hl IH]; cbn [List.filter].
  - rewrite decide_False; [done|]. apply not_elem_of_nil.
  - rewrite IH. case_bool_decide as E.
    + subst x. rewrite (decide_False (P:=a ∈ l)) by done.
      rewrite decide_True; [done|]. apply list_elem_of_here.
    + destruct (decide (a ∈ l)) as [Ha|Ha].
      * rewrite decide_True; [done|]. by apply list_elem_of_further.
      * rewrite decide_False; [done|]. intros [?|?]%elem_of_cons; [by subst|done].
Qed.

Lemma filter_two (a b : string) (l : list string) :
  NoDup l → a ≠ b →
  let r := List.filter (λ k, bool_decide (k = a) || bool_decide (k = b)) l in
  (a ∈ l ∧ b ∈ l ∧ (r = [a; b] ∨ r = [b; a]))
  ∨ (a ∈ l ∧ (b ∉ l) ∧ r = [a])
  ∨ ((a ∉ l) ∧ b ∈ l ∧ r = [b])
  ∨ ((a ∉ l) ∧ (b ∉ l) ∧ r = []).
Proof.
  intros Hnd Hab. cbn zeta.
  assert (∀ c l, c ∉ l →
            List.filter (λ k, bool_decide (k = c) || bool_decide (k = b)) l
            = List.filter (λ k : string, bool_decide (k = b)) l) as Hleft.
  { intros c l' Hc. apply List.filter_ext_in. intros k Hk%list_elem_of_In.
    rewrite (bool_decide_eq_false_2 (k = c)); [done|]. by intros ->. }
  assert (∀ c l, c ∉ l →
            List.filter (λ k, bool_decide (k = a) || bool_decide (k = c)) l
            = List.filter (λ k : string, bool_decide (k = a)) l) as Hright.
  { intros c l' Hc. apply List.filter_ext_in. intros k Hk%list_elem_of_In.
    rewrite (bool_decide_eq_false_2 (k = c)); [apply orb_false_r|]. by intros ->. }
  induction Hnd as [|x l Hx Hl IH]; cbn [List.filter].
  - do 3 right. split_and!; [apply not_elem_of_nil|apply not_elem_of_nil|done].
  - destruct (decide (x = a)) as [->|Hxa].
    + rewrite bool_decide_eq_true_2 by done. cbn [orb].
      rewrite (Hleft a l Hx), (filter_one b l Hl).
      destruct (decide (b ∈ l)) as [Hb|Hb].
      * left. split_and!; [apply list_elem_of_here|by apply list_elem_of_further|by left].
      * right. left. split_and!; [apply list_elem_of_here| |done].
        intros [?|?]%elem_of_cons; [by subst|done].
    + rewrite (bool_decide_eq_false_2 (x = a)) by done. cbn [orb].
      destruct (decide (x = b)) as [->|Hxb].
      * rewrite bool_decide_eq_true_2 by done.
        rewrite (Hright b l Hx), (filter_one a l Hl).
        destruct (decide (a ∈ l)) as [Ha|Ha].
        -- left. split_and!; [by apply list_elem_of_further|apply list_elem_of_here|by right].
        -- right. right. left. split_and!; [|apply list_elem_of_here|done].
           intros [?|?]%elem_of_cons; [by subst|done].
      * rewrite (bool_decide_eq_false_2 (x = b)) by done.
        assert (∀ c, c ≠ x → (c ∈ x :: l ↔ c ∈ l)) as Hin.
        { intros c Hc. rewrite elem_of_cons. split; [intros [?|?]; [by subst|done]|by right]. }
        rewrite !(Hin a), !(Hin b) by done. exact IH.
Qed.

Lemma rename_sentiment key : rename key = "sentiment" ↔ key = "sentiment".
Proof. unfold rename. case_bool_decide as E; [by subst|done]. Qed.

Lemma rename_confidence key :
  rename key = "confidence" ↔ key = "score" ∨ key = "confidence".
Proof. unfold rename. case_bool_decide as E; [by subst; split; auto|]. split; [by right|]. by intros [?|?]. Qed.

Lemma column_raises entries name :
  (∀ key, rename key = name → ¬ some_has key entries) →
  column entries name = Raise KeyError.
Proof.
  intros Hno. unfold column.
  destruct (List.filter _ (entry_columns entries)) as [|key keys] eqn:E; [done|].
  assert (key ∈ List.filter (λ key, bool_decide (rename key = name))
                  (entry_columns entries)) as Hin
    by (rewrite E; apply list_elem_of_here).
  apply elem_of_List_filter in Hin as [Hin Hk].
  apply bool_decide_eq_true in Hk. apply elem_of_entry_columns in Hin.
  by destruct (Hno key Hk).
Qed.

Lemma column_sentiment entries :
  some_has "sentiment" entries →
  column entries "sentiment" = Ok [(λ e, cell e "sentiment") <$> entries].
Proof.
  intros Hs. unfold column.
  rewrite (List.filter_ext _ (λ k, bool_decide (k = "sentiment"))).
  2:{ intros k. apply bool_decide_ext, rename_sentiment. }
  rewrite (filter_one _ _ (entry_columns_NoDup entries)).
  rewrite decide_True by by apply elem_of_entry_columns. done.
Qed.

Lemma column_confidence entries :
  let score := (λ e, cell e "score") <$> entries in
  let own := (λ e, cell e "confidence") <$> entries in
  let r := column entries "confidence" in
  (some_has "score" entries ∧ some_has "confidence" entries
   ∧ (r = Ok [score; own] ∨ r = Ok [own; score]))
  ∨ (some_has "score" entries ∧ ¬ some_has "confidence" entries ∧ r = Ok [score])
  ∨ (¬ some_has "score" entries ∧ some_has "confidence" entries ∧ r = Ok [own])
  ∨ (¬ some_has "score" entries ∧ ¬ some_has "confidence" entries ∧ r = Raise KeyError).
Proof.
  cbn zeta. unfold column.
  rewrite (List.filter_ext _ (λ k, bool_decide (k = "score") || bool_decide (k = "confidence"))).
  2:{ intros k. destruct (decide (k = "score")) as [->|Hk]; [done|].
      rewrite (bool_decide_eq_false_2 (k = "score")) by done. cbn [orb].
      apply bool_decide_ext. rewrite rename_confidence. tauto. }
  rewrite <- !elem_of_entry_columns.
  destruct (filter_two "score" "confidence" _ (entry_columns_NoDup entries))
    as [(? & ? & [-> | ->])|[(? & ? & ->)|[(? & ? & ->)|(? & ? & ->)]]];
    [done|left|left|right; left|right; right; left|right; right; right]; split_and!; auto.
Qed.

Lemma lookup_fillna value (col : list (option json)) (n i : nat) c :
  col !! i = Some c → (i < n)%nat →
  fillna value (resize n None col) !! i = Some (Some (default value c)).
Proof.
  intros Hc Hi. unfold fillna. rewrite list_lookup_fmap.
  rewrite lookup_resize; [by rewrite Hc|done|]. by eapply lookup_lt_Some.
Qed.

Section LoadDataFacts.

Variable np_empty_truth : result bool.
Variable literal_eval : string → result pyval.
Variable to_datetime_coerce : list scalar → list (option date).

(** C2, amended: under pandas 2 without copy-on-write, with as many
    sentiment entries as rows, and a sentiment file in which some entry
    has a label, some entry has a score and none has a confidence of its
    own, [load_data] returns, and row [i] of the result is row [i] of the
    CSV with the label and the score of entry [i], or "unknown" and 0.0
    where the entry has none. *)
Theorem load_data_positional_join (csv : list (row scalar scalar))
    (entries : list entry) :
  List.length entries = List.length csv →
  some_has "sentiment" entries →
  some_has "score" entries →
  ¬ some_has "confidence" entries →
  ∃ df labels scores,
    load_data np_empty_truth literal_eval to_datetime_coerce false csv entries = Ok df
    ∧ sentiment df = [labels] ∧ confidence df = [scores]
    ∧ List.length (articles df) = List.length csv
    ∧ List.length labels = List.length csv
    ∧ List.length scores = List.length csv
    ∧ ∀ (i : nat) c e,
        csv !! i = Some c → entries !! i = Some e →
        (∃ r, articles df !! i = Some (Some r)
              ∧ titulo r = titulo c ∧ link r = link c
              ∧ cuerpo_articulo r = cuerpo_articulo c ∧ autor r = autor c)
        ∧ labels !! i
          = Some (Some (match dict_get e "sentiment" with
                        | Some JNull | None => JStr "unknown"
                        | Some label => label
                        end))
        ∧ scores !! i
          = Some (Some (match dict_get e "score" with
                        | Some JNull | None => JNum 0
                        | Some score => score
                        end)).
Proof.
  intros Hlen Hs Hc Hown. unfold load_data.
  destruct (mapM_returns
              (λ x, parse_artists np_empty_truth literal_eval (VScalar x))
              (artistas_en_articulo <$> csv)
              (parse_artists_scalar_total np_empty_truth literal_eval))
    as [artistas ->].
  cbn [bind]. rewrite (column_sentiment _ Hs).
  destruct (column_confidence entries)
    as [(_ & ? & _)|[(_ & _ & ->)|[(? & _)|(? & _)]]]; try done.
  cbn [bind]. rewrite length_imap, Hlen, Nat.max_id.
  eexists _, _, _. split; [reflexivity|].
  cbn [articles sentiment confidence fmap list_fmap fillna_inplace].
  split_and!; [reflexivity|reflexivity| | | |].
  - by rewrite length_resize.
  - unfold fillna. by rewrite length_fmap, length_resize.
  - unfold fillna. by rewrite length_fmap, length_resize.
  - intros i c e Hi He.
    pose proof (lookup_lt_Some _ _ _ Hi) as Hlt.
    split_and!.
    + rewrite lookup_resize by (rewrite ?length_fmap, ?length_imap; done).
      rewrite list_lookup_fmap, list_lookup_imap, Hi. cbn.
      eexists. split; [reflexivity|]. done.
    + erewrite lookup_fillna; [|by rewrite list_lookup_fmap, He|done].
      unfold cell. by destruct (dict_get e "sentiment") as [[]|].
    + erewrite lookup_fillna; [|by rewrite list_lookup_fmap, He|done].
      unfold cell. by destruct (dict_get e "score") as [[]|].
Qed.

End LoadDataFacts.

Lemma load_data_positional_join_witness :
  ∃ df,
    load_data (Ok false) no_literal no_dates false sample_csv sample_entries = Ok df
    ∧ sentiment df = [[Some (JStr "POSITIVE"); Some (JStr "unknown")]]
    ∧ confidence df = [[Some (JNum 1); Some (JNum 0)]].
Proof.
  destruct (load_data_positional_join (Ok false) no_literal no_dates
              sample_csv sample_entries) as (df & labels & scores & Hdf & _).
  - reflexivity.
  - eexists. split; [apply list_elem_of_here|]. vm_compute. eauto.
  - eexists. split; [apply list_elem_of_here|]. vm_compute. eauto.
  - intros (e & [->|[->|[]%elem_of_nil]%elem_of_cons]%elem_of_cons & [v Hv]);
      vm_compute in Hv; discriminate.
  - exists df. split; [exact Hdf|].
    vm_compute in Hdf. injection Hdf as <-. split; reflexivity.
Defined.

(** C2, the claim as it stands fails: with as many entries as rows,
    [load_data] raises on a sentiment file in which no entry has a label;
    it fills no confidence in when the file has a score in one entry and a
    confidence in another; and under copy-on-write it fills nothing in. *)
Lemma load_data_claim_fails :
  List.length error_entries = List.length sample_csv
  ∧ load_data (Ok false) no_literal no_dates false sample_csv error_entries
    = Raise KeyError
  ∧ List.length mixed_entries = List.length sample_csv
  ∧ (∃ df,
       load_data (Ok false) no_literal no_dates false sample_csv mixed_entries = Ok df
       ∧ confidence df = [[Some (JNum 1); None]; [None; Some (JNum 0)]])
  ∧ List.length sample_entries = List.length sample_csv
  ∧ (∃ df,
       load_data (Ok false) no_literal no_dates true sample_csv sample_entries = Ok df
       ∧ sentiment df = [[Some (JStr "POSITIVE"); None]]
       ∧ confidence df = [[Some (JNum 1); None]]).
Proof.
  split_and!; [reflexivity|vm_compute; reflexivity|reflexivity| |reflexivity|].
  - eexists. split; [vm_compute; reflexivity|reflexivity].
  - eexists. split; [vm_compute; reflexivity|]. split; reflexivity.
Qed.

(** ** Search interest *)

Section GetTrendsFacts.

Variable pytrends : payload → result trends.
Variable mock_trends : list string → Z → Z → trends.

(** C8: [get_trends] returns the empty frame, without a request, for an
    empty keyword list and for a range of fewer than 7 days; a request
    carries the first 5 keywords at most; and a failure of the service
    gives the empty frame, not an exception. *)
Theorem get_trends_guards (keywords : list string) (start end_ : Z) :
  let run := get_trends pytrends mock_trends keywords start end_ in
  (keywords = [] ∨ days (end_ - start) < MIN_TRENDS_DAYS →
     returned run = Ok empty_trends ∧ queried run = [])
  ∧ (∀ q, q ∈ queried run →
       kw_list q = take 5 keywords ∧ (List.length (kw_list q) ≤ 5)%nat)
  ∧ (∀ q e, q ∈ queried run → pytrends q = Raise e →
       returned run = Ok empty_trends ∧ shown run = [e])
  ∧ is_Ok (returned run).
Proof.
  unfold get_trends. cbv zeta.
  destruct (bool_decide (keywords = []) || (days (end_ - start) <? MIN_TRENDS_DAYS))
    eqn:Hguard.
  - split_and!; cbn; [done| | |by eexists].
    + intros q Hq. by apply elem_of_nil in Hq.
    + intros q e Hq. by apply elem_of_nil in Hq.
  - apply orb_false_elim in Hguard as [Hk Hd].
    apply bool_decide_eq_false in Hk. apply Z.ltb_ge in Hd.
    unfold MOCK_TRENDS.
    set (request := Payload "es-ES" 360 (take 5 keywords) (start, end_) "ES").
    split_and!.
    + intros [? | ?]; [done|lia].
    + intros q Hq.
      assert (q = request) as ->.
      { destruct (pytrends request); cbn in Hq;
          by apply list_elem_of_singleton in Hq. }
      split; [done|]. cbn. rewrite length_take. lia.
    + intros q e Hq He.
      assert (q = request) as ->.
      { destruct (pytrends request); cbn in Hq;
          by apply list_elem_of_singleton in Hq. }
      rewrite He. cbn. done.
    + destruct (pytrends request); cbn; by eexists.
Qed.

End GetTrendsFacts.

Lemma get_trends_guards_witness :
  let failing : payload → result trends := λ _, Raise ResponseError in
  let mock : list string → Z → Z → trends := λ _ _ _, empty_trends in
  (returned (get_trends failing mock six_names 0 (3 * ns_per_day)) = Ok empty_trends
   ∧ queried (get_trends failing mock six_names 0 (3 * ns_per_day)) = [])
  ∧ (returned (get_trends failing mock six_names 0 (30 * ns_per_day)) = Ok empty_trends
     ∧ shown (get_trends failing mock six_names 0 (30 * ns_per_day)) = [ResponseError]).
Proof.
  intros failing mock. split.
  - destruct (get_trends_guards failing mock six_names 0 (3 * ns_per_day))
      as (H & _).
    apply H. right. vm_compute. reflexivity.
  - destruct (get_trends_guards failing mock six_names 0 (30 * ns_per_day))
      as (_ & _ & H & _).
    apply (H (Payload "es-ES" 360 (take 5 six_names) (0, 30 * ns_per_day) "ES")
             ResponseError).
    + vm_compute. apply list_elem_of_here.
    + reflexivity.
Defined.

Example get_trends_truncates :
  kw_list <$> queried (get_trends (λ _, Ok empty_trends) (λ _ _ _, empty_trends)
                         six_names 0 (30 * ns_per_day))
  = [["Zendaya"; "Tom Holland"; "Rosalia"; "Bad Bunny"; "Dua Lipa"]].
Proof. vm_compute. reflexivity. Qed.

(** ** Canonical names: more properties *)

Section CanonicalNames.
Import Py PyFacts.

Lemma title_from_lower b s : title_from b (lower s) = title_from b s.
Proof.
  unfold lower. revert b. induction s as [|c s IH]; intros b; [done|].
  cbn [Py.map title_from]. rewrite is_cased_lower_char, IH.
  destruct b; by rewrite ?lower_char_idem, ?upper_lower_char.
Qed.

Lemma strip_chars_lower p s :
  caseless p → strip_chars p (lower s) = lower (strip_chars p s).
Proof.
  intros Hp. unfold strip_chars, lower.
  rewrite lstrip_map, rstrip_map; auto using caseless_lower.
Qed.

Lemma stripped_name_lower s : stripped_name (lower s) = lower (stripped_name s).
Proof.
  unfold stripped_name, strip.
  rewrite !strip_chars_lower;
    auto using caseless_isspace, caseless_squote, caseless_dquote.
Qed.

(** X1: two spellings of an ASCII name that differ in case only have
    the same canonical form. *)
Theorem clean_artist_name_ignores_case (x y : string) :
  isascii x = true → isascii y = true →
  lower x = lower y → clean_artist_name x = clean_artist_name y.
Proof.
  intros _ _ Hxy. rewrite !clean_artist_name_title. unfold title.
  rewrite <- (title_from_lower false (stripped_name x)).
  rewrite <- (title_from_lower false (stripped_name y)).
  by rewrite <- !stripped_name_lower, Hxy.
Qed.

Lemma clean_artist_name_ignores_case_witness :
  clean_artist_name "ZENDAYA " = clean_artist_name "'zendaya'".
Proof.
  transitivity (clean_artist_name "zendaya ").
  - apply (clean_artist_name_ignores_case "ZENDAYA " "zendaya "); vm_compute; reflexivity.
  - vm_compute. reflexivity.
Defined.

(** X2: the canonical form of an ASCII name has no blank at either end
    and is in title case: [str.title] leaves it as it is. *)
Theorem clean_artist_name_canonical (x : string) :
  isascii x = true →
  ends isspace (clean_artist_name x) = false
  ∧ title (clean_artist_name x) = clean_artist_name x.
Proof.
  intros _. rewrite clean_artist_name_title. split_and!.
  - rewrite (ends_title _ _ caseless_isspace). apply ends_stripped_name.
  - apply title_from_idem.
Qed.

Lemma clean_artist_name_canonical_witness :
  clean_artist_name " 'tom HOLLAND' " = "Tom Holland"
  ∧ title (clean_artist_name " 'tom HOLLAND' ") = clean_artist_name " 'tom HOLLAND' ".
Proof.
  split; [vm_compute; reflexivity|].
  apply (clean_artist_name_canonical " 'tom HOLLAND' "). vm_compute. reflexivity.
Defined.

End CanonicalNames.

Section ParseArtistsMore.
Import Py PyFacts.

Variable np_empty_truth : result bool.
Variable literal_eval : string → result pyval.

Lemma keep_artist_true name :
  keep_artist name = true ↔ (lower name ∉ BANNED_ARTISTS) ∧ name ≠ EmptyString.
Proof.
  unfold keep_artist.
  rewrite andb_true_iff, !negb_true_iff, !bool_decide_eq_false. done.
Qed.

Lemma clean_elements_listed (value : list scalar) names :
  clean_elements value = Ok names → Forall listed names.
Proof.
  revert names. induction value as [|a value IH]; intros names; cbn [clean_elements].
  - intros [= <-]. constructor.
  - destruct a as [| |s|]; try done. cbn [clean_element bind].
    destruct (clean_elements value) as [rest|]; [|done]. cbn [bind].
    specialize (IH rest eq_refl).
    destruct (keep_artist (clean_artist_name s)) eqn:Hk; intros [= <-]; [|done].
    constructor; [|done]. apply keep_artist_true in Hk as [? ?].
    split_and!; eauto.
Qed.

Lemma clean_pieces_listed (pieces : list string) : Forall listed (clean_pieces pieces).
Proof.
  unfold clean_pieces. apply Forall_forall. intros name Hin.
  apply list_elem_of_filter in Hin as [Hk Hin].
  apply list_elem_of_fmap in Hin as (raw & -> & _).
  apply keep_artist_true in Hk as [? ?]. split_and!; eauto.
Qed.

(** X3: whatever the input, a list that [parse_artists] returns holds only
    canonical names, none of them empty and none of them on the
    denylist. *)
Theorem parse_artists_names_listed (value : pyval) (names : list string) :
  parse_artists np_empty_truth literal_eval value = Ok names →
  Forall listed names.
Proof.
  unfold parse_artists.
  destruct (isna_truth np_empty_truth value) as [[]|]; cbn [bind]; [| |done].
  { intros [= <-]. constructor. }
  destruct value as [[| |s|]|l]; try (intros [= <-]; constructor).
  - destruct (literal_eval _) as [[?|parsed]|];
      try (intros [= <-]; apply clean_pieces_listed).
    unfold parse_artists_list.
    destruct (isna_truth np_empty_truth (VList parsed)) as [[]|]; cbn [bind];
      try (intros [= <-]; first [constructor|apply clean_pieces_listed]).
    destruct (clean_elements parsed) as [ns|] eqn:E;
      intros [= <-]; [by eapply clean_elements_listed|apply clean_pieces_listed].
  - apply clean_elements_listed.
Qed.

End ParseArtistsMore.

Lemma parse_artists_names_listed_witness :
  Forall listed ["Zendaya"; "Tom Holland"].
Proof.
  apply (parse_artists_names_listed (Ok false) no_literal
           (VScalar (SStr "['zendaya', 'Estilo de Vida', '', 'tom holland']"))).
  vm_compute. reflexivity.
Defined.

Section CsvRoundTrip.
Import Py PyFacts.

Variable np_empty_truth : result bool.
Variable literal_eval : string → result pyval.

Lemma all_lstrip q p s : Re.all q s = true → Re.all q (lstrip p s) = true.
Proof.
  induction s as [|c s IH]; [done|]. cbn [Re.all lstrip].
  intros [Hc Hs]%andb_true_iff. destruct (p c); [by apply IH|].
  cbn [Re.all]. by rewrite Hc, Hs.
Qed.

Lemma all_rstrip q p s : Re.all q s = true → Re.all q (rstrip p s) = true.
Proof.
  induction s as [|c s IH]; [done|]. cbn [Re.all rstrip].
  intros [Hc Hs]%andb_true_iff. specialize (IH Hs).
  destruct (rstrip p s); [destruct (p c)|]; cbn [Re.all] in *; by rewrite ?Hc, ?IH.
Qed.

Lemma all_strip_chars q p s : Re.all q s = true → Re.all q (strip_chars p s) = true.
Proof. intros. by apply all_rstrip, all_lstrip. Qed.

Lemma without_remove_char c s : without c (remove_char c s) = true.
Proof.
  unfold without. induction s as [|a s IH]; [done|]. cbn [remove_char].
  case_bool_decide as E; [done|]. cbn [Re.all].
  by rewrite IH, bool_decide_eq_false_2.
Qed.

Lemma all_remove_char q c s : Re.all q s = true → Re.all q (remove_char c s) = true.
Proof.
  induction s as [|a s IH]; [done|]. cbn [Re.all remove_char].
  intros [Ha Hs]%andb_true_iff. case_bool_decide; [by apply IH|].
  cbn [Re.all]. by rewrite Ha, IH.
Qed.

Lemma startswith_without c sub s :
  without c s = true → startswith (String c sub) s = false.
Proof.
  destruct s as [|a s]; [done|]. unfold without. cbn [Re.all startswith].
  intros [Ha _]%andb_true_iff. apply negb_true_iff, bool_decide_eq_false in Ha.
  rewrite bool_decide_eq_false_2; [done|]. congruence.
Qed.

Lemma contains_without c sub s :
  without c s = true → contains (String c sub) s = false.
Proof.
  induction s as [|a s IH]; [done|]. intros H.
  change (contains (String c sub) (String a s))
    with (startswith (String c sub) (String a s) || contains (String c sub) s).
  rewrite (startswith_without _ _ _ H).
  unfold without in H. cbn [Re.all] in H. apply andb_true_iff in H as [_ H].
  by rewrite IH.
Qed.

(** The text that [parse_artists] hands to [ast.literal_eval] holds no
    bracket. *)
Lemma clean_str_without_bracket s :
  without "[" (strip (remove_char "]" (remove_char "[" s))) = true.
Proof.
  unfold without, strip. apply all_strip_chars, all_remove_char.
  apply without_remove_char.
Qed.

(** A list literal opens with a bracket. *)
Hypothesis literal_eval_list :
  ∀ s l, literal_eval s = Ok (VList l) → contains "[" s = true.

(** The structured parse gives no list. *)
Lemma literal_eval_not_list (s : string) parsed :
  literal_eval (strip (remove_char "]" (remove_char "[" s))) ≠ Ok (VList parsed).
Proof.
  intros E. apply literal_eval_list in E.
  by rewrite (contains_without _ _ _ (clean_str_without_bracket s)) in E.
Qed.

(** X4: on a string cell the structured parse never decides: the result is
    the comma split of the text without its brackets. *)
Theorem parse_artists_string_by_commas (s : string) :
  parse_artists np_empty_truth literal_eval (VScalar (SStr s))
  = Ok (clean_pieces
          (split_char "," (strip (remove_char "]" (remove_char "[" s))))).
Proof.
  unfold parse_artists. cbn [isna_truth isna bind].
  destruct (literal_eval _) as [[?|parsed]|] eqn:E; try done.
  by apply literal_eval_not_list in E.
Qed.


Lemma remove_char_id c s : without c s = true → remove_char c s = s.
Proof.
  unfold without. induction s as [|a s IH]; [done|]. cbn [Re.all remove_char].
  intros [Ha Hs]%andb_true_iff. apply negb_true_iff in Ha. rewrite Ha.
  by rewrite IH.
Qed.

Lemma remove_char_append c s t :
  remove_char c (s +:+ t) = remove_char c s +:+ remove_char c t.
Proof.
  induction s as [|a s IH]; [done|]. rewrite app_cons. cbn [remove_char].
  case_bool_decide; by rewrite IH.
Qed.

Lemma all_join q sep (l : list string) :
  Re.all q sep = true → Forall (λ s, Re.all q s = true) l →
  Re.all q (join sep l) = true.
Proof.
  intros Hsep. induction 1 as [|s l Hs _ IH]; [done|].
  destruct l as [|s' l]; [done|].
  change (join sep (s :: s' :: l)) with (s +:+ sep +:+ join sep (s' :: l)).
  by rewrite !all_append, Hs, Hsep, IH.
Qed.

Lemma all_quoted q n :
  q squote = true → Re.all q n = true → Re.all q (quoted n) = true.
Proof.
  intros Hq Hn. unfold quoted. rewrite !all_append, Hn.
  unfold squote in Hq. cbn. by rewrite Hq.
Qed.

Lemma split_char_cons c s : ∃ w ws, split_char c s = w :: ws.
Proof.
  induction s as [|a s (w & ws & IH)]; [by eexists _, _|].
  cbn [split_char]. rewrite IH. case_bool_decide; by eexists _, _.
Qed.

Lemma split_char_without c s : without c s = true → split_char c s = [s].
Proof.
  unfold without. induction s as [|a s IH]; [done|]. cbn [Re.all split_char].
  intros [Ha Hs]%andb_true_iff. apply negb_true_iff in Ha.
  by rewrite (IH Hs), Ha.
Qed.

Lemma split_char_append c a b :
  without c a = true →
  split_char c (a +:+ String c b) = a :: split_char c b.
Proof.
  unfold without. induction a as [|x a IH].
  - intros _. rewrite app_nil_l. cbn [split_char].
    destruct (split_char_cons c b) as (w & ws & ->).
    by rewrite bool_decide_eq_true_2.
  - cbn [Re.all]. intros [Hx Ha]%andb_true_iff. apply negb_true_iff in Hx.
    rewrite app_cons. cbn [split_char]. by rewrite (IH Ha), Hx.
Qed.

Lemma append_assoc s t u : (s +:+ t) +:+ u = s +:+ t +:+ u.
Proof. induction s as [|c s IH]; [done|]. by rewrite !app_cons, IH. Qed.

(** The pieces between the commas of [str(names)]: the first name between
    its quotes, each other one after a blank. *)
Lemma split_char_join_quoted pre n (rest : list string) :
  without "," pre = true →
  Forall (λ m, without "," m = true) (n :: rest) →
  split_char "," (pre +:+ join ", " (quoted <$> (n :: rest)))
  = (pre +:+ quoted n) :: ((λ m, " " +:+ quoted m) <$> rest).
Proof.
  revert pre n. induction rest as [|n' rest IH]; intros pre n Hpre Hall.
  - apply Forall_cons in Hall as [Hn _]. cbn [fmap list_fmap join].
    apply split_char_without. unfold without. rewrite all_append.
    unfold without in Hpre. rewrite Hpre. by apply all_quoted.
  - apply Forall_cons in Hall as [Hn Hall].
    rewrite fmap_cons.
    change (join ", " (quoted n :: (quoted <$> (n' :: rest))))
      with (quoted n +:+ String "," (" " +:+ join ", " (quoted <$> (n' :: rest)))).
    rewrite <- append_assoc, split_char_append.
    + rewrite IH by done. by rewrite fmap_cons.
    + unfold without. rewrite all_append. unfold without in Hpre.
      rewrite Hpre. by apply all_quoted.
Qed.

Lemma ends_all (p : ascii → bool) s :
  Re.all (λ a, negb (p a)) s = true → ends p s = false.
Proof.
  intros Hs. unfold ends. apply orb_false_intro.
  - destruct s as [|c s]; [done|]. cbn [Re.all] in Hs.
    apply andb_true_iff in Hs as [Hc _]. by apply negb_true_iff in Hc.
  - destruct (last s) as [c|] eqn:Hc; [|done]. cbn.
    apply negb_true_iff. by apply (last_all _ _ _ Hs Hc).
Qed.

Lemma rstrip_snoc p s c :
  p c = true → rstrip p (s +:+ String c EmptyString) = rstrip p s.
Proof.
  intros Hc. induction s as [|a s IH].
  - rewrite app_nil_l. cbn. by rewrite Hc.
  - rewrite app_cons. cbn [rstrip]. by rewrite IH.
Qed.

Lemma strip_chars_quoted n :
  without squote n = true → strip_chars (is_char squote) (quoted n) = n.
Proof.
  intros Hn. pose proof (ends_all (is_char squote) n Hn) as He.
  unfold strip_chars, quoted.
  change ("'" +:+ n +:+ "'") with (String squote (n +:+ String squote EmptyString)).
  cbn [lstrip]. change (is_char squote squote) with true. cbn match.
  unfold ends in He. apply orb_false_elim in He as [Hh Hl].
  destruct n as [|a n].
  - reflexivity.
  - rewrite app_cons. cbn [lstrip]. cbn in Hh. rewrite Hh.
    rewrite <- app_cons, rstrip_snoc by done. by apply rstrip_id.
Qed.

Lemma strip_quoted n : strip (quoted n) = quoted n.
Proof.
  apply strip_chars_id. unfold ends, quoted.
  rewrite (last_append "'" (n +:+ "'")) by (by destruct n).
  rewrite (last_append n "'") by done. reflexivity.
Qed.

Lemma stripped_name_plain n :
  without squote n = true → without dquote n = true →
  stripped_name n = strip n.
Proof.
  intros Hs Hd. unfold stripped_name.
  rewrite (strip_chars_id (is_char squote)) by (apply ends_all; by apply all_strip_chars).
  rewrite (strip_chars_id (is_char dquote)) by (apply ends_all; by apply all_strip_chars).
  apply strip_chars_idem.
Qed.

Lemma stripped_name_quoted n :
  without squote n = true → without dquote n = true →
  stripped_name (quoted n) = stripped_name n.
Proof.
  intros Hs Hd. rewrite (stripped_name_plain n Hs Hd). unfold stripped_name.
  rewrite strip_quoted, strip_chars_quoted by done.
  by rewrite (strip_chars_id (is_char dquote)) by (by apply ends_all).
Qed.

Lemma stripped_name_blank_quoted n :
  stripped_name (" " +:+ quoted n) = stripped_name (quoted n).
Proof.
  assert (strip (" " +:+ quoted n) = strip (quoted n)) as H by reflexivity.
  unfold stripped_name. by rewrite H.
Qed.

Lemma clean_artist_name_quoted n :
  without squote n = true → without dquote n = true →
  clean_artist_name (quoted n) = clean_artist_name n
  ∧ clean_artist_name (" " +:+ quoted n) = clean_artist_name n.
Proof.
  intros Hs Hd. rewrite !clean_artist_name_title.
  by rewrite stripped_name_blank_quoted, stripped_name_quoted.
Qed.

Lemma plain_without n :
  Re.all plain_char n = true →
  without squote n = true ∧ without dquote n = true ∧ without "," n = true
  ∧ without "[" n = true ∧ without "]" n = true.
Proof.
  intros Hn. unfold without.
  split_and!; apply (all_impl plain_char _ n); try done;
    intros c; unfold plain_char, is_quote, is_char;
    rewrite !andb_true_iff, !negb_true_iff, orb_false_iff;
    intros [[[[[? ?] [? ?]] ?] ?] ?]; done.
Qed.

(** [str(names)] without its brackets. *)
Lemma list_repr_clean_str (names : list string) :
  Forall (λ n, Re.all plain_char n = true) names →
  strip (remove_char "]" (remove_char "[" (list_repr names)))
  = join ", " (quoted <$> names).
Proof.
  intros Hall. unfold list_repr.
  assert (∀ c, plain_char c = false → c ≠ squote → c ≠ ","%char → c ≠ " "%char →
               without c (join ", " (quoted <$> names)) = true) as Hj.
  { intros c Hc H1 H2 H3. unfold without. apply all_join.
    - cbn. by rewrite !bool_decide_eq_false_2.
    - apply Forall_fmap. eapply Forall_impl; [exact Hall|].
      intros n Hn. cbn. apply all_quoted; [by rewrite bool_decide_eq_false_2|].
      apply (all_impl plain_char _ n); [|done].
      intros a Ha. apply negb_true_iff, bool_decide_eq_false. congruence. }
  change ("[" +:+ ?x) with (String "[" x). cbn [remove_char].
  rewrite bool_decide_eq_true_2 by done.
  rewrite remove_char_append, (remove_char_id "[") by (by apply Hj).
  cbn [remove_char]. rewrite bool_decide_eq_false_2 by done.
  rewrite remove_char_append, (remove_char_id "]") by (by apply Hj).
  cbn [remove_char]. rewrite bool_decide_eq_true_2 by done.
  rewrite append_nil_r.
  apply strip_chars_id.
  destruct names as [|n names]; [done|]. unfold ends.
  apply orb_false_intro; [by destruct names|].
  clear. revert n. induction names as [|n' names IH]; intros n.
  - cbn [fmap list_fmap join]. unfold quoted.
    rewrite (last_append "'" (n +:+ "'")) by (by destruct n).
    by rewrite (last_append n "'").
  - rewrite !fmap_cons.
    change (join ", " (quoted n :: quoted n' :: (quoted <$> names)))
      with (quoted n +:+ ", " +:+ join ", " (quoted n' :: (quoted <$> names))).
    rewrite !last_append; [exact (IH n')|..].
    + by destruct names.
    + by destruct names.
Qed.

(** X5: [parse_artists] reads back what [str] wrote: on the text of a list
    of names made of printable ASCII characters other than quotes,
    backslash, comma and brackets it returns the canonical forms of these
    names, the empty and the denylisted ones left out; a list of canonical
    names comes back as it was. *)
Theorem parse_artists_list_repr (names : list string) :
  Forall (λ n, Re.all plain_char n = true) names →
  parse_artists np_empty_truth literal_eval (VScalar (SStr (list_repr names)))
  = Ok (clean_pieces names)
  ∧ (Forall (λ n, clean_artist_name n = n ∧ keep_artist n = true) names →
     parse_artists np_empty_truth literal_eval (VScalar (SStr (list_repr names)))
     = Ok names).
Proof.
  intros Hall.
  assert (parse_artists np_empty_truth literal_eval (VScalar (SStr (list_repr names)))
          = Ok (clean_pieces names)) as Hparse.
  { assert (parse_artists np_empty_truth literal_eval (VScalar (SStr (list_repr names)))
            = Ok (clean_pieces
                    (split_char ","
                       (strip (remove_char "]" (remove_char "[" (list_repr names)))))))
      as ->.
    { unfold parse_artists. cbn [isna_truth isna bind].
      destruct (literal_eval _) as [[?|parsed]|] eqn:E; try done.
      by apply literal_eval_not_list in E. }
    rewrite list_repr_clean_str by done.
    f_equal. destruct names as [|n rest]; [done|].
    rewrite <- (app_nil_l (join _ _)).
    rewrite split_char_join_quoted.
    - unfold clean_pieces. f_equal. rewrite app_nil_l, !fmap_cons.
      apply Forall_cons in Hall as [Hn Hrest].
      destruct (plain_without _ Hn) as (Hs & Hd & _).
      rewrite (proj1 (clean_artist_name_quoted n Hs Hd)). f_equal.
      rewrite <- list_fmap_compose. apply Forall_fmap_ext.
      eapply Forall_impl; [exact Hrest|]. intros m Hm. cbn.
      destruct (plain_without _ Hm) as (Hs' & Hd' & _).
      by rewrite (proj2 (clean_artist_name_quoted m Hs' Hd')).
    - done.
    - eapply Forall_impl; [exact Hall|]. intros m Hm.
      by destruct (plain_without _ Hm) as (_ & _ & ? & _). }
  split; [done|]. intros Hfix. rewrite Hparse. f_equal.
  unfold clean_pieces. clear Hall Hparse.
  induction Hfix as [|n rest [Hc Hk] _ IH]; [done|].
  rewrite fmap_cons, filter_cons_True by (by rewrite Hc). by rewrite Hc, IH.
Qed.

End CsvRoundTrip.

Lemma parse_artists_string_by_commas_witness :
  parse_artists (Ok false) no_literal (VScalar (SStr "[Zendaya, 'tom holland']"))
  = Ok ["Zendaya"; "Tom Holland"].
Proof.
  rewrite (parse_artists_string_by_commas (Ok false) no_literal).
  - vm_compute. reflexivity.
  - intros s l H. discriminate H.
Defined.

Lemma parse_artists_list_repr_witness :
  parse_artists (Ok false) no_literal
    (VScalar (SStr (list_repr ["Zendaya"; "Tom Holland"])))
  = Ok ["Zendaya"; "Tom Holland"].
Proof.
  apply (parse_artists_list_repr (Ok false) no_literal).
  - intros s l H. discriminate H.
  - repeat constructor.
  - repeat constructor.
Defined.

(** ** Normalized text *)

Section ProcessString.
Import Py PyFacts.

Lemma split_ws_from_space w s :
  Re.all isspace s = true → split_ws_from w s = flush w.
Proof.
  revert w. induction s as [|c s IH]; intros w; [done|].
  cbn [Re.all split_ws_from]. intros [-> Hs]%andb_true_iff.
  rewrite (IH _ Hs). unfold flush at 2. cbn. by rewrite app_nil_r.
Qed.

Lemma split_ws_lstrip s :
  split_ws_from EmptyString (lstrip isspace s) = split_ws_from EmptyString s.
Proof.
  induction s as [|c s IH]; [done|]. cbn [lstrip].
  destruct (isspace c) eqn:Hc; [|done]. cbn [split_ws_from].
  rewrite Hc, IH. done.
Qed.

Lemma rstrip_empty p s : rstrip p s = EmptyString → Re.all p s = true.
Proof.
  induction s as [|c s IH]; [done|]. cbn [rstrip Re.all].
  destruct (rstrip p s); [|done]. destruct (p c); [|done].
  intros _. by rewrite IH.
Qed.

Lemma split_ws_rstrip w s :
  split_ws_from w (rstrip isspace s) = split_ws_from w s.
Proof.
  revert w. induction s as [|c s IH]; intros w; [done|]. cbn [rstrip].
  destruct (rstrip isspace s) as [|d r] eqn:E.
  - pose proof (rstrip_empty _ _ E) as Hs. cbn [split_ws_from].
    destruct (isspace c) eqn:Hc; cbn [split_ws_from];
      rewrite ?Hc, ?(split_ws_from_space _ s Hs).
    + unfold flush. cbn. by rewrite app_nil_r.
    + done.
  - rewrite <- E in IH |- *. cbn [split_ws_from]. by rewrite !IH.
Qed.

Lemma split_ws_strip s : split_ws (strip s) = split_ws s.
Proof.
  unfold split_ws, strip, strip_chars.
  by rewrite split_ws_rstrip, split_ws_lstrip.
Qed.

Lemma split_ws_replace_newline w s :
  split_ws_from w (replace_char newline " " s) = split_ws_from w s.
Proof.
  unfold replace_char. revert w.
  induction s as [|c s IH]; intros w; [done|]. cbn [Py.map split_ws_from].
  case_bool_decide as E; [subst c|]; by rewrite !IH.
Qed.

(** The words of [str.split()] are words. *)
Lemma split_ws_from_words w s :
  Re.all (λ c, negb (isspace c)) w = true → Forall is_word (split_ws_from w s).
Proof.
  revert w. induction s as [|c s IH]; intros w Hw; cbn [split_ws_from].
  - unfold flush. case_bool_decide; constructor; [done|constructor].
  - destruct (isspace c) eqn:Hc.
    + apply Forall_app. split; [|by apply IH].
      case_bool_decide; constructor; [done|constructor].
    + apply IH. by rewrite all_append, Hw; cbn; rewrite Hc.
Qed.

Lemma split_ws_from_word w x s :
  Re.all (λ c, negb (isspace c)) x = true →
  split_ws_from w (x +:+ s) = split_ws_from (w +:+ x) s.
Proof.
  revert w. induction x as [|c x IH]; intros w Hx.
  - by rewrite app_nil_l, append_nil_r.
  - cbn [Re.all] in Hx. apply andb_true_iff in Hx as [Hc Hx].
    apply negb_true_iff in Hc. rewrite app_cons. cbn [split_ws_from].
    rewrite Hc, (IH _ Hx).
    by rewrite append_assoc.
Qed.

(** Splitting the words joined by single blanks gives the words back. *)
Lemma split_ws_join (ws : list string) :
  Forall is_word ws → split_ws (join " " ws) = ws.
Proof.
  unfold split_ws. induction 1 as [|x ws [Hne Hx] Hws IH]; [done|].
  destruct ws as [|y ws].
  - cbn [join]. rewrite <- (append_nil_r x) at 1.
    rewrite split_ws_from_word, app_nil_l by done. cbn.
    by rewrite bool_decide_eq_false_2.
  - change (join " " (x :: y :: ws)) with (x +:+ String " " (join " " (y :: ws))).
    rewrite split_ws_from_word, app_nil_l by done. cbn [split_ws_from].
    change (isspace " ") with true. cbn match.
    rewrite bool_decide_eq_false_2 by done. by rewrite IH.
Qed.

Lemma join_words_nonempty (ws : list string) :
  Forall is_word ws → ws ≠ [] → join " " ws ≠ EmptyString.
Proof.
  intros Hws Hne. destruct Hws as [|x ws [Hx _] _]; [done|].
  destruct x; [done|]. by destruct ws.
Qed.

Lemma process_string_join (text : string) :
  text ≠ EmptyString → process_string text = join " " (split_ws text).
Proof.
  intros Hne. unfold process_string. rewrite bool_decide_eq_false_2 by done.
  assert (split_ws (replace_char newline " " (strip text)) = split_ws text) as ->.
  { unfold split_ws. rewrite split_ws_replace_newline. apply split_ws_strip. }
  done.
Qed.

(** X6: on a text that is not empty [process_string] gives the words of
    the text with one blank between two of them: trimming and replacing
    the line ends change nothing, and the words are kept as they are. *)
Theorem process_string_words (text : string) :
  text ≠ EmptyString →
  process_string text = join " " (split_ws text)
  ∧ split_ws (process_string text) = split_ws text.
Proof.
  intros Hne. rewrite (process_string_join text Hne).
  split; [done|]. apply split_ws_join. by apply split_ws_from_words.
Qed.

Lemma process_string_words_witness :
  process_string (String newline "  Zendaya   y Tom ")
  = "Zendaya y Tom".
Proof.
  destruct (process_string_words (String newline "  Zendaya   y Tom "))
    as [H _]; [discriminate|].
  rewrite H. vm_compute. reflexivity.
Defined.

(** X7: [process_string] applied twice gives the same as applied once,
    except on a text made of white space only, which becomes the empty
    string and then the sentinel. *)
Theorem process_string_idempotent_iff (text : string) :
  process_string (process_string text) = process_string text
  ↔ process_string text ≠ EmptyString.
Proof.
  destruct (decide (text = EmptyString)) as [->|Hne]; [by vm_compute|].
  pose proof (process_string_join text Hne) as Hp.
  pose proof (split_ws_from_words EmptyString text eq_refl) as Hws.
  assert (split_ws (process_string text) = split_ws text) as Hw.
  { rewrite Hp. by apply split_ws_join. }
  fold (split_ws text) in Hws.
  destruct (split_ws text) as [|x ws] eqn:E.
  - rewrite Hp. cbn. split; [by vm_compute|done].
  - assert (process_string text ≠ EmptyString) as Hpne.
    { rewrite Hp. by apply join_words_nonempty. }
    split; [done|]. intros _.
    rewrite (process_string_join _ Hpne), Hw. by rewrite Hp.
Qed.

Lemma process_string_idempotent_iff_witness :
  process_string (process_string "La  gala") = process_string "La  gala"
  ∧ process_string (process_string "  ") ≠ process_string "  ".
Proof.
  split.
  - apply (process_string_idempotent_iff "La  gala"). vm_compute. discriminate.
  - intros H. apply (process_string_idempotent_iff "  ") in H.
    apply H. vm_compute. reflexivity.
Defined.

End ProcessString.

(** ** The collector: article details *)

Section ArticleDetails.
Import Py PyFacts.

Lemma all_lstrip_back p s : Re.all p (lstrip p s) = true → Re.all p s = true.
Proof.
  induction s as [|c s IH]; [done|]. cbn [lstrip Re.all].
  destruct (p c) eqn:Hc; [done|]. cbn [Re.all]. by rewrite Hc.
Qed.

Lemma lstrip_all p s : Re.all p s = true → lstrip p s = EmptyString.
Proof.
  induction s as [|c s IH]; [done|]. cbn [lstrip Re.all].
  intros [-> Hs]%andb_true_iff. by apply IH.
Qed.

(** A text is blank when nothing is left of it after trimming. *)
Lemma strip_empty_iff s : strip s = EmptyString ↔ Re.all isspace s = true.
Proof.
  unfold strip, strip_chars. split.
  - intros H. by apply all_lstrip_back, rstrip_empty.
  - intros H. by rewrite lstrip_all.
Qed.

Lemma split_ws_from_nonempty w s : w ≠ EmptyString → split_ws_from w s ≠ [].
Proof.
  revert w. induction s as [|c s IH]; intros w Hw; cbn [split_ws_from].
  - by rewrite bool_decide_eq_false_2.
  - destruct (isspace c).
    + by rewrite bool_decide_eq_false_2.
    + apply IH. by destruct w.
Qed.

Lemma split_ws_from_nonblank w s :
  Re.all isspace s = false → split_ws_from w s ≠ [].
Proof.
  revert w. induction s as [|c s IH]; intros w; [done|].
  cbn [Re.all split_ws_from]. destruct (isspace c).
  - cbn. intros Hs. specialize (IH EmptyString Hs).
    intros [_ ?]%app_eq_nil. done.
  - intros _. apply split_ws_from_nonempty. by destruct w.
Qed.

Lemma process_string_nonblank s :
  Re.all isspace s = false → process_string s ≠ EmptyString.
Proof.
  intros Hs. assert (s ≠ EmptyString) as Hne by (by intros ->).
  rewrite (process_string_join s Hne).
  apply join_words_nonempty.
  - by apply split_ws_from_words.
  - by apply split_ws_from_nonblank.
Qed.

Lemma join_nonblank sep x (l : list string) :
  Re.all isspace x = false → Re.all isspace (join sep (x :: l)) = false.
Proof.
  intros Hx. destruct l as [|y l]; [done|].
  change (join sep (x :: y :: l)) with (x +:+ sep +:+ join sep (y :: l)).
  by rewrite all_append, Hx.
Qed.

(** What the loop over the selectors leaves in [cuerpo_completo]: nothing,
    or a text that is not blank. *)
Lemma body_text_not_blank selectors page cuerpo :
  cuerpo = EmptyString ∨ Re.all isspace cuerpo = false →
  body_text selectors page cuerpo = EmptyString
  ∨ Re.all isspace (body_text selectors page cuerpo) = false.
Proof.
  revert cuerpo. induction selectors as [|selector selectors IH];
    intros cuerpo Hc; [done|]. cbn [body_text].
  destruct (find_elements page selector) as [|p ps] eqn:E; [by apply IH|].
  set (kept := filter (λ t, strip t ≠ EmptyString) (p :: ps)).
  assert (join " " kept = EmptyString ∨ Re.all isspace (join " " kept) = false) as Hk.
  { assert (Forall (λ t, Re.all isspace t = false) kept) as Hall.
    { apply Forall_forall. intros t [Ht _]%list_elem_of_filter.
      destruct (Re.all isspace t) eqn:Hb; [|done].
      by apply strip_empty_iff in Hb. }
    destruct Hall as [|x l Hx _]; [by left|]. right. by apply join_nonblank. }
  case_bool_decide as Hs; [|by apply IH].
  right. destruct Hk as [Hk|Hk]; [|done]. by rewrite Hk in Hs.
Qed.

Lemma extract_article_details_shape page (nlp : nlp_model) body people :
  extract_article_details page nlp = Ok (body, people) →
  body ≠ EmptyString ∧ NoDup people.
Proof.
  unfold extract_article_details. destruct (opens page); [|done].
  set (raw := body_text BODY_CONTAINER_SELECTORS page EmptyString).
  intros [= <- <-]. split.
  - case_bool_decide as Hr; [done|].
    apply process_string_nonblank.
    destruct (body_text_not_blank BODY_CONTAINER_SELECTORS page EmptyString) as [?|?];
      [by left|done|done].
  - destruct nlp as [model|]; [|constructor].
    case_bool_decide; [apply NoDup_elements|constructor].
Qed.

(** X8: the body that [extract_article_details] returns is never empty (a
    page without text gives the sentinel); the people are pairwise
    different, and each of them is an entity of the body that the model
    labels as a person and that has more than one word; there is none
    without a body or without a model. *)
Theorem extract_article_details_result page (nlp : nlp_model) body people :
  extract_article_details page nlp = Ok (body, people) →
  body ≠ EmptyString
  ∧ NoDup people
  ∧ ∀ a, a ∈ people →
      body ≠ "N/A"
      ∧ ∃ model, nlp = Some model
          ∧ (a, "PER") ∈ model body
          ∧ (1 < List.length (split_ws a))%nat.
Proof.
  intros Hret. destruct (extract_article_details_shape _ _ _ _ Hret) as [Hbody Hnd].
  split_and!; [done|done|]. revert Hret.
  unfold extract_article_details. destruct (opens page); [|done].
  set (raw := body_text BODY_CONTAINER_SELECTORS page EmptyString).
  set (b := if bool_decide (raw = EmptyString) then "N/A" else process_string raw).
  intros [= <- <-]. clear Hbody Hnd.
  - intros a Ha. destruct nlp as [model|]; [|by apply elem_of_nil in Ha].
    case_bool_decide as Hb; [|by apply elem_of_nil in Ha].
    split; [done|]. exists model. split; [done|].
    apply elem_of_elements, elem_of_list_to_set, list_elem_of_fmap in Ha
      as ([a' label] & -> & He).
    apply list_elem_of_In, filter_In in He as [He Hp].
    unfold is_person in Hp. cbn [fst snd] in Hp.
    apply andb_true_iff in Hp as [Hl Hw].
    apply bool_decide_eq_true in Hl as ->. apply Nat.ltb_lt in Hw.
    split; [by apply list_elem_of_In|done].
Qed.

End ArticleDetails.

Lemma extract_article_details_result_witness :
  ∃ body people,
    extract_article_details gala_page
      (Some (λ _, [("Zendaya", "PER"); ("Tom Holland", "PER");
                   ("Tom Holland", "PER"); ("Met Gala", "MISC")]))
    = Ok (body, people)
    ∧ body ≠ EmptyString ∧ NoDup people.
Proof.
  destruct (extract_article_details_result gala_page
              (Some (λ _, [("Zendaya", "PER"); ("Tom Holland", "PER");
                           ("Tom Holland", "PER"); ("Met Gala", "MISC")]))
              "Zendaya y Tom Holland llegaron juntos." ["Tom Holland"])
    as (H1 & H2 & _); [vm_compute; reflexivity|].
  eexists _, _. split; [vm_compute; reflexivity|]. split; assumption.
Defined.

(** ** The collector: the run *)

Section CollectorRun.

Variable nlp : nlp_model.

Lemma scrape_pages_agree (site site' : nat → listing) (k : nat) (len start : nat) st :
  loads (site k) = false →
  (∀ p, (p ≤ k)%nat → site' p = site p) →
  (start ≤ k)%nat →
  scrape_pages nlp site' (seq start len) st = scrape_pages nlp site (seq start len) st.
Proof.
  intros Hk Hagree. revert start st.
  induction len as [|len IH]; intros start st Hstart; [done|].
  cbn [seq scrape_pages]. rewrite (Hagree start Hstart).
  destruct (decide (start = k)) as [->|Hne]; [by rewrite Hk|].
  destruct (loads (site start)); [|done].
  destruct (scrape_articles nlp st _) as [st'|]; [cbn [bind]|done].
  apply IH. lia.
Qed.

(** X9: the run stops at the first listing page that shows no article:
    what the site serves on later pages plays no part in the result. *)
Theorem scrape_stops_at_empty_page (site site' : nat → listing)
    (k num_pages : nat) :
  (1 ≤ k)%nat →
  loads (site k) = false →
  (∀ p, (p ≤ k)%nat → site' p = site p) →
  scrape_vogue_celebrities nlp site' num_pages
  = scrape_vogue_celebrities nlp site num_pages.
Proof.
  intros Hk Hl Hagree. unfold scrape_vogue_celebrities.
  by rewrite (scrape_pages_agree site site' k).
Qed.

Lemma scrape_article_records st article st' :
  Forall collector_record (all_articles st) →
  scrape_article nlp st article = Ok st' →
  Forall collector_record (all_articles st').
Proof.
  intros Hst. unfold scrape_article.
  destruct (hed article) as [h|]; [|by intros [= <-]].
  destruct (publish_date article) as [d|]; [|by intros [= <-]].
  destruct (anchor article) as [href|]; [|by intros [= <-]].
  case_bool_decide as Hkey; [by intros [= <-]|].
  destruct (extract_article_details _ _) as [[b people]|] eqn:E; [|done].
  cbn [bind]. intros [= <-]. cbn [all_articles].
  apply Forall_app. split; [done|]. constructor; [|constructor].
  destruct (extract_article_details_shape _ _ _ _ E) as (Hb & Hnd).
  unfold collector_record. cbn. eexists _, _, _, _, _, _. split_and!; done.
Qed.

Lemma scrape_articles_records articles st st' :
  Forall collector_record (all_articles st) →
  scrape_articles nlp st articles = Ok st' →
  Forall collector_record (all_articles st').
Proof.
  revert st. induction articles as [|a articles IH]; intros st Hst;
    cbn [scrape_articles].
  - by intros [= <-].
  - destruct (scrape_article nlp st a) as [st1|] eqn:E; [cbn [bind]|done].
    apply IH. by eapply scrape_article_records.
Qed.

Lemma scrape_pages_records site pages st st' :
  Forall collector_record (all_articles st) →
  scrape_pages nlp site pages st = Ok st' →
  Forall collector_record (all_articles st').
Proof.
  revert st. induction pages as [|page pages IH]; intros st Hst;
    cbn [scrape_pages].
  - by intros [= <-].
  - destruct (loads (site page)); [|by intros [= <-]].
    destruct (scrape_articles nlp st _) as [st1|] eqn:E; [cbn [bind]|done].
    apply IH. by eapply scrape_articles_records.
Qed.

(** X10: every record of a run has a string for its title, date text,
    body, tag and author, and a list of pairwise different people; its
    body is never empty and never missing, so that the assembler drops a
    record only for the sentinel. *)
Theorem scrape_records_shape site (num_pages : nat) (records : list record) :
  scrape_vogue_celebrities nlp site num_pages = Ok records →
  Forall collector_record records
  ∧ ∀ r, r ∈ records →
      (has_body r = true ↔ cuerpo_articulo r ≠ SStr "N/A")
      ∧ VList (list_or_empty (artistas_en_articulo r)) = artistas_en_articulo r.
Proof.
  unfold scrape_vogue_celebrities.
  destruct (scrape_pages _ _ _ _) as [st|] eqn:E; [cbn [bind]|done].
  intros [= <-].
  assert (Forall collector_record (all_articles st)) as Hall.
  { eapply scrape_pages_records; [|exact E]. constructor. }
  split; [done|]. intros r Hr.
  apply (proj1 (Forall_forall _ _) Hall) in Hr
    as (t & f & b & people & tg & au & _ & _ & Hb & _ & Ha & _).
  unfold has_body. rewrite Hb, Ha. cbn [isna list_or_empty].
  rewrite andb_true_r, negb_true_iff, bool_decide_eq_false. done.
Qed.

(** The articles before the one that fails are collected without an
    error. *)
Lemma scrape_articles_app st pre post :
  scrape_articles nlp st (pre ++ post)
  = (st' ←! scrape_articles nlp st pre; scrape_articles nlp st' post).
Proof.
  revert st. induction pre as [|a pre IH]; intros st; [done|].
  cbn [app scrape_articles].
  destruct (scrape_article nlp st a) as [st1|]; [cbn [bind]|done]. apply IH.
Qed.

(** X11: one article whose window does not open in time ends the run with
    that error, and the articles collected before it are lost with it. *)
Theorem scrape_aborts_on_timeout site (num_pages : nat) pre a post st h d href :
  (1 ≤ num_pages)%nat →
  loads (site 1%nat) = true →
  summaries (site 1%nat) = (pre ++ a :: post)%list →
  scrape_articles nlp (Collected [] ∅) pre = Ok st →
  hed a = Some h → publish_date a = Some d → anchor a = Some href →
  (process_string h, process_string d) ∉ processed_keys st →
  opens (detail a) = false →
  scrape_vogue_celebrities nlp site num_pages = Raise TimeoutException.
Proof.
  intros Hn Hl Hs Hpre Hh Hd Ha Hkey Ho. unfold scrape_vogue_celebrities.
  destruct num_pages as [|n]; [lia|]. cbn [seq scrape_pages].
  rewrite Hl, Hs, scrape_articles_app, Hpre. cbn [bind scrape_articles].
  unfold scrape_article, extract_article_details.
  rewrite Hh, Hd, Ha, bool_decide_eq_false_2, Ho by done. done.
Qed.

End CollectorRun.

Lemma scrape_stops_at_empty_page_witness :
  scrape_vogue_celebrities None
    (λ p, if (p <=? 3)%nat then sample_site p else Listing true [gala_summary]) 5
  = scrape_vogue_celebrities None sample_site 5.
Proof.
  apply (scrape_stops_at_empty_page None sample_site _ 3 5).
  - lia.
  - reflexivity.
  - intros p Hp. destruct p as [|[|[|[|p]]]]; try reflexivity. lia.
Defined.

Lemma scrape_records_shape_witness :
  ∃ records,
    scrape_vogue_celebrities None sample_site 5 = Ok records
    ∧ Forall collector_record records.
Proof.
  eexists. split; [vm_compute; reflexivity|].
  apply (scrape_records_shape None sample_site 5). vm_compute. reflexivity.
Defined.

Lemma scrape_aborts_on_timeout_witness :
  scrape_vogue_celebrities None late_site 3 = Raise TimeoutException.
Proof.
  eapply (scrape_aborts_on_timeout None late_site 3 [gala_summary] late_summary []).
  - lia.
  - reflexivity.
  - reflexivity.
  - reflexivity.
  - reflexivity.
  - reflexivity.
  - reflexivity.
  - apply (bool_decide_unpack _). vm_compute. exact I.
  - reflexivity.
Defined.

(** ** The assembler and the date normalizer: failures *)

Lemma parse_fecha_es_raises (v : pyval) e :
  parse_fecha_es v = Raise e → e = ValueError.
Proof.
  unfold parse_fecha_es. destruct v as [[| |s|]|]; try done.
  destruct (Re.match_fecha _) as [[[dia mes] año]|]; [|done].
  destruct (dict_get meses mes) as [mm|]; [|done].
  unfold to_datetime. by destruct (_ && _); intros [= <-].
Qed.

Lemma mapM_Ok_inv {A B} (f : A → result B) (l : list A) bs :
  mapM f l = Ok bs → ∀ a, In a l → is_Ok (f a).
Proof.
  revert bs. induction l as [|x l IH]; intros bs; [done|]. cbn [mapM].
  destruct (f x) as [b|] eqn:Hx; [cbn [bind]|done].
  destruct (mapM f l) as [bs'|]; [cbn [bind]|done].
  intros _ a [<-|Ha]; [by eexists|]. by eapply IH.
Qed.

Lemma mapM_raises {A B} (f : A → result B) (l : list A) e :
  mapM f l = Raise e → ∃ a, In a l ∧ f a = Raise e.
Proof.
  induction l as [|x l IH]; [done|]. cbn [mapM].
  destruct (f x) as [b|] eqn:Hx; cbn [bind].
  - destruct (mapM f l) as [bs'|]; [done|]. cbn [bind].
    intros [= <-]. destruct (IH eq_refl) as (a & Ha & Hf).
    exists a. split; [by right|done].
  - intros [= <-]. exists x. split; [by left|done].
Qed.

(** X12: the assembler returns exactly when it is given at least one
    record and the date text of every record, kept or not, is one that
    [parse_fecha_es] accepts; with no record it fails on the missing
    column, otherwise with the error of the date. *)
Theorem prepare_dataframe_returns_iff (df : list record) :
  (is_Ok (prepare_dataframe df)
   ↔ df ≠ [] ∧ ∀ r, In r df → is_Ok (parse_fecha_es (fecha r)))
  ∧ (∀ e, prepare_dataframe df = Raise e →
       (df = [] ∧ e = KeyError)
       ∨ (e = ValueError ∧ ∃ r, In r df ∧ parse_fecha_es (fecha r) = Raise ValueError)).
Proof.
  split; [split|].
  - intros [out Hout]. unfold prepare_dataframe in Hout.
    destruct df as [|r df]; [done|]. split; [done|].
    destruct (mapM parse_fecha_es (fecha <$> r :: df)) as [fechas|] eqn:E; [|done].
    intros r' Hr'. apply (mapM_Ok_inv _ _ _ E).
    apply list_elem_of_In, list_elem_of_fmap. exists r'.
    split; [done|]. by apply list_elem_of_In.
  - intros [Hne Hall]. rewrite (prepare_dataframe_returns df Hne Hall). by eexists.
  - intros e. unfold prepare_dataframe. destruct df as [|r df].
    { intros [= <-]. by left. }
    destruct (mapM parse_fecha_es (fecha <$> r :: df)) as [fechas|] eqn:E; [done|].
    cbn [bind]. intros [= <-]. right.
    destruct (mapM_raises _ _ _ E) as (v & Hv & Hf).
    pose proof (parse_fecha_es_raises _ _ Hf) as ->. split; [done|].
    apply list_elem_of_In, list_elem_of_fmap in Hv as (r' & -> & Hr').
    exists r'. split; [by apply list_elem_of_In|done].
Qed.

Lemma prepare_dataframe_returns_iff_witness :
  prepare_dataframe february_records = Raise ValueError
  ∧ is_Ok (prepare_dataframe sample_records).
Proof.
  split.
  - destruct (prepare_dataframe february_records) as [out|e] eqn:E.
    + destruct (proj1 (proj1 (prepare_dataframe_returns_iff february_records))
                  (ex_intro _ out E)) as [_ H].
      destruct (H (Row (SStr "Sin cuerpo") (VScalar (SStr "31 de febrero de 2024")) SNone
                       (SStr "N/A") (VList []) (SStr "N/A") (SStr "N/A")))
        as [d Hd]; [right; left; reflexivity|].
      vm_compute in Hd. discriminate Hd.
    + destruct (proj2 (prepare_dataframe_returns_iff february_records) e E)
        as [[H _]|[-> _]]; [discriminate H|reflexivity].
  - apply (prepare_dataframe_returns_iff sample_records). split; [discriminate|].
    intros r [<- | [<- | [<- | []]]]; vm_compute; eauto.
Defined.

(** ** The date normalizer: what follows the year *)

Section DateTail.
Import Py PyFacts.

Lemma rstrip_append_kept p s t :
  s ≠ EmptyString → from_option p false (last s) = false →
  rstrip p (s +:+ t) = s +:+ rstrip p t.
Proof.
  induction s as [|c s IH]; [done|]. intros _ Hl. rewrite !app_cons.
  cbn [rstrip]. destruct s as [|d s].
  - rewrite !app_nil_l. cbn in Hl. rewrite Hl. by destruct (rstrip p t).
  - rewrite IH by done. by rewrite app_cons.
Qed.

Lemma lower_append s t : lower (s +:+ t) = lower s +:+ lower t.
Proof. apply map_app. Qed.

(** X13: the pattern is applied at the start of the text only: whatever
    follows the four digits of the year plays no part, further digits
    included. *)
Theorem parse_fecha_es_ignores_tail dia mes mm año rest :
  (String.length dia = 1 ∨ String.length dia = 2)%nat →
  Re.all is_digit dia = true →
  dict_get meses mes = Some mm →
  String.length año = 4%nat → Re.all is_digit año = true →
  parse_fecha_es
    (VScalar (SStr (dia +:+ " de " +:+ mes +:+ " de " +:+ año +:+ rest)))
  = parse_fecha_es (VScalar (SStr (dia +:+ " de " +:+ mes +:+ " de " +:+ año))).
Proof.
  intros Hlen Hd Hmes Hl Ha.
  rewrite (parse_fecha_es_pattern dia mes mm año) by done.
  destruct (meses_keys _ _ Hmes) as [Hne Hm].
  assert (dia ≠ EmptyString) as Hdne by (destruct Hlen; by destruct dia).
  assert (año ≠ EmptyString) as Hane by (by destruct año).
  set (s := dia +:+ " de " +:+ mes +:+ " de " +:+ año).
  assert (dia +:+ " de " +:+ mes +:+ " de " +:+ año +:+ rest = s +:+ rest) as ->.
  { unfold s. by rewrite !append_assoc. }
  assert (lower s = s) as Hlow.
  { apply lower_fixed. unfold s. rewrite !all_append.
    rewrite (all_impl _ _ dia is_digit_not_upper Hd).
    rewrite (all_impl _ _ mes is_lower_not_upper Hm).
    by rewrite (all_impl _ _ año is_digit_not_upper Ha). }
  assert (from_option isspace false (last s) = false) as Hlast.
  { unfold s. rewrite !last_append by (done || by destruct mes || by destruct año).
    destruct (last año) as [c|] eqn:Hc; [|done]. cbn.
    apply is_digit_not_space. by eapply last_all. }
  assert (s ≠ EmptyString) as Hsne by (unfold s; by destruct dia).
  assert (strip (lower (s +:+ rest)) = s +:+ rstrip isspace (lower rest)) as Hstrip.
  { rewrite lower_append, Hlow. unfold strip, strip_chars.
    rewrite lstrip_id.
    - by apply rstrip_append_kept.
    - rewrite head_append by done. unfold s. rewrite head_append by done.
      destruct dia as [|d1 dia]; [done|]. cbn [head from_option].
      cbn [Re.all] in Hd. apply andb_true_iff in Hd as [Hd1 _].
      by apply is_digit_not_space. }
  unfold parse_fecha_es. rewrite Hstrip. unfold s.
  rewrite !append_assoc, match_fecha_app by done. by rewrite Hmes.
Qed.

End DateTail.

Lemma parse_fecha_es_ignores_tail_witness :
  parse_fecha_es (VScalar (SStr "15 de marzo de 20245"))
  = parse_fecha_es (VScalar (SStr "15 de marzo de 2024")).
Proof.
  apply (parse_fecha_es_ignores_tail "15" "marzo" "03" "2024" "5");
    (by right) || reflexivity.
Defined.

(** ** The sentiment enricher: what is sent and what is written *)

Section EnricherMore.
Import Py PyFacts.

Lemma take_length (n : nat) s : (String.length (Py.take n s) ≤ n)%nat.
Proof.
  revert s. induction n as [|n IH]; intros s; [done|].
  destruct s as [|c s]; cbn [Py.take String.length]; [lia|].
  specialize (IH s). lia.
Qed.

Lemma all_take q (n : nat) s : Re.all q s = true → Re.all q (Py.take n s) = true.
Proof.
  revert s. induction n as [|n IH]; intros s; [done|].
  destruct s as [|c s]; [done|]. cbn [Py.take Re.all].
  intros [-> Hs]%andb_true_iff. by rewrite IH.
Qed.

Lemma without_replace_char c d s :
  c ≠ d → without c (replace_char c d s) = true.
Proof.
  intros Hcd. unfold without, replace_char.
  induction s as [|a s IH]; [done|]. cbn [Py.map Re.all]. rewrite IH.
  destruct (decide (a = c)) as [->|Hne].
  - rewrite (bool_decide_eq_true_2 (c = c)) by done.
    by rewrite bool_decide_eq_false_2 by congruence.
  - rewrite (bool_decide_eq_false_2 (a = c)) by done.
    by rewrite bool_decide_eq_false_2 by done.
Qed.

(** X14: the text sent for an article has at most 1000 characters and no
    line end; it is the start of the body, line ends replaced by blanks. *)
Theorem request_text_bounded (item : json) (text : string) :
  request_text item = Ok text →
  (String.length text ≤ 1000)%nat
  ∧ without newline text = true
  ∧ ∃ cuerpo,
      getitem item "cuerpo_articulo" = Ok (JStr cuerpo)
      ∧ text = Py.take 1000 (replace_char newline " " cuerpo).
Proof.
  unfold request_text.
  destruct (getitem item "cuerpo_articulo") as [[| | |cuerpo| |]|]; try done.
  cbn [bind]. unfold max_chars. cbv zeta.
  set (t := replace_char newline " " cuerpo).
  assert (without newline t = true) as Ht by (by apply without_replace_char).
  assert (Py.take 1000 t = if (1000 <? String.length t)%nat then Py.take 1000 t else t)
    as Htake.
  { destruct (1000 <? String.length t)%nat eqn:E; [done|].
    apply Nat.ltb_ge in E. clear -E. revert E. generalize 1000%nat.
    induction t as [|c t IH]; intros n Hn; [by destruct n|].
    destruct n as [|n]; cbn [String.length] in Hn; [lia|].
    cbn [Py.take]. rewrite IH; [done|lia]. }
  intros Heq. rewrite <- Htake in Heq.
  assert (text = Py.take 1000 t) as -> by congruence. clear Heq. split_and!.
  - apply take_length.
  - by apply all_take.
  - by eexists.
Qed.

Lemma tally_total_tally sentiments key :
  tally_total (tally sentiments key) = S (tally_total sentiments).
Proof.
  unfold tally_total. induction sentiments as [|[k n] rest IH]; [done|].
  cbn [tally]. destruct (key_eqb k key); rewrite !fmap_cons;
    cbn [sum_list_with id snd]; [lia|]. rewrite IH. lia.
Qed.

Variable api : service.

Lemma download_loop_invariant (n : nat) data responses sentiments responses' sentiments' :
  download_loop api n data responses sentiments = Ok (responses', sentiments') →
  Forall labelled responses →
  Forall labelled responses'
  ∧ tally_total sentiments' = (tally_total sentiments + List.length data)%nat.
Proof.
  revert n responses sentiments.
  induction data as [|item data IH]; intros n responses sentiments; cbn [download_loop].
  - intros [= <- <-] H. split; [done|]. cbn. lia.
  - destruct (request_text item) as [text|]; [cbn [bind]|done].
    destruct (api n text) as [|r]; [done|cbn [bind]].
    destruct (body r) as [j|]; [cbn [bind]|done].
    destruct (status_code r =? codes_ok)%Z; [|done].
    destruct (getitem j "sentiment") as [label|] eqn:Hl; [cbn [bind]|done].
    destruct (hash_key label) as [key|] eqn:Hk; [cbn [bind]|done].
    intros Hloop Hresp.
    destruct (IH _ _ _ Hloop) as [H1 H2].
    { apply Forall_app. split; [done|]. constructor; [|constructor].
      by exists label, key. }
    split; [done|]. rewrite H2, tally_total_tally. cbn [List.length]. lia.
Qed.

(** X15: when [download_sentiment] returns its two results there is one
    response per article, every response has a label, and the counts of
    the tally add up to the number of articles. *)
Theorem download_sentiment_counts (data : list json) responses sentiments :
  download_sentiment data api = Ok (Some (responses, sentiments)) →
  List.length responses = List.length data
  ∧ Forall labelled responses
  ∧ tally_total sentiments = List.length data.
Proof.
  unfold download_sentiment.
  destruct (download_loop api 0 data [] []) as [[rs ss]|e] eqn:E;
    [|by destruct e].
  intros [= <- <-].
  pose proof (download_loop_length api _ _ _ _ _ _ E) as Hlen.
  destruct (download_loop_invariant _ _ _ _ _ _ E) as [H1 H2]; [constructor|].
  split_and!; [by rewrite Hlen|done|by rewrite H2].
Qed.

End EnricherMore.

Lemma request_text_bounded_witness :
  ∃ text,
    request_text (JObj [("cuerpo_articulo", JStr (String newline "Hola"))]) = Ok text
    ∧ (String.length text ≤ 1000)%nat ∧ without newline text = true.
Proof.
  exists " Hola".
  destruct (request_text_bounded
              (JObj [("cuerpo_articulo", JStr (String newline "Hola"))])
              " Hola") as (H1 & H2 & _); [vm_compute; reflexivity|].
  split; [vm_compute; reflexivity|]. split; [exact H1|exact H2].
Defined.

Lemma download_sentiment_counts_witness :
  ∃ responses sentiments,
    download_sentiment (one_article ++ one_article) all_positive
    = Ok (Some (responses, sentiments))
    ∧ List.length responses = 2%nat ∧ tally_total sentiments = 2%nat.
Proof.
  eexists _, _. split; [vm_compute; reflexivity|].
  destruct (download_sentiment_counts all_positive (one_article ++ one_article)
              _ _ ltac:(vm_compute; reflexivity)) as (H1 & _ & H3).
  split; [exact H1|exact H3].
Defined.

(** ** The dashboard: colours and counts *)

Section Colours.
Import Py PyFacts.

(** X16: the colour table is looked up with the label as it is: a label
    that is not exactly one of the three lower-case names, in particular
    one with an upper-case letter in it, gets the colour of "unknown";
    so does a label that is not a string; a list or an object cannot be
    looked up at all. *)
Theorem sentiment_to_color_exact (sentiment : json) :
  (∀ s, sentiment = JStr s →
        s ∉ ["positive"; "neutral"; "negative"] →
        sentiment_to_color sentiment = Ok "##4A4A4A")
  ∧ (∀ s, sentiment = JStr s →
          Re.all (λ c, negb (is_upper c)) s = false →
          sentiment_to_color sentiment = Ok "##4A4A4A")
  ∧ (sentiment = JNull ∨ (∃ b, sentiment = JBool b) ∨ (∃ q, sentiment = JNum q) →
     sentiment_to_color sentiment = Ok "##4A4A4A")
  ∧ ((∃ l, sentiment = JArr l) ∨ (∃ f, sentiment = JObj f) →
     sentiment_to_color sentiment = Raise TypeError).
Proof.
  assert (∀ s, s ∉ ["positive"; "neutral"; "negative"] →
               sentiment_to_color (JStr s) = Ok "##4A4A4A") as Hkeys.
  { intros s Hs. unfold sentiment_to_color.
    replace (dict_get SENTIMENT_COLORS "unknown") with (Some "##4A4A4A")
      by reflexivity.
    cbn [bind hash_key]. unfold SENTIMENT_COLORS. cbn [dict_get].
    rewrite (bool_decide_eq_false_2 ("positive" = s)) by (intros <-; apply Hs; repeat constructor).
    rewrite (bool_decide_eq_false_2 ("neutral" = s)) by (intros <-; apply Hs; repeat constructor).
    rewrite (bool_decide_eq_false_2 ("negative" = s)) by (intros <-; apply Hs; repeat constructor).
    by case_bool_decide. }
  split_and!.
  - intros s -> Hs. by apply Hkeys.
  - intros s -> Hs. apply Hkeys. intros Hin.
    repeat (apply elem_of_cons in Hin as [->|Hin]; [by vm_compute in Hs|]).
    by apply elem_of_nil in Hin.
  - intros [->|[[b ->]|[q ->]]]; reflexivity.
  - intros [[l ->]|[f ->]]; reflexivity.
Qed.

End Colours.

Lemma sentiment_to_color_exact_witness :
  sentiment_to_color (JStr "POSITIVE") = Ok "##4A4A4A"
  ∧ sentiment_to_color (JStr "positive") = Ok "#97C3E3".
Proof.
  split; [|reflexivity].
  destruct (sentiment_to_color_exact (JStr "POSITIVE")) as (_ & H & _).
  apply (H "POSITIVE"); reflexivity.
Defined.

(** *** Unique names and mentions *)

Section Counts.

Lemma total_mentions_length (series : list (list string)) :
  total_mentions series = List.length (List.concat series).
Proof.
  unfold total_mentions. induction series as [|sub series IH]; [done|].
  rewrite fmap_cons. cbn [sum_list_with id List.concat].
  rewrite length_app. by rewrite IH.
Qed.

Lemma size_list_to_set_le (l : list string) :
  (size (list_to_set l : gset string) ≤ List.length l)%nat
  ∧ (size (list_to_set l : gset string) = List.length l → NoDup l).
Proof.
  induction l as [|a l [IH1 IH2]]; [split; [done|constructor]|].
  rewrite list_to_set_cons. cbn [List.length].
  destruct (decide (a ∈ l)) as [Hin|Hin].
  - assert ({[a]} ∪ list_to_set l = (list_to_set l : gset string)) as ->.
    { apply subseteq_union_1_L, singleton_subseteq_l. by apply elem_of_list_to_set. }
    split; lia.
  - rewrite size_union
      by (apply disjoint_singleton_l; by rewrite elem_of_list_to_set).
    rewrite size_singleton.
    split; [lia|]. intros H. constructor; [done|]. apply IH2. lia.
Qed.

(** X17: the number of unique names of a series is at most its number of
    mentions, and equal to it exactly when no name is mentioned twice;
    mentions add up over two series, unique names at most add up. *)
Theorem unique_artists_total_mentions (series : list (list string)) :
  (unique_artists series ≤ total_mentions series)%nat
  ∧ (unique_artists series = total_mentions series ↔ NoDup (List.concat series))
  ∧ ∀ more,
      total_mentions (series ++ more) = (total_mentions series + total_mentions more)%nat
      ∧ (unique_artists (series ++ more) ≤ unique_artists series + unique_artists more)%nat
      ∧ (unique_artists series ≤ unique_artists (series ++ more))%nat.
Proof.
  unfold unique_artists. rewrite total_mentions_length.
  destruct (size_list_to_set_le (List.concat series)) as [H1 H2].
  split_and!; [done|split; [done|]|].
  - intros Hnd. by apply size_list_to_set.
  - intros more. rewrite !total_mentions_length, concat_app, length_app.
    rewrite list_to_set_app_L. split_and!; [done| |].
    + rewrite size_union_alt.
      assert (size ((list_to_set (List.concat more) : gset string)
                      ∖ list_to_set (List.concat series))
              ≤ size (list_to_set (List.concat more) : gset string))%nat as Hle.
      { apply subseteq_size. apply subseteq_difference_l. done. }
      lia.
    + apply subseteq_size, union_subseteq_l.
Qed.

End Counts.

(** *** The counter *)


Lemma dict_get_count_item counts a b :
  dict_get (count_item counts a) b
  = if decide (b = a) then Some (S (default 0%nat (dict_get counts b)))
    else dict_get counts b.
Proof.
  induction counts as [|[k n] counts IH]; cbn [count_item dict_get].
  - case_bool_decide; destruct (decide (b = a)); subst; done.
  - destruct (decide (k = a)) as [->|Hka].
    + rewrite (bool_decide_eq_true_2 (a = a)) by done. cbn [dict_get].
      case_bool_decide; destruct (decide (b = a)); subst; done.
    + rewrite (bool_decide_eq_false_2 (k = a)) by done. cbn [dict_get].
      rewrite IH. case_bool_decide; destruct (decide (b = a)); subst; done.
Qed.

Lemma keys_count_item counts a :
  fst <$> count_item counts a
  = if decide (a ∈ fst <$> counts) then fst <$> counts else ((fst <$> counts) ++ [a])%list.
Proof.
  induction counts as [|[k n] counts IH]; cbn [count_item].
  - rewrite decide_False; [done|]. apply not_elem_of_nil.
  - case_bool_decide as E.
    + subst k. rewrite !fmap_cons. cbn [fst].
      rewrite decide_True; [done|]. apply list_elem_of_here.
    + rewrite !fmap_cons, IH. cbn [fst].
      destruct (decide (a ∈ fst <$> counts)) as [Hin|Hin].
      * rewrite decide_True; [done|]. by apply list_elem_of_further.
      * rewrite decide_False; [done|].
        intros [?|?]%elem_of_cons; [by subst|done].
Qed.

Lemma counted_count_item counts a : counted (count_item counts a) = S (counted counts).
Proof.
  unfold counted. induction counts as [|[k n] counts IH]; [done|].
  cbn [count_item]. case_bool_decide; rewrite !fmap_cons;
    cbn [sum_list_with id snd]; [lia|]. rewrite IH. lia.
Qed.

Lemma occurrences_cons a b items :
  occurrences a (b :: items)
  = ((if decide (b = a) then 1 else 0) + occurrences a items)%nat.
Proof.
  unfold occurrences. destruct (decide (b = a)).
  - by rewrite filter_cons_True.
  - by rewrite filter_cons_False.
Qed.

Lemma occurrences_pos a items : (0 < occurrences a items)%nat ↔ a ∈ items.
Proof.
  unfold occurrences. split.
  - intros H. destruct (filter (λ b, b = a) items) as [|x l] eqn:E; [cbn in H; lia|].
    assert (x ∈ filter (λ b, b = a) items) as Hx by (rewrite E; apply list_elem_of_here).
    by apply list_elem_of_filter in Hx as [-> ?].
  - intros Hin.
    assert (a ∈ filter (λ b, b = a) items) as Ha by (by apply list_elem_of_filter).
    destruct (filter (λ b, b = a) items); [by apply elem_of_nil in Ha|cbn; lia].
Qed.

Lemma foldl_count_item items acc :
  NoDup (fst <$> acc) →
  let r := foldl count_item acc items in
  NoDup (fst <$> r)
  ∧ (∀ b, dict_get r b
          = match occurrences b items with
            | O => dict_get acc b
            | S n => Some (S n + default 0 (dict_get acc b))%nat
            end)
  ∧ counted r = (counted acc + List.length items)%nat
  ∧ (∀ b, b ∈ fst <$> r ↔ b ∈ fst <$> acc ∨ b ∈ items).
Proof.
  revert acc. induction items as [|a items IH]; intros acc Hacc; cbn zeta.
  - cbn [foldl]. split_and!; [done|done|cbn; lia|].
    intros b. split; [by left|]. intros [?|?%elem_of_nil]; done.
  - cbn [foldl].
    assert (NoDup (fst <$> count_item acc a)) as Hnd.
    { rewrite keys_count_item. case_decide; [done|].
      apply NoDup_app. split_and!; [done| |apply NoDup_singleton].
      intros x Hx ->%list_elem_of_singleton. done. }
    destruct (IH _ Hnd) as (H1 & H2 & H3 & H4). split_and!.
    + done.
    + intros b. rewrite H2, dict_get_count_item, occurrences_cons.
      destruct (decide (b = a)) as [->|Hne].
      * rewrite decide_True by done. destruct (occurrences a items); cbn; f_equal; lia.
      * rewrite decide_False by done. done.
    + rewrite H3, counted_count_item. cbn [List.length]. lia.
    + intros b. rewrite H4, keys_count_item. case_decide as Hin.
      * rewrite elem_of_cons. split; [intros [?|?]; auto|].
        intros [?|[->|?]]; auto.
      * rewrite elem_of_app, list_elem_of_singleton, elem_of_cons. tauto.
Qed.

(** X18: [Counter] holds each name once, with the number of times it
    occurs; over the names of a series it has as many keys as the series
    has unique names, and its counts add up to the mentions. *)
Theorem Counter_counts (series : list (list string)) :
  let counts := Counter (List.concat series) in
  NoDup (fst <$> counts)
  ∧ (∀ a, dict_get counts a
          = if decide (a ∈ List.concat series)
            then Some (occurrences a (List.concat series)) else None)
  ∧ List.length counts = unique_artists series
  ∧ counted counts = total_mentions series.
Proof.
  cbn zeta. unfold Counter.
  destruct (foldl_count_item (List.concat series) []) as (H1 & H2 & H3 & H4);
    [constructor|].
  cbn zeta in *. split_and!.
  - done.
  - intros a. rewrite H2. cbn [dict_get].
    pose proof (occurrences_pos a (List.concat series)) as Hpos.
    destruct (occurrences a (List.concat series)) as [|n] eqn:E.
    + rewrite decide_False; [done|]. intros Hin. apply Hpos in Hin. lia.
    + rewrite decide_True; [|apply Hpos; lia]. cbn. f_equal. lia.
  - unfold unique_artists.
    rewrite <- (length_fmap fst), <- (size_list_to_set (C:=gset string)) by done.
    f_equal. apply set_eq. intros b. rewrite !elem_of_list_to_set, H4.
    split; [intros [?%elem_of_nil|?]; done|by right].
  - rewrite H3, total_mentions_length. done.
Qed.
Local Open Scope Z_scope.

(** *** The most common names *)

Lemma insert_by_count_perm x l : insert_by_count x l ≡ₚ x :: l.
Proof.
  induction l as [|y l IH]; cbn [insert_by_count]; [done|].
  destruct (y.2 <=? x.2)%nat; [done|]. rewrite IH. apply Permutation_swap.
Qed.

Lemma sorted_by_count_perm l : sorted_by_count l ≡ₚ l.
Proof.
  unfold sorted_by_count. induction l as [|x l IH]; [done|].
  cbn [foldr]. rewrite insert_by_count_perm. by rewrite IH.
Qed.

Lemma insert_by_count_sorted x l :
  StronglySorted by_count l → StronglySorted by_count (insert_by_count x l).
Proof.
  induction 1 as [|y l Hl IH Hy]; cbn [insert_by_count].
  - repeat constructor.
  - destruct (Nat.leb_spec (y.2) (x.2)) as [Hle|Hlt].
    + constructor; [by constructor|]. constructor; [done|].
      eapply Forall_impl; [exact Hy|]. unfold by_count. intros z Hz. cbn beta in *. lia.
    + constructor; [done|]. rewrite insert_by_count_perm.
      constructor; [unfold by_count; lia|done].
Qed.

Lemma sorted_by_count_sorted l : StronglySorted by_count (sorted_by_count l).
Proof.
  unfold sorted_by_count. induction l as [|x l IH]; cbn [foldr]; [constructor|].
  by apply insert_by_count_sorted.
Qed.

Lemma insert_by_count_stable (c : nat) x l :
  filter (λ y : string * nat, y.2 = c) (insert_by_count x l)
  = filter (λ y : string * nat, y.2 = c) (x :: l).
Proof.
  induction l as [|y l IH]; cbn [insert_by_count]; [done|].
  destruct (Nat.leb_spec (y.2) (x.2)) as [Hle|Hlt]; [done|].
  rewrite filter_cons, IH, !filter_cons.
  repeat case_decide; try done. lia.
Qed.

Lemma sorted_by_count_stable (c : nat) l :
  filter (λ y : string * nat, y.2 = c) (sorted_by_count l)
  = filter (λ y : string * nat, y.2 = c) l.
Proof.
  unfold sorted_by_count. induction l as [|x l IH]; [done|].
  cbn [foldr]. rewrite insert_by_count_stable, !filter_cons. by rewrite IH.
Qed.

(** X19: [most_common n] gives [n] of the pairs, or all of them when there
    are fewer, by decreasing count; no pair left out has a larger count
    than one that is kept, and pairs of equal count keep the order in
    which the counter holds them. *)
Theorem most_common_order (n : nat) (counts : list (string * nat)) :
  let top := most_common n counts in
  List.length top = (n `min` List.length counts)%nat
  ∧ StronglySorted by_count top
  ∧ (∃ rest, (top ++ rest)%list ≡ₚ counts
             ∧ ∀ x y, x ∈ top → y ∈ rest → by_count x y)
  ∧ (∀ c : nat, filter (λ y : string * nat, y.2 = c) top
                `prefix_of` filter (λ y : string * nat, y.2 = c) counts).
Proof.
  cbn zeta. unfold most_common.
  pose proof (sorted_by_count_sorted counts) as Hs.
  pose proof (sorted_by_count_perm counts) as Hp.
  split_and!.
  - rewrite length_take, (Permutation_length Hp). done.
  - rewrite <- (take_drop n (sorted_by_count counts)) in Hs.
    by apply StronglySorted_app_1_l in Hs.
  - exists (drop n (sorted_by_count counts)). rewrite take_drop. split; [done|].
    intros x y Hx Hy. rewrite <- (take_drop n (sorted_by_count counts)) in Hs.
    by eapply StronglySorted_app_1_elem_of.
  - intros c. rewrite <- (sorted_by_count_stable c counts).
    rewrite <- (take_drop n (sorted_by_count counts)) at 2.
    rewrite filter_app. by eexists.
Qed.

(** *** The most mentioned names *)

Lemma elem_of_take_1 {A} (x : A) n l : x ∈ take n l → x ∈ l.
Proof. intros H. rewrite <- (take_drop n l). apply elem_of_app. by left. Qed.

Lemma dict_get_elem_of {V} (d : list (string * V)) k v :
  dict_get d k = Some v → (k, v) ∈ d.
Proof.
  induction d as [|[k' v'] d IH]; cbn [dict_get]; [done|].
  case_bool_decide as E.
  - intros [= ->]. subst. apply list_elem_of_here.
  - intros H. apply list_elem_of_further. auto.
Qed.

Lemma elem_of_dict_get {V} (d : list (string * V)) k v :
  NoDup (fst <$> d) → (k, v) ∈ d → dict_get d k = Some v.
Proof.
  induction d as [|[k' v'] d IH]; [by intros _ ?%elem_of_nil|].
  rewrite fmap_cons. cbn [fst]. intros [Hk Hd]%NoDup_cons [[= -> ->]|Hin]%elem_of_cons;
    cbn [dict_get].
  - by rewrite bool_decide_eq_true_2.
  - rewrite bool_decide_eq_false_2; [auto|]. intros ->. apply Hk.
    apply list_elem_of_fmap. by exists (k, v).
Qed.

Lemma Counter_elem_of items a m :
  (a, m) ∈ Counter items ↔ a ∈ items ∧ m = occurrences a items.
Proof.
  unfold Counter.
  destruct (foldl_count_item items []) as (H1 & H2 & _ & _); [constructor|].
  cbn zeta in *. pose proof (occurrences_pos a items) as Hpos. split.
  - intros Hin. apply (elem_of_dict_get _ _ _ H1) in Hin. rewrite H2 in Hin.
    cbn [dict_get] in Hin. destruct (occurrences a items) as [|k]; [done|].
    injection Hin as <-. split; [apply Hpos; lia|]. cbn. lia.
  - intros [Hin ->]. apply dict_get_elem_of. rewrite H2. cbn [dict_get].
    apply Hpos in Hin. destruct (occurrences a items) as [|k]; [lia|].
    cbn. f_equal. lia.
Qed.

Lemma Counter_keys_NoDup items : NoDup (fst <$> Counter items).
Proof.
  unfold Counter.
  destruct (foldl_count_item items []) as (H1 & _); [constructor|]. done.
Qed.

Lemma Counter_length column :
  List.length (Counter (List.concat column)) = unique_artists column.
Proof.
  unfold Counter, unique_artists.
  destruct (foldl_count_item (List.concat column) []) as (H1 & _ & _ & H4);
    [constructor|]. cbn zeta in *.
  rewrite <- (length_fmap fst), <- (size_list_to_set (C:=gset string)) by done.
  f_equal. apply set_eq. intros b. rewrite !elem_of_list_to_set, H4.
  split; [intros [?%elem_of_nil|?]; done|by right].
Qed.

Lemma top_artists_length n column :
  List.length (top_artists n column) = (n `min` unique_artists column)%nat.
Proof.
  unfold top_artists, most_common.
  by rewrite length_fmap, length_take, (Permutation_length (sorted_by_count_perm _)),
    Counter_length.
Qed.

Lemma top_artists_NoDup n column : NoDup (top_artists n column).
Proof.
  unfold top_artists, most_common.
  eapply (sublist_NoDup _ (fst <$> sorted_by_count (Counter (List.concat column)))).
  - rewrite sorted_by_count_perm. apply Counter_keys_NoDup.
  - apply fmap_sublist, sublist_take.
Qed.

Lemma top_artists_elem_of n column a :
  a ∈ top_artists n column →
  (a, occurrences a (List.concat column))
    ∈ take n (sorted_by_count (Counter (List.concat column))).
Proof.
  unfold top_artists, most_common.
  intros ([a' m] & -> & Hin)%list_elem_of_fmap. cbn [fst].
  assert ((a', m) ∈ Counter (List.concat column)) as Hc.
  { rewrite <- (sorted_by_count_perm (Counter _)).
    eapply elem_of_take_1, Hin. }
  apply Counter_elem_of in Hc as [_ ->]. done.
Qed.

(** X20: the top names are distinct names of the column, [n] of them or
    all the names when there are fewer, and no name left out is mentioned
    more often than one of them. *)
Theorem top_artists_most_mentioned (n : nat) (column : list (list string)) :
  let top := top_artists n column in
  NoDup top
  ∧ List.length top = (n `min` unique_artists column)%nat
  ∧ (∀ a, a ∈ top → a ∈ List.concat column)
  ∧ (∀ a b, a ∈ top → b ∈ List.concat column → b ∉ top →
       (occurrences b (List.concat column) ≤ occurrences a (List.concat column))%nat).
Proof.
  cbn zeta. split_and!.
  - apply top_artists_NoDup.
  - apply top_artists_length.
  - intros a Ha%top_artists_elem_of.
    apply elem_of_take_1 in Ha. rewrite sorted_by_count_perm in Ha.
    by apply Counter_elem_of in Ha as [? _].
  - intros a b Ha%top_artists_elem_of Hb Hnot.
    set (items := List.concat column) in *.
    assert ((b, occurrences b items) ∈ sorted_by_count (Counter items)) as Hin.
    { rewrite sorted_by_count_perm. by apply Counter_elem_of. }
    rewrite <- (take_drop n (sorted_by_count (Counter items))) in Hin.
    apply elem_of_app in Hin as [Hin|Hin].
    + exfalso. apply Hnot. unfold top_artists, most_common.
      apply list_elem_of_fmap. by eexists (_, _).
    + pose proof (sorted_by_count_sorted (Counter items)) as Hs.
      rewrite <- (take_drop n (sorted_by_count (Counter items))) in Hs.
      apply (StronglySorted_app_1_elem_of _ _ _ _ _ Hs Ha Hin).
Qed.

Section TrendsOfTop.

Variable pytrends : payload → result trends.
Variable mock_trends : list string → Z → Z → trends.

(** X21: the search interest of the overview, for an execution of the
    body of [get_trends] on the top five names.  No request is made when
    no article of the selection names anyone or the range is shorter than
    a week; at most one request is made; and a request carries all the
    top names: the cut to five keywords drops nothing, and the keywords
    are distinct names of the column. *)
Theorem trends_of_top_artists (column : list (list string)) (start end_ : Z) :
  let top := top_artists 5 column in
  let run := get_trends pytrends mock_trends top start end_ in
  (List.concat column = [] ∨ days (end_ - start) < MIN_TRENDS_DAYS →
     queried run = [] ∧ returned run = Ok empty_trends ∧ shown run = [])
  ∧ (List.length (queried run) ≤ 1)%nat
  ∧ (∀ q, q ∈ queried run →
       kw_list q = top ∧ NoDup (kw_list q)
       ∧ List.length (kw_list q) = (5 `min` unique_artists column)%nat
       ∧ timeframe q = (start, end_)
       ∧ ∀ a, a ∈ kw_list q → a ∈ List.concat column).
Proof.
  cbn zeta.
  assert (List.concat column = [] → top_artists 5 column = []) as Hnil.
  { intros H. apply length_zero_iff_nil. rewrite top_artists_length.
    unfold unique_artists. rewrite H. done. }
  assert (take 5 (top_artists 5 column) = top_artists 5 column) as Htake.
  { apply take_ge. rewrite top_artists_length. lia. }
  unfold get_trends. rewrite Htake.
  destruct (bool_decide (top_artists 5 column = [])) eqn:Ek.
  { cbn [orb queried returned shown List.length]. split_and!; [done|lia|].
    by intros q ?%elem_of_nil. }
  apply bool_decide_eq_false_1 in Ek. cbn [orb].
  destruct (Z.ltb_spec (days (end_ - start)) MIN_TRENDS_DAYS) as [Hlt|Hge].
  { cbn [queried returned shown List.length]. split_and!; [done|lia|].
    by intros q ?%elem_of_nil. }
  unfold MOCK_TRENDS.
  set (request := Payload "es-ES" 360 (top_artists 5 column) (start, end_) "ES").
  assert (∀ q, q ∈ [request] →
            kw_list q = top_artists 5 column ∧ NoDup (kw_list q)
            ∧ List.length (kw_list q) = (5 `min` unique_artists column)%nat
            ∧ timeframe q = (start, end_)
            ∧ ∀ a, a ∈ kw_list q → a ∈ List.concat column) as Hq.
  { intros q ->%list_elem_of_singleton. cbn [kw_list timeframe request].
    split_and!; [done|apply top_artists_NoDup|apply top_artists_length|done|].
    intros a Ha%top_artists_elem_of.
    apply elem_of_take_1 in Ha. rewrite sorted_by_count_perm in Ha.
    by apply Counter_elem_of in Ha as [? _]. }
  destruct (pytrends request); cbn [queried returned shown List.length];
    (split_and!; [|lia|exact Hq]); intros [H%Hnil|H]; done || lia.
Qed.

End TrendsOfTop.
Local Open Scope Z_scope.

Lemma most_common_order_witness :
  most_common 2 (Counter (List.concat sample_column))
  = [("Zendaya", 2%nat); ("Tom Holland", 1%nat)]
  ∧ by_count ("Zendaya", 2%nat) ("Tom Holland", 1%nat).
Proof.
  split; [reflexivity|].
  destruct (most_common_order 2 (Counter (List.concat sample_column)))
    as (_ & Hs2 & _ & _).
  vm_compute most_common in Hs2.
  apply StronglySorted_cons in Hs2 as [Hf _].
  apply Forall_cons in Hf as [H _]. exact H.
Defined.

Lemma top_artists_most_mentioned_witness :
  top_artists 1 sample_column = ["Zendaya"]
  ∧ (occurrences "Rosalia" (List.concat sample_column)
     ≤ occurrences "Zendaya" (List.concat sample_column))%nat.
Proof.
  split; [reflexivity|].
  destruct (top_artists_most_mentioned 1 sample_column) as (_ & _ & _ & H).
  apply (H "Zendaya" "Rosalia");
    apply (bool_decide_unpack _); vm_compute; exact I.
Defined.

Lemma trends_of_top_artists_witness :
  let pytrends := λ _ : payload, Raise ConnectionError in
  let run := get_trends pytrends (λ _ _ _, empty_trends)
               (top_artists 5 sample_column) 0 (8 * ns_per_day) in
  kw_list <$> queried run = [["Zendaya"; "Tom Holland"; "Rosalia"]].
Proof.
  cbn zeta.
  destruct (trends_of_top_artists (λ _, Raise ConnectionError) (λ _ _ _, empty_trends)
              sample_column 0 (8 * ns_per_day)) as (_ & _ & H).
  cbn zeta in H.
  destruct (H (Payload "es-ES" 360 ["Zendaya"; "Tom Holland"; "Rosalia"]
                 (0, 8 * ns_per_day) "ES")) as (Hq & _).
  - vm_compute. apply list_elem_of_here.
  - change (kw_list <$> [Payload "es-ES" 360 ["Zendaya"; "Tom Holland"; "Rosalia"]
                           (0, 8 * ns_per_day) "ES"]
            = [["Zendaya"; "Tom Holland"; "Rosalia"]]).
    reflexivity.
Defined.

(** *** The rows of the box plot *)

Lemma occurrences_app a l1 l2 :
  occurrences a (l1 ++ l2)%list = (occurrences a l1 + occurrences a l2)%nat.
Proof. unfold occurrences. by rewrite filter_app, length_app. Qed.

Lemma existsb_filter_nil {A} (p : A → bool) l :
  existsb p l = false → List.filter p l = [].
Proof.
  induction l as [|x l IH]; [done|]. cbn [existsb List.filter].
  destruct (p x); [done|]. exact IH.
Qed.

Lemma filter_isin_names {R} (r : R) top names :
  List.filter (λ row : R * option string, isin top row.2)
              ((λ a, (r, Some a)) <$> names)
  = (λ a, (r, Some a)) <$> List.filter (λ a, bool_decide (a ∈ top)) names.
Proof.
  induction names as [|a names IH]; [done|].
  rewrite fmap_cons. cbn [List.filter isin snd].
  destruct (bool_decide (a ∈ top)); rewrite IH; done.
Qed.

Lemma box_plot_rows_eq {R} (artists : R → list string) top df :
  box_plot_rows artists top df
  = df ≫= (λ r, (λ a, (r, Some a))
                  <$> List.filter (λ a, bool_decide (a ∈ top)) (artists r)).
Proof.
  unfold box_plot_rows, explode. induction df as [|r df IH]; [done|].
  cbn [List.filter]. rewrite bind_cons.
  destruct (existsb (λ a, bool_decide (a ∈ top)) (artists r)) eqn:E.
  - rewrite bind_cons, List.filter_app, IH. f_equal.
    destruct (artists r) as [|a names] eqn:Ea; [done|].
    apply filter_isin_names.
  - rewrite IH, (existsb_filter_nil _ _ E). done.
Qed.

Lemma rows_of_name {R} (r : R) (top names : list string) (a : string) :
  List.length (List.filter (λ row : R * option string, bool_decide (row.2 = Some a))
                 ((λ b, (r, Some b))
                    <$> List.filter (λ b, bool_decide (b ∈ top)) names))
  = if decide (a ∈ top) then occurrences a names else 0%nat.
Proof.
  induction names as [|b names IH]; [by case_decide|].
  rewrite occurrences_cons. cbn [List.filter].
  destruct (decide (b ∈ top)) as [Hb|Hb].
  - rewrite (bool_decide_eq_true_2 _ Hb), fmap_cons. cbn [List.filter snd].
    destruct (decide (b = a)) as [->|Hne].
    + rewrite bool_decide_eq_true_2 by done. cbn [List.length]. rewrite IH.
      destruct (decide (a ∈ top)); [done|contradiction].
    + rewrite bool_decide_eq_false_2 by congruence. rewrite IH.
      by case_decide.
  - rewrite (bool_decide_eq_false_2 _ Hb), IH.
    destruct (decide (a ∈ top)) as [Ha|Ha]; [|done].
    rewrite decide_False; [done|]. by intros ->.
Qed.

(** X22: the rows of the box plot are the mentions of the top names, one
    row per mention, in the order of the articles: the filter on the
    articles before the explosion changes nothing, no row has a missing
    name, and a top name has as many rows as it has mentions. *)
Theorem box_plot_rows_mentions {R} (artists : R → list string)
    (top : list string) (df : list R) :
  box_plot_rows artists top df
  = df ≫= (λ r, (λ a, (r, Some a))
                  <$> List.filter (λ a, bool_decide (a ∈ top)) (artists r))
  ∧ List.filter (λ row, isin top row.2) (explode artists df)
    = box_plot_rows artists top df
  ∧ ∀ a, List.length (List.filter (λ row, bool_decide (row.2 = Some a))
                        (box_plot_rows artists top df))
         = if decide (a ∈ top)
           then occurrences a (List.concat (artists <$> df)) else 0%nat.
Proof.
  split_and!.
  - apply box_plot_rows_eq.
  - rewrite box_plot_rows_eq. unfold explode.
    induction df as [|r df IH]; [done|].
    rewrite !bind_cons, List.filter_app, IH. f_equal.
    destruct (artists r) as [|a names] eqn:Ea; [done|].
    apply filter_isin_names.
  - intros a. rewrite box_plot_rows_eq.
    induction df as [|r df IH]; [by case_decide|].
    rewrite bind_cons, List.filter_app, length_app, IH. cbn beta.
    rewrite rows_of_name.
    rewrite fmap_cons. cbn [List.concat]. rewrite occurrences_app.
    by case_decide.
Qed.

(** *** The search box *)

Import Py PyFacts.





Lemma sublist_List_filter {A} (p : A → bool) l : List.filter p l `sublist_of` l.
Proof.
  induction l as [|x l IH]; [constructor|]. cbn [List.filter].
  destruct (p x); by constructor.
Qed.


Local Open Scope Z_scope.

(** ** Loading the data: files of different lengths *)

Lemma lookup_fillna_beyond value (col : list (option json)) (n i : nat) :
  (List.length col ≤ i)%nat → (i < n)%nat →
  fillna value (resize n None col) !! i = Some (Some value).
Proof.
  intros Hge Hlt. unfold fillna. rewrite list_lookup_fmap.
  rewrite lookup_resize_new by done. done.
Qed.

Section LoadDataLengths.

Variable np_empty_truth : result bool.
Variable literal_eval : string → result pyval.
Variable to_datetime_coerce : list scalar → list (option date).
Variable copy_on_write : bool.

(** X24: [load_data] returns exactly when some entry of the sentiment
    file has a label and some entry has a score or a confidence, and fails
    with a [KeyError] otherwise, an empty sentiment file included.  The
    frame has as many rows as the longer of the two files.  Without
    copy-on-write a row of the CSV beyond the last entry gets the label
    "unknown", and the confidence 0.0 unless the file has both a score
    and a confidence: then the frame has two columns called confidence
    and nothing is filled in.  Under copy-on-write nothing is filled in at
    all.  An entry beyond the last row of the CSV gives a row with no
    article. *)
Theorem load_data_lengths (csv : list (row scalar scalar)) (entries : list entry) :
  let loaded :=
    load_data np_empty_truth literal_eval to_datetime_coerce copy_on_write csv entries in
  let n := (List.length csv `max` List.length entries)%nat in
  let both := some_has "score" entries ∧ some_has "confidence" entries in
  (is_Ok loaded ↔
   some_has "sentiment" entries
   ∧ (some_has "score" entries ∨ some_has "confidence" entries))
  ∧ (¬ is_Ok loaded → loaded = Raise KeyError)
  ∧ ∀ df, loaded = Ok df →
      List.length (articles df) = n
      ∧ (∃ labels, sentiment df = [labels] ∧ List.length labels = n
           ∧ ∀ i : nat, (List.length entries ≤ i < List.length csv)%nat →
               labels !! i
               = Some (if copy_on_write then None else Some (JStr "unknown")))
      ∧ Forall (λ col, List.length col = n) (confidence df)
      ∧ (both →
         List.length (confidence df) = 2%nat
         ∧ ∀ col (i : nat), col ∈ confidence df →
             (List.length entries ≤ i < List.length csv)%nat → col !! i = Some None)
      ∧ (¬ both →
         ∃ scores, confidence df = [scores]
           ∧ ∀ i : nat, (List.length entries ≤ i < List.length csv)%nat →
               scores !! i = Some (if copy_on_write then None else Some (JNum 0)))
      ∧ (∀ i : nat, (List.length csv ≤ i < List.length entries)%nat →
           articles df !! i = Some None).
Proof.
  cbn zeta. unfold load_data.
  destruct (mapM_returns
              (λ x, parse_artists np_empty_truth literal_eval (VScalar x))
              (artistas_en_articulo <$> csv)
              (parse_artists_scalar_total np_empty_truth literal_eval))
    as [artistas ->].
  cbn [bind].
  destruct (some_has_dec "sentiment" entries) as [Hs|Hs].
  2:{ rewrite (column_raises entries "sentiment").
      2:{ intros key ->%rename_sentiment. done. }
      cbn [bind]. split_and!.
      - split; [by intros [? ?]|]. by intros [? _].
      - done.
      - done. }
  rewrite (column_sentiment _ Hs). cbn [bind].
  set (n := (List.length csv `max` List.length entries)%nat).
  assert (∀ (col : list (option json)) (i : nat),
            List.length col = List.length entries →
            (List.length entries ≤ i < List.length csv)%nat →
            resize n None col !! i = Some None) as Hbeyond.
  { intros col i Hcol [Hge Hlt]. apply lookup_resize_new; unfold n; lia. }
  assert (∀ value (col : list (option json)) (i : nat),
            List.length col = List.length entries →
            (List.length entries ≤ i < List.length csv)%nat →
            fillna value (resize n None col) !! i = Some (Some value)) as Hfilled.
  { intros value col i Hcol [Hge Hlt]. apply lookup_fillna_beyond; unfold n; lia. }
  assert (∀ key, List.length ((λ e : entry, cell e key) <$> entries) = List.length entries)
    as Hcells by (intros; apply length_fmap).
  assert (∀ (rows : list (option (row (option date) (list string)))) (i : nat),
            List.length rows = List.length csv →
            (List.length csv ≤ i < List.length entries)%nat →
            resize n None rows !! i = Some None) as Hrows.
  { intros rows i Hlen [Hge Hlt]. apply lookup_resize_new; unfold n; lia. }
  assert (∀ value (col : list (option json)),
            List.length (resize n None col) = n
            ∧ List.length (fillna value (resize n None col)) = n) as Hlen.
  { intros value col. unfold fillna. by rewrite length_fmap, length_resize. }
  destruct (column_confidence entries)
    as [(Hc & Ho & Hr)|[(Hc & Ho & ->)|[(Hc & Ho & ->)|(Hc & Ho & ->)]]].
  - assert (∃ c1 c2, column entries "confidence" = Ok [c1; c2]
                     ∧ List.length c1 = List.length entries
                     ∧ List.length c2 = List.length entries) as (c1 & c2 & -> & H1 & H2).
    { destruct Hr as [-> | ->]; eexists _, _; split_and!; try reflexivity; apply Hcells. }
    cbn [bind]. rewrite length_imap. fold n. split_and!.
    + split; [intros _; split; [done|by left]|intros _; by eexists].
    + intros H. exfalso. apply H. by eexists.
    + intros df [= <-]. cbn [articles sentiment confidence]. split_and!.
      * by rewrite length_resize.
      * destruct copy_on_write; eexists; (split_and!; [reflexivity|apply (Hlen (JStr "unknown"))|]);
          intros i Hi; [apply Hbeyond|apply Hfilled]; done.
      * repeat constructor; apply (Hlen JNull).
      * intros _. split; [reflexivity|].
        intros col i [->|[->|[]%elem_of_nil]%elem_of_cons]%elem_of_cons Hi;
          by apply Hbeyond.
      * intros Hnot. exfalso. by apply Hnot.
      * intros i Hi. apply Hrows; [|done]. by rewrite length_fmap, length_imap.
  - cbn [bind]. rewrite length_imap. fold n. split_and!.
    + split; [intros _; split; [done|by left]|intros _; by eexists].
    + intros H. exfalso. apply H. by eexists.
    + intros df [= <-]. cbn [articles sentiment confidence]. split_and!.
      * by rewrite length_resize.
      * destruct copy_on_write; eexists; (split_and!; [reflexivity|apply (Hlen (JStr "unknown"))|]);
          intros i Hi; [apply Hbeyond|apply Hfilled]; done.
      * destruct copy_on_write; repeat constructor; apply (Hlen (JNum 0)).
      * by intros [_ ?].
      * intros _. destruct copy_on_write; eexists; (split; [reflexivity|]);
          intros i Hi; [apply Hbeyond|apply Hfilled]; done.
      * intros i Hi. apply Hrows; [|done]. by rewrite length_fmap, length_imap.
  - cbn [bind]. rewrite length_imap. fold n. split_and!.
    + split; [intros _; split; [done|by right]|intros _; by eexists].
    + intros H. exfalso. apply H. by eexists.
    + intros df [= <-]. cbn [articles sentiment confidence]. split_and!.
      * by rewrite length_resize.
      * destruct copy_on_write; eexists; (split_and!; [reflexivity|apply (Hlen (JStr "unknown"))|]);
          intros i Hi; [apply Hbeyond|apply Hfilled]; done.
      * destruct copy_on_write; repeat constructor; apply (Hlen (JNum 0)).
      * by intros [? _].
      * intros _. destruct copy_on_write; eexists; (split; [reflexivity|]);
          intros i Hi; [apply Hbeyond|apply Hfilled]; done.
      * intros i Hi. apply Hrows; [|done]. by rewrite length_fmap, length_imap.
  - cbn [bind]. split_and!.
    + split; [by intros [? ?]|]. by intros [_ [?|?]].
    + done.
    + done.
Qed.

End LoadDataLengths.

Lemma load_data_lengths_witness :
  load_data (Ok false) no_literal no_dates false sample_csv [] = Raise KeyError
  ∧ ∃ df,
      load_data (Ok false) no_literal no_dates false sample_csv (firstn 1 sample_entries)
      = Ok df
      ∧ sentiment df = [[Some (JStr "POSITIVE"); Some (JStr "unknown")]]
      ∧ confidence df = [[Some (JNum 1); Some (JNum 0)]].
Proof.
  split.
  - destruct (load_data_lengths (Ok false) no_literal no_dates false sample_csv [])
      as (Hiff & Hraise & _).
    apply Hraise. intros [Hs _]%Hiff. destruct Hs as (e & He & _).
    by apply elem_of_nil in He.
  - destruct (load_data_lengths (Ok false) no_literal no_dates false sample_csv
                (firstn 1 sample_entries)) as (Hiff & _ & Hdf).
    destruct (proj2 Hiff) as [df Hload].
    { split; [|left]; eexists; (split; [apply list_elem_of_here|]); vm_compute; eauto. }
    exists df. split; [exact Hload|].
    vm_compute in Hload. injection Hload as <-. split; reflexivity.
Defined.
Local Open Scope Z_scope.

(** ** trends_vogue_app.py: the rows on display *)

Lemma date_le_spec a b :
  date_le a b = true ↔
  year a < year b
  ∨ (year a = year b
     ∧ (month a < month b ∨ (month a = month b ∧ day a ≤ day b))).
Proof.
  unfold date_le.
  rewrite orb_true_iff, andb_true_iff, orb_true_iff, andb_true_iff.
  rewrite !Z.ltb_lt, !Z.eqb_eq, Z.leb_le. done.
Qed.

Lemma date_le_refl a : date_le a a = true.
Proof. apply date_le_spec. lia. Qed.

Lemma date_le_trans a b c :
  date_le a b = true → date_le b c = true → date_le a c = true.
Proof. rewrite !date_le_spec. lia. Qed.

Lemma date_le_total a b : date_le a b = false → date_le b a = true.
Proof.
  intros H. apply not_true_iff_false in H. rewrite date_le_spec in H.
  apply date_le_spec. lia.
Qed.

Lemma extreme_elem_of pick column x :
  (∀ d m, pick d m = d ∨ pick d m = m) →
  extreme pick column = Some x → Some x ∈ column.
Proof.
  intros Hpick. revert x. unfold extreme.
  induction column as [|[e|] column IH]; intros x; cbn [foldr]; [done| |].
  - destruct (foldr _ None column) as [m|].
    + intros [= <-]. destruct (Hpick e m) as [->| ->].
      * apply list_elem_of_here.
      * apply list_elem_of_further. by apply IH.
    + intros [= <-]. apply list_elem_of_here.
  - intros H. apply list_elem_of_further. by apply IH.
Qed.

Lemma extreme_is_Some pick column d :
  Some d ∈ column → is_Some (extreme pick column).
Proof.
  unfold extreme. induction column as [|[e|] column IH]; cbn [foldr].
  - by intros ?%elem_of_nil.
  - intros _. by destruct (foldr _ None column).
  - intros [[=]|H]%elem_of_cons. by apply IH.
Qed.

Lemma fecha_min_le column lo d :
  fecha_min column = Some lo → Some d ∈ column → date_le lo d = true.
Proof.
  unfold fecha_min, extreme. revert lo.
  induction column as [|[e|] column IH]; intros lo; cbn [foldr].
  - by intros _ ?%elem_of_nil.
  - destruct (foldr _ None column) as [m|] eqn:Em.
    + intros [= <-] [[= <-]|Hin]%elem_of_cons; unfold earlier.
      * destruct (date_le d m) eqn:E; [apply date_le_refl|by apply date_le_total].
      * specialize (IH _ eq_refl Hin).
        destruct (date_le e m) eqn:E; [by eapply date_le_trans|done].
    + intros [= <-] [[= <-]|Hin]%elem_of_cons; [apply date_le_refl|].
      destruct (extreme_is_Some earlier column d Hin) as [m Hm].
      unfold extreme in Hm. congruence.
  - intros Hlo [[=]|Hin]%elem_of_cons. by apply IH.
Qed.

Lemma fecha_max_ge column hi d :
  fecha_max column = Some hi → Some d ∈ column → date_le d hi = true.
Proof.
  unfold fecha_max, extreme. revert hi.
  induction column as [|[e|] column IH]; intros hi; cbn [foldr].
  - by intros _ ?%elem_of_nil.
  - destruct (foldr _ None column) as [m|] eqn:Em.
    + intros [= <-] [[= <-]|Hin]%elem_of_cons; unfold later.
      * destruct (date_le d m) eqn:E; [done|apply date_le_refl].
      * specialize (IH _ eq_refl Hin).
        destruct (date_le e m) eqn:E; [done|].
        eapply date_le_trans; [exact IH|by apply date_le_total].
    + intros [= <-] [[= <-]|Hin]%elem_of_cons; [apply date_le_refl|].
      destruct (extreme_is_Some later column d Hin) as [m Hm].
      unfold extreme in Hm. congruence.
  - intros Hhi [[=]|Hin]%elem_of_cons. by apply IH.
Qed.

Lemma List_filter_all {A} (p : A → bool) l :
  (∀ x, x ∈ l → p x = true) → List.filter p l = l.
Proof.
  induction l as [|x l IH]; [done|]. intros H. cbn [List.filter].
  rewrite (H x) by apply list_elem_of_here. f_equal. apply IH.
  intros y Hy. apply H. by apply list_elem_of_further.
Qed.

Lemma elem_of_since {R} (fecha_of : R → option date) first df r :
  r ∈ since fecha_of first df ↔
  r ∈ df ∧ ∃ d, fecha_of r = Some d ∧ date_le first d = true.
Proof.
  unfold since. rewrite elem_of_List_filter. split.
  - intros [Hin H]. split; [done|]. destruct (fecha_of r) as [d|]; [|done]. by exists d.
  - intros [Hin (d & -> & H)]. done.
Qed.

(** X25: the rows on display: the removal of the rows without a date,
    after the comparison with 1 January 2025, removes nothing; the frame
    holds the rows dated from that day on; and unless it is empty, the
    slider has bounds, the range that it starts with keeps every row, and
    a range that ends before it starts keeps none. *)
Theorem initial_rows_selection {R} (fecha_of : R → option date) (loaded : list R) :
  let df := initial_rows fecha_of loaded in
  df = since fecha_of (Date 2025 1 1) loaded
  ∧ (∀ r, r ∈ df ↔
          r ∈ loaded ∧ ∃ d, fecha_of r = Some d ∧ date_le (Date 2025 1 1) d = true)
  ∧ (df ≠ [] →
     ∃ lo hi, fecha_min (fecha_of <$> df) = Some lo
              ∧ fecha_max (fecha_of <$> df) = Some hi
              ∧ date_le (Date 2025 1 1) lo = true
              ∧ date_le lo hi = true
              ∧ between fecha_of lo hi df = df)
  ∧ (∀ start_date end_date,
       between fecha_of start_date end_date df `sublist_of` df
       ∧ (date_le start_date end_date = false →
          between fecha_of start_date end_date df = [])).
Proof.
  cbn zeta.
  assert (initial_rows fecha_of loaded = since fecha_of (Date 2025 1 1) loaded) as Heq.
  { unfold initial_rows, dropna. apply List_filter_all.
    intros r (_ & d & -> & _)%elem_of_since. apply bool_decide_eq_true. by eexists. }
  rewrite Heq. split_and!.
  - done.
  - intros r. apply elem_of_since.
  - intros Hne. set (df := since fecha_of (Date 2025 1 1) loaded) in *.
    destruct df as [|r0 df'] eqn:Edf; [done|].
    assert (r0 ∈ df) as Hr0 by (rewrite Edf; apply list_elem_of_here).
    rewrite <- Edf.
    assert (∀ r, r ∈ df → ∃ d, fecha_of r = Some d ∧ date_le (Date 2025 1 1) d = true)
      as Hall.
    { intros r Hr. unfold df in Hr. by apply elem_of_since in Hr as [_ ?]. }
    destruct (Hall r0 Hr0) as (d0 & Hd0 & _).
    assert (Some d0 ∈ fecha_of <$> df) as Hin0.
    { rewrite <- Hd0. apply list_elem_of_fmap. by exists r0. }
    destruct (extreme_is_Some earlier _ _ Hin0) as [lo Hlo].
    destruct (extreme_is_Some later _ _ Hin0) as [hi Hhi].
    exists lo, hi. split_and!; [done|done| | |].
    + apply (extreme_elem_of earlier) in Hlo.
      * apply list_elem_of_fmap in Hlo as (r & Hr & Hin).
        destruct (Hall r Hin) as (d & Hd & Hle). congruence.
      * intros d m. unfold earlier. destruct (date_le d m); auto.
    + eapply date_le_trans.
      * by apply (fecha_min_le _ _ d0 Hlo).
      * by apply (fecha_max_ge _ _ d0 Hhi).
    + apply List_filter_all. intros r Hr.
      destruct (Hall r Hr) as (d & Hd & _). rewrite Hd.
      assert (Some d ∈ fecha_of <$> df) as Hin.
      { rewrite <- Hd. apply list_elem_of_fmap. by exists r. }
      by rewrite (fecha_min_le _ _ d Hlo), (fecha_max_ge _ _ d Hhi).
  - intros start_date end_date. split; [apply sublist_List_filter|].
    intros Hlt. unfold between. clear Heq.
    induction (since fecha_of (Date 2025 1 1) loaded) as [|r df IH]; [done|].
    cbn [List.filter]. destruct (fecha_of r) as [d|]; [|exact IH].
    destruct (date_le start_date d) eqn:E1; [|exact IH].
    destruct (date_le d end_date) eqn:E2; [|exact IH].
    rewrite (date_le_trans _ _ _ E1 E2) in Hlt. done.
Qed.

Lemma initial_rows_selection_witness :
  initial_rows id sample_fechas = [Some (Date 2025 3 15); Some (Date 2025 1 1)]
  ∧ ∃ lo hi, fecha_min (initial_rows id sample_fechas) = Some lo
             ∧ fecha_max (initial_rows id sample_fechas) = Some hi
             ∧ between id lo hi (initial_rows id sample_fechas)
               = initial_rows id sample_fechas.
Proof.
  split; [reflexivity|].
  destruct (initial_rows_selection id sample_fechas) as (_ & _ & H & _).
  destruct H as (lo & hi & Hlo & Hhi & _ & _ & Hb); [discriminate|].
  rewrite list_fmap_id in Hlo, Hhi. exists lo, hi. done.
Defined.
Local Open Scope Z_scope.

(** ** trends_vogue_app.py: the celebrity view *)

Lemma insert_name_perm a l : insert_name a l ≡ₚ a :: l.
Proof.
  induction l as [|b l IH]; cbn [insert_name]; [done|].
  destruct (String.leb a b); [done|]. rewrite IH. apply Permutation_swap.
Qed.

Lemma sorted_names_perm l : sorted_names l ≡ₚ l.
Proof.
  unfold sorted_names. induction l as [|a l IH]; [done|].
  cbn [foldr]. by rewrite insert_name_perm, IH.
Qed.

Lemma insert_name_sorted a l :
  Sorted name_le l → Sorted name_le (insert_name a l).
Proof.
  induction 1 as [|b l Hl IH Hb]; cbn [insert_name].
  - repeat constructor.
  - destruct (String.leb a b) eqn:E.
    + constructor; [by constructor|]. by constructor.
    + constructor; [done|].
      assert (name_le b a) as Hba.
      { destruct (String.leb_total a b) as [H|H]; [congruence|done]. }
      destruct l as [|c l]; cbn [insert_name]; [by constructor|].
      destruct (String.leb a c); constructor; [done|].
      by apply HdRel_inv in Hb.
Qed.

Lemma sorted_names_sorted l : Sorted name_le (sorted_names l).
Proof.
  unfold sorted_names. induction l as [|a l IH]; cbn [foldr]; [constructor|].
  by apply insert_name_sorted.
Qed.

Lemma elem_of_all_artists column a :
  a ∈ all_artists column ↔ a ∈ List.concat column.
Proof.
  unfold all_artists. by rewrite sorted_names_perm, elem_of_remove_dups.
Qed.

Lemma elem_of_concat_fmap {R} (artists : R → list string) df a :
  a ∈ List.concat (artists <$> df) ↔ ∃ r, r ∈ df ∧ a ∈ artists r.
Proof.
  induction df as [|r df IH].
  - split; [by intros ?%elem_of_nil|]. by intros (r & ?%elem_of_nil & _).
  - rewrite fmap_cons. cbn [List.concat]. rewrite elem_of_app, IH. split.
    + intros [H|(r' & Hr & H)].
      * exists r. split; [apply list_elem_of_here|done].
      * exists r'. split; [by apply list_elem_of_further|done].
    + intros (r' & [->|Hr]%elem_of_cons & H); [by left|].
      right. by exists r'.
Qed.

Lemma artist_df_None {R} (artists : R → list string) df :
  artist_df artists None df = [].
Proof. unfold artist_df. induction df as [|r df IH]; [done|]. exact IH. Qed.

Section CelebrityView.

Variable selectbox : list string → option string.

(** A select box answers with one of its options. *)
Hypothesis selectbox_option : ∀ options a, selectbox options = Some a → a ∈ options.

(** X26: the celebrity view.  The list of names is sorted, without
    repeats, and holds the names of the articles.  The choice ends the
    run exactly on a search that is not empty and is part of no name.  A
    celebrity that is chosen is named by an article and, after a search,
    holds the search, letter case apart; the articles shown are those that
    name the celebrity, and there is at least one: the warning about a
    celebrity without articles shows only when no name could be chosen. *)
Theorem celebrity_view {R} (artists : R → list string) (search : string) (df : list R) :
  let column := artists <$> df in
  let choice := selected_artist selectbox search column in
  Sorted name_le (all_artists column)
  ∧ NoDup (all_artists column)
  ∧ (∀ a, a ∈ all_artists column ↔ ∃ r, r ∈ df ∧ a ∈ artists r)
  ∧ (choice = None ↔
     search ≠ EmptyString
     ∧ ∀ a, a ∈ all_artists column → Py.contains (Py.lower search) (Py.lower a) = false)
  ∧ (∀ a, choice = Some (Some a) →
       (search ≠ EmptyString → Py.contains (Py.lower search) (Py.lower a) = true)
       ∧ artist_df artists (Some a) df ≠ []
       ∧ ∀ r, r ∈ artist_df artists (Some a) df ↔ r ∈ df ∧ a ∈ artists r)
  ∧ artist_df artists None df = [].
Proof.
  cbn zeta. set (column := artists <$> df).
  assert (∀ opts a, (∀ b, b ∈ opts → b ∈ all_artists column) →
            selectbox opts = Some a →
            artist_df artists (Some a) df ≠ []
            ∧ ∀ r, r ∈ artist_df artists (Some a) df ↔ r ∈ df ∧ a ∈ artists r) as Hsel.
  { intros opts a Hopts Ha.
    assert (∀ r, r ∈ artist_df artists (Some a) df ↔ r ∈ df ∧ a ∈ artists r) as Hin.
    { intros r. unfold artist_df. rewrite elem_of_List_filter.
      by rewrite bool_decide_eq_true. }
    split; [|done].
    apply selectbox_option, Hopts, elem_of_all_artists in Ha. unfold column in Ha.
    apply elem_of_concat_fmap in Ha as (r & Hr & Har).
    intros Hnil. assert (r ∈ artist_df artists (Some a) df) as H by by apply Hin.
    rewrite Hnil in H. by apply elem_of_nil in H. }
  assert (∀ b, b ∈ matched_artists search (all_artists column) ↔
               search ≠ EmptyString ∧ b ∈ all_artists column
               ∧ Py.contains (Py.lower search) (Py.lower b) = true) as Hmatch.
  { intros b. unfold matched_artists. case_bool_decide as E.
    - split; [by intros ?%elem_of_nil|]. by intros [? _].
    - rewrite elem_of_List_filter. tauto. }
  split_and!.
  - apply sorted_names_sorted.
  - unfold all_artists. rewrite sorted_names_perm. apply NoDup_remove_dups.
  - intros a. unfold column. by rewrite elem_of_all_artists, elem_of_concat_fmap.
  - unfold selected_artist.
    destruct (matched_artists search (all_artists column)) as [|m matched] eqn:Em.
    + case_bool_decide as E.
      * split; [done|]. by intros [? _].
      * split; [|done]. intros _. split; [done|]. intros a Ha.
        destruct (Py.contains (Py.lower search) (Py.lower a)) eqn:Ec; [|done].
        assert (a ∈ ([] : list string)) as H by by apply Hmatch.
        by apply elem_of_nil in H.
    + split; [done|]. intros [Hne Hno].
      assert (m ∈ m :: matched) as H by apply list_elem_of_here.
      apply Hmatch in H as (_ & Hm & Hc). rewrite (Hno m Hm) in Hc. done.
  - intros a. unfold selected_artist.
    destruct (matched_artists search (all_artists column)) as [|m matched] eqn:Em.
    + case_bool_decide as E; [|done]. intros [= Ha].
      split; [done|]. by apply (Hsel (all_artists column) a).
    + intros [= Ha]. split.
      * intros _. by apply selectbox_option, Hmatch in Ha as (_ & _ & ?).
      * apply (Hsel _ a (λ b Hb, proj1 (proj2 (proj1 (Hmatch b) Hb))) Ha).
  - apply artist_df_None.
Qed.

End CelebrityView.

Lemma celebrity_view_witness :
  selected_artist hd_error "zen" sample_articles = Some (Some "Zendaya")
  ∧ artist_df id (Some "Zendaya") sample_articles
    = [ ["Zendaya"; "Tom Holland"]; ["Rosalia"; "Zendaya"] ]
  ∧ artist_df id (Some "Zendaya") sample_articles ≠ [].
Proof.
  assert (∀ (options : list string) a, hd_error options = Some a → a ∈ options) as Hhead.
  { intros [|b options] a; [discriminate|]. intros [= ->]. apply list_elem_of_here. }
  destruct (celebrity_view hd_error Hhead id "zen" sample_articles)
    as (_ & _ & _ & _ & H & _).
  cbn zeta in H. rewrite list_fmap_id in H.
  destruct (H "Zendaya") as (_ & Hne & _); [reflexivity|].
  split_and!; [reflexivity|reflexivity|exact Hne].
Defined.

Import Py PyFacts.

(** *** The two models of [clean_tags] agree on ASCII text *)

Lemma of_string_inj s t : Wide.of_string s = Wide.of_string t → s = t.
Proof.
  revert t. induction s as [|c s IH]; intros [|d t]; cbn; try done.
  intros [= Hc Hs]. f_equal; [|by apply IH].
  rewrite <- (ascii_N_embedding c), <- (ascii_N_embedding d). by rewrite Hc.
Qed.

Lemma of_string_append s t :
  Wide.of_string (s +:+ t) = (Wide.of_string s ++ Wide.of_string t)%list.
Proof. induction s as [|c s IH]; [done|]. rewrite app_cons. cbn. by rewrite IH. Qed.

Lemma isspace_of_ascii c : Wide.isspace (N_of_ascii c) = isspace c.
Proof. destruct c as [[] [] [] [] [] [] [] []]; reflexivity. Qed.

Lemma upper_cp_of_ascii c :
  (code c <? 128)%nat = true →
  Wide.upper_cp (N_of_ascii c) = [N_of_ascii (upper_char c)].
Proof. destruct c as [[] [] [] [] [] [] [] []]; intros H; try discriminate H; reflexivity. Qed.

Lemma lower_cp_of_ascii c :
  (code c <? 128)%nat = true →
  Wide.lower_cp (N_of_ascii c) = [N_of_ascii (lower_char c)].
Proof. destruct c as [[] [] [] [] [] [] [] []]; intros H; try discriminate H; reflexivity. Qed.

Lemma title_cp_of_ascii c :
  (code c <? 128)%nat = true →
  Wide.title_cp (N_of_ascii c) = [N_of_ascii (upper_char c)].
Proof. destruct c as [[] [] [] [] [] [] [] []]; intros H; try discriminate H; reflexivity. Qed.

Lemma repertoire_of_ascii c :
  (code c <? 128)%nat = true → Wide.repertoire (N_of_ascii c) = true.
Proof. destruct c as [[] [] [] [] [] [] [] []]; intros H; try discriminate H; reflexivity. Qed.

Lemma upper_char_ascii c :
  (code c <? 128)%nat = true → (code (upper_char c) <? 128)%nat = true.
Proof. destruct c as [[] [] [] [] [] [] [] []]; intros H; try discriminate H; reflexivity. Qed.

Lemma repertoire_of_string s :
  isascii s = true → forallb Wide.repertoire (Wide.of_string s) = true.
Proof.
  induction s as [|c s IH]; [done|]. cbn [isascii Wide.of_string forallb].
  intros [Hc Hs]%andb_true_iff. by rewrite repertoire_of_ascii, IH.
Qed.

Lemma upper_of_string s :
  isascii s = true → Wide.upper (Wide.of_string s) = Wide.of_string (upper s).
Proof.
  unfold Wide.upper. induction s as [|c s IH]; [done|]. cbn [isascii Wide.of_string].
  intros [Hc Hs]%andb_true_iff. rewrite bind_cons, upper_cp_of_ascii, IH by done. done.
Qed.

Lemma lower_of_string s :
  isascii s = true → Wide.lower (Wide.of_string s) = Wide.of_string (lower s).
Proof.
  unfold Wide.lower. induction s as [|c s IH]; [done|]. cbn [isascii Wide.of_string].
  intros [Hc Hs]%andb_true_iff. rewrite bind_cons, lower_cp_of_ascii, IH by done. done.
Qed.

Lemma isascii_upper s : isascii s = true → isascii (upper s) = true.
Proof.
  induction s as [|c s IH]; [done|]. cbn [isascii upper map].
  intros [Hc Hs]%andb_true_iff. fold (upper s). by rewrite upper_char_ascii, IH.
Qed.

Lemma capitalize_of_string s :
  isascii s = true →
  Wide.capitalize (Wide.of_string s) = Wide.of_string (capitalize s).
Proof.
  destruct s as [|c s]; [done|]. cbn [isascii Wide.of_string Wide.capitalize capitalize].
  intros [Hc Hs]%andb_true_iff. by rewrite title_cp_of_ascii, lower_of_string.
Qed.

Lemma lstrip_of_string s :
  Wide.lstrip (Wide.of_string s) = Wide.of_string (lstrip isspace s).
Proof.
  induction s as [|c s IH]; [done|]. cbn [Wide.of_string Wide.lstrip lstrip].
  rewrite isspace_of_ascii. by destruct (isspace c).
Qed.

Lemma rstrip_of_string s :
  Wide.rstrip (Wide.of_string s) = Wide.of_string (rstrip isspace s).
Proof.
  induction s as [|c s IH]; [done|]. cbn [Wide.of_string Wide.rstrip rstrip].
  rewrite IH, isspace_of_ascii. destruct (rstrip isspace s); cbn [Wide.of_string]; [|done].
  by destruct (isspace c).
Qed.

Lemma strip_of_string s : Wide.strip (Wide.of_string s) = Wide.of_string (strip s).
Proof.
  unfold Wide.strip, strip, strip_chars. by rewrite lstrip_of_string, rstrip_of_string.
Qed.

Lemma isascii_lstrip p s : isascii s = true → isascii (lstrip p s) = true.
Proof.
  induction s as [|c s IH]; [done|]. cbn [lstrip]. destruct (p c); [|done].
  cbn [isascii]. intros [_ Hs]%andb_true_iff. by apply IH.
Qed.

Lemma isascii_rstrip p s : isascii s = true → isascii (rstrip p s) = true.
Proof.
  induction s as [|c s IH]; [done|]. cbn [isascii rstrip].
  intros [Hc Hs]%andb_true_iff. specialize (IH Hs).
  destruct (rstrip p s) as [|d r].
  - destruct (p c); [done|]. cbn [isascii]. by rewrite Hc.
  - cbn [isascii] in *. by rewrite Hc.
Qed.

Lemma isascii_strip s : isascii s = true → isascii (strip s) = true.
Proof. intros H. unfold strip, strip_chars. by apply isascii_rstrip, isascii_lstrip. Qed.

Lemma startswith_of_string sub s :
  Wide.startswith (Wide.of_string sub) (Wide.of_string s) = startswith sub s.
Proof.
  revert s. induction sub as [|a sub IH]; intros [|b s]; cbn; try done.
  rewrite IH. f_equal. destruct (decide (a = b)) as [->|Hne].
  - by rewrite N.eqb_refl, bool_decide_eq_true_2.
  - rewrite bool_decide_eq_false_2 by done. apply N.eqb_neq. intros H.
    apply Hne. rewrite <- (ascii_N_embedding a), <- (ascii_N_embedding b). by rewrite H.
Qed.

Lemma contains_of_string sub s :
  Wide.contains (Wide.of_string sub) (Wide.of_string s) = contains sub s.
Proof.
  induction s as [|b s IH].
  - cbn [Wide.of_string Wide.contains contains].
    by rewrite <- (startswith_of_string sub EmptyString).
  - change (contains sub (String b s)) with (startswith sub (String b s) || contains sub s).
    cbn [Wide.of_string Wide.contains]. rewrite IH.
    by rewrite <- (startswith_of_string sub (String b s)).
Qed.

Lemma first_rule_of_string rules tag :
  Wide.first_rule ((λ rule, (Wide.of_string rule.1, Wide.of_string rule.2)) <$> rules)
                  (Wide.of_string tag)
  = Wide.of_string <$> first_rule rules tag.
Proof.
  induction rules as [|[key value] rules IH]; [done|].
  rewrite fmap_cons. cbn [Wide.first_rule first_rule fst snd].
  rewrite contains_of_string. by destruct (contains key tag).
Qed.

(** On ASCII text the model on code points computes what the model on
    strings computes. *)
Lemma clean_tags_of_string (tag : string) :
  isascii tag = true →
  Wide.clean_tags (Wide.of_string tag) = Some (Wide.of_string (clean_tags tag)).
Proof.
  intros Ha. unfold Wide.clean_tags, clean_tags. cbv zeta.
  rewrite (repertoire_of_string _ Ha), (upper_of_string _ Ha), strip_of_string.
  unfold Wide.TAG_RULES. rewrite first_rule_of_string.
  destruct (first_rule TAG_RULES (strip (upper tag))); cbn [fmap option_fmap option_map]; [done|].
  by rewrite capitalize_of_string by by apply isascii_strip, isascii_upper.
Qed.


